(** * validation_lib: per-example anomaly detection over TFRecord files

  A shallow embedding of
  [tensorflow_data_validation/utils/validation_lib.py] and of the
  library calls it makes, followed by the properties of
  [validate_tfexamples_in_tfrecord].

  The function is glue code: it checks one option, resolves an output
  path, makes sure a directory exists, builds and runs a Beam pipeline
  and reloads the file the pipeline wrote.  Its effects are modelled in
  a state-and-exception monad over a [World] that holds the file system,
  the entropy consumed by [tempfile] and by the sink, and the log of
  external calls. *)

From Stdlib Require Import String Ascii List.
From stdpp Require Import gmap strings list fin_maps pretty.

(** ** Paths: [os.path] on POSIX *)

Module Path.

Definition sep : ascii := "/"%char.

Definition is_sep (c : ascii) : bool := bool_decide (c = sep).

(** [s.startswith('/')] *)
Definition starts_with_sep (s : string) : bool :=
  match s with
  | String c _ => is_sep c
  | EmptyString => false
  end.

(** [s.endswith('/')] *)
Fixpoint ends_with_sep (s : string) : bool :=
  match s with
  | EmptyString => false
  | String c EmptyString => is_sep c
  | String _ s' => ends_with_sep s'
  end.

(** ['/' in s] *)
Fixpoint has_sep (s : string) : bool :=
  match s with
  | EmptyString => false
  | String c s' => is_sep c || has_sep s'
  end.

(** [posixpath.join(a, b)] for two components:
    [if b.startswith('/'): path = b
     elif not path or path.endswith('/'): path += b
     else: path += '/' + b]. *)
Definition join (a b : string) : string :=
  if starts_with_sep b then b
  else if bool_decide (a = "") || ends_with_sep a then a +:+ b
  else a +:+ String sep b.

(** [p[:p.rfind('/') + 1]]: everything up to and including the last
    separator, the empty string when there is none. *)
Fixpoint head_of (p : string) : string :=
  match p with
  | EmptyString => EmptyString
  | String c p' =>
      if has_sep p' then String c (head_of p')
      else if is_sep c then String c EmptyString
      else EmptyString
  end.

(** [s.rstrip('/')] *)
Fixpoint rstrip_sep (s : string) : string :=
  match s with
  | EmptyString => EmptyString
  | String c s' =>
      match rstrip_sep s' with
      | EmptyString => if is_sep c then EmptyString else String c EmptyString
      | r => String c r
      end
  end.

(** [posixpath.dirname(p)]:
    [head = p[:i]
     if head and head != '/' * len(head): head = head.rstrip('/')]. *)
Definition dirname (p : string) : string :=
  let head := head_of p in
  match rstrip_sep head with
  | EmptyString => head
  | stripped => stripped
  end.

(** [posixpath.basename(p)]: [p[p.rfind('/') + 1:]]. *)
Fixpoint basename (p : string) : string :=
  match p with
  | EmptyString => EmptyString
  | String c p' =>
      if has_sep p' then basename p'
      else if is_sep c then p'
      else String c p'
  end.

(** [p.split('/')] *)
Fixpoint components (p : string) : list string :=
  match p with
  | EmptyString => [EmptyString]
  | String c p' =>
      if is_sep c then EmptyString :: components p'
      else match components p' with
           | h :: t => String c h :: t
           | [] => [String c EmptyString]
           end
  end.

(** One step of path resolution from the directory at the place [at_]
    (a list of names below the root): an empty component and [.] stay,
    [..] goes to the parent (the root is its own parent), a name goes
    down. *)
Definition step (at_ : list string) (c : string) : list string :=
  if bool_decide (c = "") || bool_decide (c = ".") then at_
  else if bool_decide (c = "..") then removelast at_
  else at_ ++ [c].

(** The place a path leads to.  The current directory is taken to be
    the root, so a relative path and the absolute path of the same
    components lead to the same place, as do [/data], [//data/.] and
    [/x/../data]. *)
Definition resolve (p : string) : list string :=
  foldl step [] (components p).

(** The places a step is taken from on the way: each has to be a
    directory for the path to lead anywhere. *)
Fixpoint trail (at_ : list string) (cs : list string) : list (list string) :=
  match cs with
  | [] => []
  | c :: cs' => at_ :: trail (step at_ c) cs'
  end.

Definition passed (p : string) : list (list string) :=
  trail [] (components p).

(** A path without its trailing separators, a path of separators only
    kept as it is. *)
Definition strip_trailing (p : string) : string :=
  match rstrip_sep p with
  | EmptyString => p
  | stripped => stripped
  end.

(** [glob.has_magic]: one of the characters star, question mark and
    opening bracket occurs. *)
Fixpoint has_magic (s : string) : bool :=
  match s with
  | EmptyString => false
  | String c s' =>
      bool_decide (c = "*"%char) || bool_decide (c = "?"%char)
      || bool_decide (c = "["%char) || has_magic s'
  end.

End Path.

(** A directory is plain when it is not empty and has no trailing
    separator, which is what [mkdtemp] returns. *)
Definition plain_dir (a : string) : Prop :=
  a <> "" /\ Path.ends_with_sep a = false.

(** A name is plain when it has no separator and is none of the empty
    name, [.] and [..]: joined onto a directory it names a child. *)
Definition plain_name (b : string) : Prop :=
  Path.has_sep b = false /\ b <> "" /\ b <> "." /\ b <> "..".

(** ** Exceptions

    The Python exceptions that the function and the libraries it calls
    can raise.  [ExternalError] stands for whatever else a collaborator
    raises (decode errors, runner errors, ...). *)

Inductive exn : Type :=
| ValueError (msg : string)
| TypeError (msg : string)
| IOError (msg : string)
| RuntimeError (msg : string)
| FileExistsError (path : string)
| FileNotFoundError (path : string)
| NotADirectoryError (path : string)
| NotFoundError (path : string)
| FailedPreconditionError (path : string)
| StopIteration
| ExternalError (origin msg : string).

(** ** The file system

    A finite map from places to nodes.  The root is a directory and is
    not stored.  There are no symbolic links and no permissions. *)

Definition bytes : Type := list Byte.byte.

Inductive Node : Type :=
| Dir
| File (records : list bytes).

Definition node (m : gmap (list string) Node) (k : list string) : option Node :=
  match k with
  | [] => Some Dir
  | _ => m !! k
  end.

Definition dir_at (m : gmap (list string) Node) (k : list string) : bool :=
  match node m k with
  | Some Dir => true
  | _ => false
  end.

(** What a path names, as the system calls see it: a node, a name that
    is free in an existing directory, or nothing, because a regular file
    ([ENOTDIR]) or a missing directory ([ENOENT]) is in the way.  The
    empty path names nothing. *)
Inductive Status : Type :=
| Present (k : list string) (n : Node)
| Absent (k : list string)
| NotDirectory
| NoEntry.

Definition status (m : gmap (list string) Node) (p : string) : Status :=
  if bool_decide (p = "") then NoEntry
  else
    match List.find (fun k => negb (dir_at m k)) (Path.passed p) with
    | Some k =>
        match node m k with
        | Some _ => NotDirectory
        | None => NoEntry
        end
    | None =>
        match node m (Path.resolve p) with
        | Some n => Present (Path.resolve p) n
        | None => Absent (Path.resolve p)
        end
    end.

Definition put_dir (k : list string) (m : gmap (list string) Node) : gmap (list string) Node :=
  match k with
  | [] => m
  | _ => <[k := Dir]> m
  end.

Definition make_dirs (ks : list (list string)) (m : gmap (list string) Node) :
    gmap (list string) Node :=
  foldr put_dir m ks.

(** The places from the root down to [k], both included. *)
Definition inits (k : list string) : list (list string) :=
  map (fun n => take n k) (seq 0 (S (length k))).

(** Removing a place with everything below it. *)
Definition delete_tree (k : list string) (m : gmap (list string) Node) : gmap (list string) Node :=
  filter (fun kv => ~ k `prefix_of` kv.1) m.

(** The regular files of a file system. *)
Definition files_of (m : gmap (list string) Node) : gmap (list string) (list bytes) :=
  omap (fun n => match n with File records => Some records | Dir => None end) m.

(** ** Opaque data of the collaborators

    The function never looks inside a schema, the pipeline options, a
    decoded example or the per-feature statistics: they are parameters of
    the whole development. *)

Class Opaque : Type := {
  Schema : Type;            (* schema_pb2.Schema *)
  OtherStatsOptions : Type; (* every field of StatsOptions but the schema *)
  PipelineOptions : Type;   (* apache_beam PipelineOptions *)
  Example : Type;           (* a decoded tf.Example *)
  FeatureStats : Type;      (* the features of a DatasetFeatureStatistics *)
}.

Section Model.

Context `{Opaque}.

(** [tfdv.StatsOptions]: the schema is optional, the rest is opaque. *)
Record StatsOptions : Type := {
  schema : option Schema;
  other_options : OtherStatsOptions;
}.

(** [statistics_pb2.DatasetFeatureStatistics] and the list proto that is
    written and reloaded; one dataset per slice. *)
Record DatasetFeatureStatistics : Type := {
  name : string;
  num_examples : nat;
  features : FeatureStats;
}.

Definition DatasetFeatureStatisticsList : Type := list DatasetFeatureStatistics.

(** ** The pipeline as a value

    Beam builds a graph of labelled transforms inside the [with] block
    and runs it when the block is left. *)

Inductive Coder : Type :=
| BytesCoder
| ProtoCoder_DatasetFeatureStatisticsList.

Inductive PTransform : Type :=
| ReadFromTFRecord (file_pattern : string)
| DecodeTFExample
| IdentifyAnomalousExamples (options : StatsOptions)
| GenerateSlicedStatisticsImpl (options : StatsOptions) (is_slicing_enabled : bool)
| WriteToTFRecord (file_path_prefix : string)
    (shard_name_template : option string) (coder : Coder).

Definition Pipeline : Type := list (string * PTransform).

(** The contents of a PCollection between two stages. *)
Inductive PValue : Type :=
| PBegin
| PBytes (records : list bytes)
| PExamples (examples : list Example)
| PTagged (tagged : list (Example * list string))
| PStats (stats : list DatasetFeatureStatisticsList)
| PDone.

(** ** The world *)

(** External calls, logged in the order they are made. *)
Inductive Call : Type :=
| CallMkdtemp
| CallExists (path : string)
| CallMakeDirs (path : string)
| CallRun (options : option PipelineOptions) (stages : Pipeline)
| CallLoadStatistics (path : string).

Record World : Type := {
  fs : gmap (list string) Node;
  tempdir : string;        (* tempfile.gettempdir() *)
  rng : nat -> nat;        (* the random choices tempfile will draw *)
  rng_pos : nat;           (* how many of them were drawn *)
  uuid_rng : nat -> nat;   (* the digits of the uuids the sink will draw *)
  uuid_pos : nat;          (* how many of them were drawn *)
  calls : list Call;
}.

Definition set_fs (f : gmap (list string) Node -> gmap (list string) Node) (w : World) : World :=
  {| fs := f (fs w); tempdir := tempdir w; rng := rng w;
     rng_pos := rng_pos w; uuid_rng := uuid_rng w; uuid_pos := uuid_pos w;
     calls := calls w |}.

Definition set_rng_pos (n : nat) (w : World) : World :=
  {| fs := fs w; tempdir := tempdir w; rng := rng w;
     rng_pos := n; uuid_rng := uuid_rng w; uuid_pos := uuid_pos w;
     calls := calls w |}.

Definition set_uuid_pos (n : nat) (w : World) : World :=
  {| fs := fs w; tempdir := tempdir w; rng := rng w;
     rng_pos := rng_pos w; uuid_rng := uuid_rng w; uuid_pos := n;
     calls := calls w |}.

Definition add_call (c : Call) (w : World) : World :=
  {| fs := fs w; tempdir := tempdir w; rng := rng w;
     rng_pos := rng_pos w; uuid_rng := uuid_rng w; uuid_pos := uuid_pos w;
     calls := calls w ++ [c] |}.

(** What is at a path. *)
Definition lookup_path (w : World) (p : string) : option Node :=
  match status (fs w) p with
  | Present _ n => Some n
  | _ => None
  end.

Definition is_dir (w : World) (p : string) : bool :=
  match lookup_path w p with
  | Some Dir => true
  | _ => false
  end.

Definition is_file (w : World) (p : string) : bool :=
  match lookup_path w p with
  | Some (File _) => true
  | _ => false
  end.

(** The records of the regular file at a path. *)
Definition file_at (w : World) (p : string) : option (list bytes) :=
  match lookup_path w p with
  | Some (File records) => Some records
  | _ => None
  end.

(** ** Effects: state and exceptions *)

Inductive Outcome (A : Type) : Type :=
| Return (a : A)
| Raise (e : exn).

Arguments Return {A} a.
Arguments Raise {A} e.

Definition M (A : Type) : Type := World -> Outcome A * World.

Definition ret {A} (a : A) : M A := fun w => (Return a, w).

Definition raise {A} (e : exn) : M A := fun w => (Raise e, w).

Definition bind {A B} (m : M A) (k : A -> M B) : M B :=
  fun w =>
    match m w with
    | (Return a, w') => k a w'
    | (Raise e, w') => (Raise e, w')
    end.

Notation "'let*' x ':=' c1 'in' c2" := (bind c1 (fun x => c2))
  (at level 10, x pattern, c1 at level 100, c2 at level 200).

Definition log (c : Call) : M unit := fun w => (Return tt, add_call c w).

(** Lift a pure partial computation. *)
Definition lift {A} (r : exn + A) : M A :=
  match r with
  | inl e => raise e
  | inr a => ret a
  end.

(** Run [f] over a list, stopping at the first exception. *)
Fixpoint traverse {A B} (f : A -> exn + B) (l : list A) : exn + list B :=
  match l with
  | [] => inr []
  | x :: l' =>
      match f x with
      | inl e => inl e
      | inr y =>
          match traverse f l' with
          | inl e => inl e
          | inr ys => inr (y :: ys)
          end
      end
  end.

(** ** [os.mkdir] and [tempfile.mkdtemp] *)

(** [os.mkdir(path)]: the path must name nothing yet, in a directory
    that exists; trailing separators are ignored. *)
Definition os_mkdir (path : string) : M unit :=
  fun w =>
    match status (fs w) (Path.strip_trailing path) with
    | Present _ _ => (Raise (FileExistsError path), w)
    | Absent k => (Return tt, set_fs (insert k Dir) w)
    | NotDirectory => (Raise (NotADirectoryError path), w)
    | NoEntry => (Raise (FileNotFoundError path), w)
    end.

(** [tempfile._RandomNameSequence]: eight characters drawn from
    [characters]. *)
Definition characters : list ascii :=
  list_ascii_of_string "abcdefghijklmnopqrstuvwxyz0123456789_".

Definition choose (r : nat) : ascii := nth (r mod 37) characters "a"%char.

Definition next_name : M string :=
  fun w =>
    let p := rng_pos w in
    (Return (string_of_list_ascii (map (fun i => choose (rng w (p + i))) (seq 0 8))),
     set_rng_pos (p + 8) w).

(** [os.TMP_MAX] on Linux: 238328. *)
Definition TMP_MAX : nat := 62 * 62 * 62.

(** The loop of [tempfile.mkdtemp]:
    [for seq in range(TMP_MAX):
       name = next(names)
       file = os.path.join(dir, prefix + name + suffix)
       try: os.mkdir(file, 0o700)
       except FileExistsError: continue
       return file
     raise FileExistsError("No usable temporary directory name found")]. *)
Fixpoint mkdtemp_loop (tries : nat) : M string :=
  match tries with
  | O => raise (FileExistsError "No usable temporary directory name found")
  | S tries' =>
      let* name := next_name in
      fun w =>
        let file := Path.join (tempdir w) ("tmp" +:+ name) in
        match os_mkdir file w with
        | (Return _, w') => (Return file, w')
        | (Raise (FileExistsError _), w') => mkdtemp_loop tries' w'
        | (Raise e, w') => (Raise e, w')
        end
  end.

Definition mkdtemp : M string :=
  let* _ := log CallMkdtemp in
  mkdtemp_loop TMP_MAX.

(** ** [tf.gfile] *)

(** [tf.gfile.Exists(path)]: true for a file and for a directory,
    however the path spells it. *)
Definition gfile_Exists (path : string) : M bool :=
  let* _ := log (CallExists path) in
  fun w => (Return (bool_decide (is_Some (lookup_path w path))), w).

(** A path and its ancestors, nearest first: [p], [dirname p], ... until
    the empty path or a path that is its own parent (a root). *)
Fixpoint lineage_upto (fuel : nat) (p : string) : list string :=
  match fuel with
  | O => []
  | S fuel' =>
      if bool_decide (p = "") then []
      else p :: (if bool_decide (Path.dirname p = p) then []
                 else lineage_upto fuel' (Path.dirname p))
  end.

Definition lineage (p : string) : list string := lineage_upto (String.length p) p.

(** [tf.gfile.MakeDirs(dirname)]: creates the directory and every missing
    ancestor, succeeds when it already exists, fails when one of them is
    a regular file.  The empty path names nothing and creates nothing. *)
Definition gfile_MakeDirs (dirname : string) : M unit :=
  let* _ := log (CallMakeDirs dirname) in
  fun w =>
    match List.find (is_file w) (lineage dirname) with
    | Some q => (Raise (FailedPreconditionError q), w)
    | None => (Return tt, set_fs (make_dirs (map Path.resolve (lineage dirname))) w)
    end.

(** ** The collaborators

    What the glob matcher, the decoder, the anomaly detector, the
    statistics generators, the proto coder and the Beam runner compute is
    outside the function; each is a parameter. *)

Class Collaborators : Type := {
  (* does the place match the glob pattern? *)
  glob_match : string -> list string -> bool;
  (* tf_example_decoder: one serialized tf.Example *)
  decode_example : bytes -> exn + Example;
  (* the anomaly reasons of one example under a schema *)
  anomaly_reasons : Schema -> Example -> exn + list string;
  (* the per-feature statistics of a set of examples *)
  feature_stats : StatsOptions -> list Example -> FeatureStats;
  (* proto (de)serialization of a DatasetFeatureStatisticsList *)
  SerializeToString : DatasetFeatureStatisticsList -> bytes;
  ParseFromString : bytes -> exn + DatasetFeatureStatisticsList;
  (* what the constructor of a pipeline raises on these options *)
  options_fault : option PipelineOptions -> option exn;
  (* a failure of the runner itself, decided by the pipeline options *)
  runner_fault : option PipelineOptions -> option exn;
  (* the exception the runner raises for the failure of a step *)
  runner_report : exn -> exn;
  (* a sink whose shard name template is not the empty one: what its
     constructor raises, and what it writes *)
  sharded_sink_fault : option string -> option exn;
  sharded_write : string -> option string -> list bytes -> M unit;
}.

Context `{Collaborators}.

(** ** [FileSystems]: the local file system as Beam uses it *)

(** A pattern with glob characters, or with a trailing separator, is
    for the glob matcher; any other pattern is a path. *)
Definition is_glob (pattern : string) : bool :=
  Path.has_magic pattern || Path.ends_with_sep pattern.

(** [FileSystems.match]: the places a pattern matches.  A path
    matches what it names, if that exists. *)
Definition matched (m : gmap (list string) Node) (pattern : string) (k : list string) : bool :=
  if is_glob pattern then glob_match pattern k && bool_decide (is_Some (node m k))
  else match status m pattern with
       | Present k' _ => bool_decide (k' = k)
       | _ => false
       end.

(** The records of the regular files a pattern matches. *)
Definition matching_files (m : gmap (list string) Node) (pattern : string) : list (list bytes) :=
  map snd (List.filter (fun kv => matched m pattern kv.1) (map_to_list (files_of m))).

(** Does the pattern match a directory? *)
Definition matches_dir (m : gmap (list string) Node) (pattern : string) : bool :=
  existsb (fun kv => matched m pattern kv.1
                     && match kv.2 with Dir => true | File _ => false end)
          (([], Dir) :: map_to_list m).

(** Does the pattern match anything at all? *)
Definition matches_any (m : gmap (list string) Node) (pattern : string) : bool :=
  negb (bool_decide (matching_files m pattern = [])) || matches_dir m pattern.

(** [FileSystems.mkdirs(path)] is [os.makedirs(path)]:
    [head, tail = path.split(name)
     if not tail: head, tail = path.split(head)
     if head and tail and not path.exists(head):
       try: makedirs(head)
       except FileExistsError: pass
       if tail == curdir: return
     mkdir(name)]. *)
Fixpoint os_makedirs_upto (fuel : nat) (name : string) : M unit :=
  match fuel with
  | O => os_mkdir name
  | S fuel' =>
      let head0 := Path.dirname name in
      let tail0 := Path.basename name in
      let head := if bool_decide (tail0 = "") then Path.dirname head0 else head0 in
      let tail := if bool_decide (tail0 = "") then Path.basename head0 else tail0 in
      fun w =>
        if negb (bool_decide (head = "")) && negb (bool_decide (tail = ""))
           && negb (bool_decide (is_Some (lookup_path w head)))
        then
          match os_makedirs_upto fuel' head w with
          | (Return _, w') | (Raise (FileExistsError _), w') =>
              if bool_decide (tail = ".") then (Return tt, w') else os_mkdir name w'
          | (Raise e, w') => (Raise e, w')
          end
        else os_mkdir name w
  end.

Definition os_makedirs (name : string) : M unit :=
  os_makedirs_upto (String.length name) name.

(** [try: os.makedirs(path) except OSError as err: raise IOError(err)] *)
Definition fs_mkdirs (path : string) : M unit :=
  fun w =>
    match os_makedirs path w with
    | (Raise _, w') => (Raise (IOError path), w')
    | r => r
    end.

(** [FileSystems.create(path)] and the writes up to [close()]: the file
    is created, or truncated, and holds the records. *)
Definition fs_create (path : string) (records : list bytes) : M unit :=
  fun w =>
    match status (fs w) path with
    | Present k (File _) | Absent k =>
        (Return tt, set_fs (insert k (File records)) w)
    | _ => (Raise (IOError path), w)
    end.

(** [FileSystems.delete] of everything a pattern matches: a regular
    file is removed, a directory with everything below it. *)
Definition delete_matching (pattern : string) (m : gmap (list string) Node) :
    gmap (list string) Node :=
  filter (fun kv => Is_true (forallb (fun k => negb (matched m pattern k)) (inits kv.1))) m.

(** [FileSystems.rename] of a regular file is [os.rename]: the
    destination is replaced if it is a regular file, and must not be a
    directory. *)
Definition fs_rename (src dst : string) : M unit :=
  fun w =>
    match status (fs w) src, status (fs w) dst with
    | Present ks (File records), Present kd (File _)
    | Present ks (File records), Absent kd =>
        (Return tt, set_fs (fun m => <[kd := File records]> (delete ks m)) w)
    | _, _ => (Raise (IOError src), w)
    end.

(** ** [uuid] *)

Definition hex_digits : list ascii := list_ascii_of_string "0123456789abcdef".

Definition hex_digit (r : nat) : ascii := nth (r mod 16) hex_digits "0"%char.

Definition draw_hex (n : nat) : M string :=
  fun w =>
    let p := uuid_pos w in
    (Return (string_of_list_ascii (map (fun i => hex_digit (uuid_rng w (p + i))) (seq 0 n))),
     set_uuid_pos (p + n) w).

(** [uuid.uuid1().hex]: 32 hexadecimal digits. *)
Definition uuid1_hex : M string := draw_hex 32.

(** [str(uuid.uuid4())]: the digits in groups of 8, 4, 4, 4 and 12. *)
Definition uuid4_str : M string :=
  let* a := draw_hex 8 in
  let* b := draw_hex 4 in
  let* c := draw_hex 4 in
  let* d := draw_hex 4 in
  let* e := draw_hex 12 in
  ret (a +:+ "-" +:+ b +:+ "-" +:+ c +:+ "-" +:+ d +:+ "-" +:+ e).

(** ** The stages *)

(** *** Source: [beam.io.ReadFromTFRecord] *)

(** Reading at run time: the records of every matching file; a matching
    directory cannot be read. *)
Definition read_records (file_pattern : string) (m : gmap (list string) Node) : exn + list bytes :=
  if matches_dir m file_pattern then inl (IOError file_pattern)
  else inr (concat (matching_files m file_pattern)).

Definition read_from_tfrecord (file_pattern : string) : M (list bytes) :=
  fun w => lift (read_records file_pattern (fs w)) w.

(** *** Detector and aggregator *)

Definition ALL_EXAMPLES : string := "All Examples".

(** Modelled from the spec: [validation_api.IdentifyAnomalousExamples] is
    not part of the sources at hand.  The detector, given decoded examples
    and a schema-bearing configuration, tags each example with zero or
    more anomaly reasons. *)
Definition identify_anomalous_examples (options : StatsOptions)
    (examples : list Example) : exn + list (Example * list string) :=
  match schema options with
  | None => inl (ValueError "options must include a schema.")
  | Some s =>
      traverse (fun e => match anomaly_reasons s e with
                         | inl err => inl err
                         | inr reasons => inr (e, reasons)
                         end) examples
  end.

Definition dataset_of (options : StatsOptions) (slice : string)
    (examples : list Example) : DatasetFeatureStatistics :=
  {| name := slice;
     num_examples := length examples;
     features := feature_stats options examples |}.

Definition observed_reasons (tagged : list (Example * list string)) : list string :=
  remove_dups (concat (map snd tagged)).

Definition examples_with (reason : string)
    (tagged : list (Example * list string)) : list Example :=
  map fst (List.filter (fun t => bool_decide (reason ∈ snd t)) tagged).

(** Modelled from the spec: [stats_impl.GenerateSlicedStatisticsImpl] is
    not part of the sources at hand.  The aggregator, given anomaly-tagged
    examples, produces a sliced summary with one slice per distinct
    anomaly reason.  The spec adds an "all examples" slice; the docstring
    of the function (lines 47-49 and 70-72) has each dataset of the result
    consist of the examples that exhibit a particular anomaly, and that is
    what is modelled: an example without anomaly is in no slice. *)
Definition sliced_statistics (options : StatsOptions)
    (tagged : list (Example * list string)) : DatasetFeatureStatisticsList :=
  map (fun r => dataset_of options r (examples_with r tagged))
      (observed_reasons tagged).

(** Modelled from the spec: without slicing the aggregator produces a
    single aggregate over all examples. *)
Definition unsliced_statistics (options : StatsOptions)
    (examples : list Example) : DatasetFeatureStatisticsList :=
  [dataset_of options ALL_EXAMPLES examples].

(** *** Sink: [beam.io.WriteToTFRecord] over a [FileBasedSink] *)

(** [FileBasedSink.__init__]: [if shard_name_template is None: (the
    default template) elif shard_name_template == '': num_shards = 1],
    and the empty template formats to the empty shard name: the sink has
    one shard, whose final name is the file path prefix itself. *)
Definition is_unsharded (shard_name_template : option string) : bool :=
  bool_decide (shard_name_template = Some "").

(** [FileBasedSink._create_temp_dir]:
    [base_path, last_component = FileSystems.split(file_path_prefix)
     if not last_component:
       new_base_path, _ = FileSystems.split(base_path)
       if base_path == new_base_path: raise ValueError(...)
     return FileSystems.join(base_path,
              'beam-temp-' + last_component + '-' + uuid.uuid1().hex)]. *)
Definition beam_temp_dir (file_path_prefix u : string) : string :=
  Path.join (Path.dirname file_path_prefix)
            ("beam-temp-" +:+ Path.basename file_path_prefix +:+ "-" +:+ u).

Definition create_temp_dir (file_path_prefix : string) : M string :=
  let base_path := Path.dirname file_path_prefix in
  let last_component := Path.basename file_path_prefix in
  if bool_decide (last_component = "") && bool_decide (Path.dirname base_path = base_path)
  then raise (ValueError "Cannot create a temporary directory for root path prefix")
  else
    let* u := uuid1_hex in
    ret (beam_temp_dir file_path_prefix u).

(** [FileBasedSink.initialize_write] *)
Definition initialize_write (file_path_prefix : string) : M string :=
  let* tmp_dir := create_temp_dir file_path_prefix in
  let* _ := fs_mkdirs tmp_dir in
  ret tmp_dir.

(** [FileBasedSink.open_writer]: the file a bundle is written to,
    [FileSystems.join(init_result, uid) + '.' + basename(file_path_prefix)]. *)
Definition writer_path (file_path_prefix tmp_dir uid : string) : string :=
  Path.join tmp_dir uid +:+ "." +:+ Path.basename file_path_prefix.

(** The end of [finalize_write]:
    [try: FileSystems.delete([init_result]) except IOError: pass]. *)
Definition remove_temp_dir (tmp_dir : string) : M unit :=
  fun w =>
    match status (fs w) tmp_dir with
    | Present k Dir => (Return tt, set_fs (delete_tree k) w)
    | Present k (File _) => (Return tt, set_fs (delete k) w)
    | _ => (Return tt, w)
    end.

(** The one shard of an unsharded sink: written under the temporary
    directory, then, once everything matching the final name is deleted
    ([pre_finalize]), renamed to the final name ([finalize_write]). *)
Definition write_unsharded (file_path_prefix tmp_dir : string)
    (records : list bytes) : M unit :=
  let* uid := uuid4_str in
  let shard := writer_path file_path_prefix tmp_dir uid in
  let* _ := fs_create shard records in
  let* _ := (fun w => (Return tt, set_fs (delete_matching file_path_prefix) w)) in
  let* _ := fs_rename shard file_path_prefix in
  remove_temp_dir tmp_dir.

Definition encode_elements (coder : Coder) (v : PValue) : exn + list bytes :=
  match coder, v with
  | BytesCoder, PBytes records => inr records
  | ProtoCoder_DatasetFeatureStatisticsList, PStats stats =>
      inr (map SerializeToString stats)
  | _, _ => inl (TypeError "element does not match the coder")
  end.

Definition write_to_tfrecord (file_path_prefix : string)
    (shard_name_template : option string) (coder : Coder)
    (tmp_dir : string) (v : PValue) : M unit :=
  let* records := lift (encode_elements coder v) in
  if is_unsharded shard_name_template
  then write_unsharded file_path_prefix tmp_dir records
  else sharded_write file_path_prefix shard_name_template records.

(** *** Building a pipeline

    The transforms are constructed inside the [with] block, before
    anything runs, and their constructors validate their arguments:
    [FileBasedSource.__init__] raises
    [IOError('No files found based on the file pattern %s')] when the
    pattern matches nothing. *)

Definition construct (t : PTransform) : M PTransform :=
  match t with
  | ReadFromTFRecord file_pattern =>
      fun w =>
        if matches_any (fs w) file_pattern then (Return t, w)
        else (Raise (IOError ("No files found based on the file pattern "
                              +:+ file_pattern)), w)
  | WriteToTFRecord _ shard_name_template _ =>
      if is_unsharded shard_name_template then ret t
      else match sharded_sink_fault shard_name_template with
           | Some e => raise e
           | None => ret t
           end
  | _ => ret t
  end.

Fixpoint build (stages : Pipeline) : M Pipeline :=
  match stages with
  | [] => ret []
  | (label, t) :: rest =>
      let* t' := construct t in
      let* rest' := build rest in
      ret ((label, t') :: rest')
  end.

(** *** Running a pipeline *)

Definition type_error {A} : M A :=
  raise (TypeError "transform applied to the wrong kind of collection").

(** One stage, other than a sink, applied to the collection that reaches
    it. *)
Definition apply_transform (t : PTransform) (v : PValue) : M PValue :=
  match t, v with
  | ReadFromTFRecord file_pattern, PBegin =>
      let* records := read_from_tfrecord file_pattern in
      ret (PBytes records)
  | DecodeTFExample, PBytes records =>
      let* examples := lift (traverse decode_example records) in
      ret (PExamples examples)
  | IdentifyAnomalousExamples options, PExamples examples =>
      let* tagged := lift (identify_anomalous_examples options examples) in
      ret (PTagged tagged)
  | GenerateSlicedStatisticsImpl options true, PTagged tagged =>
      ret (PStats [sliced_statistics options tagged])
  | GenerateSlicedStatisticsImpl options false, PExamples examples =>
      ret (PStats [unsliced_statistics options examples])
  | _, _ => type_error
  end.

(** The temporary directories of the unsharded sinks of a pipeline, made
    when the run starts. *)
Fixpoint initialize_writes (stages : Pipeline) : M (list string) :=
  match stages with
  | [] => ret []
  | (_, WriteToTFRecord file_path_prefix shard_name_template _) :: rest =>
      let* tmp_dir :=
        (if is_unsharded shard_name_template
         then initialize_write file_path_prefix else ret "") in
      let* tmp_dirs := initialize_writes rest in
      ret (tmp_dir :: tmp_dirs)
  | _ :: rest => initialize_writes rest
  end.

Fixpoint run_stages (stages : Pipeline) (tmp_dirs : list string) (v : PValue)
  : M PValue :=
  match stages with
  | [] => ret v
  | (_, WriteToTFRecord file_path_prefix shard_name_template coder) :: rest =>
      let* _ := write_to_tfrecord file_path_prefix shard_name_template coder
                  (hd "" tmp_dirs) v in
      run_stages rest (tl tmp_dirs) PDone
  | (_, t) :: rest =>
      let* v' := apply_transform t v in
      run_stages rest tmp_dirs v'
  end.

(** The runner raises the failure of a step in its own way. *)
Definition reported {A} (m : M A) : M A :=
  fun w =>
    match m w with
    | (Raise e, w') => (Raise (runner_report e), w')
    | r => r
    end.

(** [Pipeline.run().wait_until_finish()]: the first failure is raised to
    the caller. *)
Definition Pipeline_run (options : option PipelineOptions) (stages : Pipeline) : M unit :=
  let* _ := log (CallRun options stages) in
  let* _ := match runner_fault options with
            | Some e => raise e
            | None => ret tt
            end in
  reported (let* tmp_dirs := initialize_writes stages in
            let* _ := run_stages stages tmp_dirs PBegin in
            ret tt).

(** [with beam.Pipeline(options=...) as p: body]: the pipeline object is
    made, the body builds the graph, and leaving the block without an
    exception runs it ([if not exc_type: self.run().wait_until_finish()]). *)
Definition with_Pipeline (options : option PipelineOptions) (body : M Pipeline) : M unit :=
  let* _ := match options_fault options with
            | Some e => raise e
            | None => ret tt
            end in
  let* stages := body in
  Pipeline_run options stages.

(** *** [stats_gen_lib.load_statistics] *)

(** The first record of the TFRecord file at a path, parsed; reading
    changes no file. *)
Definition read_statistics (input_path : string) (w : World)
  : exn + DatasetFeatureStatisticsList :=
  match lookup_path w input_path with
  | Some (File (record :: _)) => ParseFromString record
  | Some (File []) => inl StopIteration
  | Some Dir => inl (FailedPreconditionError input_path)
  | None => inl (NotFoundError input_path)
  end.

(** Modelled from the spec: [stats_gen_lib.load_statistics] is not part
    of the sources at hand.  It deserializes the statistics summary held
    at a durable location: the written output, a TFRecord file containing
    a single statistics proto, is reloaded from the output path. *)
Definition load_statistics (input_path : string) : M DatasetFeatureStatisticsList :=
  let* _ := log (CallLoadStatistics input_path) in
  fun w => lift (read_statistics input_path w) w.

(** ** [validate_tfexamples_in_tfrecord] *)

Definition SCHEMA_REQUIRED : string :=
  "The specified stats_options must include a schema.".

(** The graph built inside the [with] block. *)
Definition anomaly_pipeline (data_location : string) (stats_options : StatsOptions)
    (output_path : string) : Pipeline :=
  [ ("ReadData", ReadFromTFRecord data_location);
    ("DecodeData", DecodeTFExample);
    ("DetectAnomalies", IdentifyAnomalousExamples stats_options);
    ("GenerateSummaryStatistics", GenerateSlicedStatisticsImpl stats_options true);
    ("WriteStatsOutput",
       WriteToTFRecord output_path (Some "") ProtoCoder_DatasetFeatureStatisticsList) ].

Definition validate_tfexamples_in_tfrecord
    (data_location : string) (stats_options : StatsOptions)
    (output_path : option string) (pipeline_options : option PipelineOptions)
  : M DatasetFeatureStatisticsList :=
  match schema stats_options with
  | None => raise (ValueError SCHEMA_REQUIRED)
  | Some _ =>
      let* output_path :=
        match output_path with
        | None =>
            let* tmp := mkdtemp in
            ret (Path.join tmp "anomaly_stats.tfrecord")
        | Some p => ret p
        end in
      let output_dir_path := Path.dirname output_path in
      let* found := gfile_Exists output_dir_path in
      let* _ := if negb found then gfile_MakeDirs output_dir_path else ret tt in
      let* _ := with_Pipeline pipeline_options
                  (build (anomaly_pipeline data_location stats_options output_path)) in
      load_statistics output_path
  end.

(** ** Reading the behaviour of a call

    The statements before the [with] block, on their own: the output path
    is resolved and its directory is made sure of. *)
Definition prepare_output (output_path : option string) : M string :=
  let* output_path :=
    match output_path with
    | None =>
        let* tmp := mkdtemp in
        ret (Path.join tmp "anomaly_stats.tfrecord")
    | Some p => ret p
    end in
  let output_dir_path := Path.dirname output_path in
  let* found := gfile_Exists output_dir_path in
  let* _ := if negb found then gfile_MakeDirs output_dir_path else ret tt in
  ret output_path.

(** The external calls made between two worlds. *)
Definition new_calls (w w' : World) : list Call :=
  drop (length (calls w)) (calls w').

(** The pipelines that were run, with their options. *)
Definition runs (cs : list Call) : list (option PipelineOptions * Pipeline) :=
  omap (fun c => match c with
                 | CallRun options stages => Some (options, stages)
                 | _ => None
                 end) cs.

(** The paths statistics were loaded from. *)
Definition loaded_paths (cs : list Call) : list string :=
  omap (fun c => match c with
                 | CallLoadStatistics p => Some p
                 | _ => None
                 end) cs.

(** The directories [MakeDirs] was called on. *)
Definition made_dirs (cs : list Call) : list string :=
  omap (fun c => match c with
                 | CallMakeDirs p => Some p
                 | _ => None
                 end) cs.

(** The sinks of a pipeline: destination and shard name template. *)
Definition sinks (stages : Pipeline) : list (string * option string) :=
  omap (fun st => match snd st with
                  | WriteToTFRecord prefix template _ => Some (prefix, template)
                  | _ => None
                  end) stages.

Inductive StageKind : Type :=
| ReadStage
| DecodeStage
| DetectStage
| AggregateStage (per_slice : bool)
| WriteStage.

Definition kind_of (t : PTransform) : StageKind :=
  match t with
  | ReadFromTFRecord _ => ReadStage
  | DecodeTFExample => DecodeStage
  | IdentifyAnomalousExamples _ => DetectStage
  | GenerateSlicedStatisticsImpl _ sliced => AggregateStage sliced
  | WriteToTFRecord _ _ _ => WriteStage
  end.

Definition stage_kinds (stages : Pipeline) : list StageKind :=
  map (fun st => kind_of (snd st)) stages.


(** What the read, decode and detect stages make of the files of a
    world: the input examples, each with its anomaly reasons. *)
Definition tagged_examples (data_location : string) (stats_options : StatsOptions)
    (w : World) : exn + list (Example * list string) :=
  match read_records data_location (fs w) with
  | inl e => inl e
  | inr records =>
      match traverse decode_example records with
      | inl e => inl e
      | inr examples => identify_anomalous_examples stats_options examples
      end
  end.

(** Does the source of the pipeline find something to read? *)
Definition source_found (data_location : string) (w : World) : bool :=
  matches_any (fs w) data_location.

(** The places the final name of a sink lays claim to: the place the
    name leads to and, for a name with glob characters, what it matches.
    What is deleted before the shard is renamed ([pre_finalize]) is at or
    below one of them. *)
Definition claimed (file_path_prefix : string) (k : list string) : bool :=
  bool_decide (k = Path.resolve file_path_prefix)
  || (is_glob file_path_prefix && glob_match file_path_prefix k).

(** The first library call of a call that passed the schema check. *)
Definition first_call (output_path : option string) : Call :=
  match output_path with
  | None => CallMkdtemp
  | Some p => CallExists (Path.dirname p)
  end.

(** The destinations of the sinks of the pipelines that were run. *)
Definition output_paths (cs : list Call) : list string :=
  concat (map (fun r => map fst (sinks (snd r))) (runs cs)).

End Model.

Arguments Return {A} a.
Arguments Raise {A} e.

(** ** Auxiliary definitions *)

(** A run of separators. *)
Fixpoint seps (n : nat) : string :=
  match n with
  | O => EmptyString
  | S n' => String Path.sep (seps n')
  end.

(** A path leads somewhere when it is not empty and every place passed
    on the way is a directory. *)
Definition reachable (m : gmap (list string) Node) (p : string) : Prop :=
  p <> "" /\ forall k, k ∈ Path.passed p -> dir_at m k = true.

Section Auxiliary.

Context `{Opaque}.

(** The parent of a path is there, or the path has none. *)
Definition parent_ready (w : World) (p : string) : Prop :=
  Path.dirname p = "" \/ is_Some (lookup_path w (Path.dirname p)).

End Auxiliary.

(** ** A reference instantiation

    Small concrete collaborators on which the model runs: a schema lists
    the required features, a record holds the comma-separated names of
    the features of one example, and an example is anomalous for every
    required feature it lacks. *)

Module Reference.

#[export] Instance opaque : Opaque := {|
  Schema := list string;
  OtherStatsOptions := unit;
  PipelineOptions := list string;
  Example := list string;
  FeatureStats := nat;
|}.

Fixpoint split_commas (cur : string) (s : string) : list string :=
  match s with
  | EmptyString => [cur]
  | String c rest =>
      if bool_decide (c = ","%char) then cur :: split_commas "" rest
      else split_commas (cur +:+ String c "") rest
  end.

Definition decode_features (record : bytes) : exn + list string :=
  match record with
  | [] => inl (ExternalError "DecodeError" "empty record")
  | _ => inr (split_commas "" (string_of_list_byte record))
  end.

Definition missing_features (required : list string) (e : list string) : exn + list string :=
  inr (map (fun f => f +:+ " missing")
           (List.filter (fun f => negb (bool_decide (f ∈ e))) required)).

Fixpoint bytes_of_positive (p : positive) : bytes :=
  match p with
  | xH => []
  | xO p' => Byte.x00 :: bytes_of_positive p'
  | xI p' => Byte.x01 :: bytes_of_positive p'
  end.

Fixpoint positive_of_bytes (b : bytes) : positive :=
  match b with
  | [] => xH
  | Byte.x00 :: b' => xO (positive_of_bytes b')
  | _ :: b' => xI (positive_of_bytes b')
  end.

Definition tuple_of (d : DatasetFeatureStatistics) : string * nat * nat :=
  (name d, num_examples d, features d).

Definition dataset_of_tuple (t : string * nat * nat) : DatasetFeatureStatistics :=
  {| name := t.1.1; num_examples := t.1.2; features := t.2 |}.

Definition serialize (l : DatasetFeatureStatisticsList) : bytes :=
  bytes_of_positive (encode (map tuple_of l)).

Definition parse (b : bytes) : exn + DatasetFeatureStatisticsList :=
  match decode (positive_of_bytes b) with
  | Some l => inr (map dataset_of_tuple l)
  | None => inl (ExternalError "DecodeError" "Error parsing message")
  end.

(** The one glob understood: [dir/*], the entries of a directory. *)
Definition children_glob (pattern : string) (k : list string) : bool :=
  bool_decide (Path.basename pattern = "*")
  && negb (bool_decide (k = []))
  && bool_decide (removelast k = Path.resolve (Path.dirname pattern)).

#[export] Instance collaborators : Collaborators := {|
  glob_match := children_glob;
  decode_example := decode_features;
  anomaly_reasons := missing_features;
  feature_stats _ examples := length (concat examples);
  SerializeToString := serialize;
  ParseFromString := parse;
  options_fault options :=
    match options with
    | Some ("--runner=Unknown" :: _) => Some (ValueError "Unexpected pipeline runner")
    | _ => None
    end;
  runner_fault options :=
    match options with
    | Some ("--runner=Remote" :: _) => Some (ExternalError "Runner" "no connection")
    | _ => None
    end;
  runner_report e :=
    match e with
    | IOError msg => RuntimeError msg
    | _ => e
    end;
  sharded_sink_fault _ := None;
  sharded_write prefix _ records := fs_create (prefix +:+ "-00000-of-00001") records;
|}.

Definition record_of (s : string) : bytes := list_byte_of_string s.

(** A world with an input file of three examples, the second of which
    lacks the feature [b]. *)
Definition world0 : World :=
  {| fs := <[["data"; "in.tfrecord"] :=
              File [record_of "a,b"; record_of "a"; record_of "b,a"]]>
           (<[["data"] := Dir]> (<[["tmp"] := Dir]> ∅));
     tempdir := "/tmp";
     rng := fun n => n;
     rng_pos := 0;
     uuid_rng := fun n => n;
     uuid_pos := 0;
     calls := [] |}.

Definition options_ab : StatsOptions :=
  {| schema := Some ["a"; "b"]; other_options := tt |}.

Definition options_a : StatsOptions :=
  {| schema := Some ["a"]; other_options := tt |}.

Definition options_none : StatsOptions :=
  {| schema := None; other_options := tt |}.

(** The summaries expected of [world0] under the two schemas, and the
    worlds two calls leave. *)
Definition summary_ab : DatasetFeatureStatisticsList :=
  [ {| name := "b missing"; num_examples := 1; features := 1 |} ].

Definition summary_a : DatasetFeatureStatisticsList := [].

Definition after_default : World :=
  (validate_tfexamples_in_tfrecord "/data/in.tfrecord" options_ab None None world0).2.

Definition after_supplied : World :=
  (validate_tfexamples_in_tfrecord "/data/in.tfrecord" options_a
     (Some "/out/x/stats") None world0).2.

Definition after_default_twice : World :=
  (validate_tfexamples_in_tfrecord "/data/in.tfrecord" options_ab None None
     after_default).2.

Definition after_supplied_twice : World :=
  (validate_tfexamples_in_tfrecord "/data/in.tfrecord" options_ab
     (Some "/out/x/stats") None after_supplied).2.

End Reference.

(** ** Further cases on the reference world

    A coder whose parser rejects every record, beside the collaborators
    of [Reference]; an input with a record that does not decode; two
    output paths that run into the input file; and a world in which
    [tempfile] draws the same name again and again. *)

Module Cases.

Import Reference.

Definition unreadable : Collaborators := {|
  glob_match := @glob_match _ Reference.collaborators;
  decode_example := @decode_example _ Reference.collaborators;
  anomaly_reasons := @anomaly_reasons _ Reference.collaborators;
  feature_stats := @feature_stats _ Reference.collaborators;
  SerializeToString := @SerializeToString _ Reference.collaborators;
  ParseFromString _ := inl (ExternalError "DecodeError" "Error parsing message");
  options_fault := @options_fault _ Reference.collaborators;
  runner_fault := @runner_fault _ Reference.collaborators;
  runner_report := @runner_report _ Reference.collaborators;
  sharded_sink_fault := @sharded_sink_fault _ Reference.collaborators;
  sharded_write := @sharded_write _ Reference.collaborators;
|}.

(** [world0] with a second input file, whose second record is empty. *)
Definition world_bad : World :=
  set_fs (insert ["data"; "bad.tfrecord"] (File [record_of "a,b"; []])) world0.

(** [world0] with an output of an earlier run in [/out]. *)
Definition world_old : World :=
  set_fs (fun m => <[["out"; "stats"; "part"] := File [record_of "old"]]>
                     (<[["out"; "stats"] := Dir]> (<[["out"] := Dir]> m))) world0.


(** The parent of this path is the input file itself. *)
Definition beside_input_file : string := "/data/in.tfrecord/stats".

Definition after_bare : World :=
  (validate_tfexamples_in_tfrecord "/data/in.tfrecord" Reference.options_a
     (Some "stats") None Reference.world0).2.

Definition after_beside : World :=
  (validate_tfexamples_in_tfrecord "/data/in.tfrecord" Reference.options_a
     (Some beside_input_file) None Reference.world0).2.

(** [world0] where every random choice of [tempfile] is the same. *)
Definition world_repeating : World :=
  {| fs := fs world0; tempdir := tempdir world0; rng := fun _ => 0;
     rng_pos := 0; uuid_rng := uuid_rng world0; uuid_pos := 0; calls := [] |}.

Definition after_repeating : World :=
  (validate_tfexamples_in_tfrecord "/data/in.tfrecord" Reference.options_ab
     None None world_repeating).2.

(** ... and the world after that call once its temporary directory was
    removed. *)
Definition after_cleaning : World :=
  set_fs (delete_tree ["tmp"; "tmpaaaaaaaa"]) after_repeating.

Definition after_cleaning_and_call : World :=
  (validate_tfexamples_in_tfrecord "/data/in.tfrecord" Reference.options_ab
     None None after_cleaning).2.

End Cases.


(** ** Paths *)

Example join_plain : Path.join "/tmp/tmpab" "f.txt" = "/tmp/tmpab/f.txt".
Proof. reflexivity. Qed.

Example join_trailing : Path.join "/tmp/" "f.txt" = "/tmp/f.txt".
Proof. reflexivity. Qed.

Example join_absolute : Path.join "/tmp" "/f.txt" = "/f.txt".
Proof. reflexivity. Qed.

Example dirname_nested : Path.dirname "/a/b/c.txt" = "/a/b".
Proof. reflexivity. Qed.

Example dirname_bare : Path.dirname "c.txt" = "".
Proof. reflexivity. Qed.

Example dirname_root : Path.dirname "/c.txt" = "/".
Proof. reflexivity. Qed.

Example dirname_double : Path.dirname "a//c.txt" = "a".
Proof. reflexivity. Qed.

Example dirname_slashes : Path.dirname "//" = "//".
Proof. reflexivity. Qed.

Example basename_nested : Path.basename "/a/b/c.txt" = "c.txt".
Proof. reflexivity. Qed.

Lemma app_nil_l_string (b : string) : "" +:+ b = b.
Proof. reflexivity. Qed.

Lemma app_cons_string (c : ascii) (a b : string) :
  String c a +:+ b = String c (a +:+ b).
Proof. reflexivity. Qed.

Lemma length_app_string (a b : string) :
  String.length (a +:+ b) = String.length a + String.length b.
Proof.
  induction a as [|c a IH]; [reflexivity|].
  rewrite app_cons_string. simpl. by rewrite IH.
Qed.

(** Appending cancels on the right. *)
Lemma app_inv_tail_string (a b s : string) : a +:+ s = b +:+ s -> a = b.
Proof.
  revert b. induction a as [|c a IH]; intros [|d b] Heq.
  - reflexivity.
  - apply (f_equal String.length) in Heq.
    rewrite app_nil_l_string, app_cons_string in Heq. simpl in Heq.
    rewrite length_app_string in Heq. lia.
  - apply (f_equal String.length) in Heq.
    rewrite app_nil_l_string, app_cons_string in Heq. simpl in Heq.
    rewrite length_app_string in Heq. lia.
  - rewrite !app_cons_string in Heq. injection Heq as -> Heq.
    f_equal. by apply IH.
Qed.

Lemma has_sep_app (a b : string) :
  Path.has_sep (a +:+ b) = Path.has_sep a || Path.has_sep b.
Proof.
  induction a as [|c a IH]; [reflexivity|].
  rewrite app_cons_string. simpl. rewrite IH. by rewrite orb_assoc.
Qed.

Lemma ends_with_sep_has_sep (a : string) :
  Path.ends_with_sep a = true -> Path.has_sep a = true.
Proof.
  induction a as [|c a IH]; [done|].
  simpl. destruct a as [|d a].
  - intros ->. reflexivity.
  - intros Hend. rewrite (IH Hend). apply orb_true_r.
Qed.

Lemma basename_no_sep (b : string) : Path.has_sep b = false -> Path.basename b = b.
Proof.
  destruct b as [|c b]; [done|].
  simpl. intros [Hc Hb]%orb_false_elim. by rewrite Hb, Hc.
Qed.

Lemma basename_app_sep (a b : string) :
  Path.has_sep b = false -> Path.basename (a +:+ String Path.sep b) = b.
Proof.
  intros Hb. induction a as [|c a IH].
  - rewrite app_nil_l_string. simpl. by rewrite Hb.
  - rewrite app_cons_string. simpl. rewrite has_sep_app. simpl.
    by rewrite orb_true_r.
Qed.

Lemma basename_app_ends (a b : string) :
  Path.ends_with_sep a = true -> Path.has_sep b = false ->
  Path.basename (a +:+ b) = b.
Proof.
  intros Ha Hb. induction a as [|c a IH]; [done|].
  rewrite app_cons_string. simpl. destruct a as [|d a].
  - rewrite app_nil_l_string, Hb. simpl in Ha. by rewrite Ha.
  - rewrite has_sep_app, (ends_with_sep_has_sep (String d a)) by exact Ha.
    simpl. by apply IH.
Qed.

Lemma starts_no_sep (b : string) : Path.has_sep b = false -> Path.starts_with_sep b = false.
Proof. destruct b as [|c b]; [done|]. simpl. by intros [-> _]%orb_false_elim. Qed.

(** Joining a plain file name onto any directory keeps it as the last
    component. *)
Lemma basename_join (a b : string) :
  Path.has_sep b = false -> Path.basename (Path.join a b) = b.
Proof.
  intros Hb. unfold Path.join. rewrite (starts_no_sep b Hb).
  case_bool_decide as Ha; simpl.
  - subst a. rewrite app_nil_l_string. by apply basename_no_sep.
  - destruct (Path.ends_with_sep a) eqn:Hend.
    + by apply basename_app_ends.
    + by apply basename_app_sep.
Qed.

Lemma ends_with_sep_app (a b : string) :
  b <> "" -> Path.ends_with_sep (a +:+ b) = Path.ends_with_sep b.
Proof.
  intros Hb. induction a as [|c a IH]; [reflexivity|].
  rewrite app_cons_string. simpl. rewrite IH.
  destruct (a +:+ b) eqn:Hab; [|reflexivity].
  destruct a; [|discriminate]. rewrite app_nil_l_string in Hab. done.
Qed.

Lemma join_plain_dir (a b : string) :
  plain_dir a -> Path.starts_with_sep b = false ->
  Path.join a b = a +:+ String Path.sep b.
Proof.
  intros [Ha He] Hb. unfold Path.join. rewrite Hb, He.
  by rewrite bool_decide_eq_false_2.
Qed.

Lemma join_plain_inj (a a' b : string) :
  plain_dir a -> plain_dir a' -> Path.starts_with_sep b = false ->
  Path.join a b = Path.join a' b -> a = a'.
Proof.
  intros Ha Ha' Hb. rewrite !join_plain_dir by done. apply app_inv_tail_string.
Qed.

Lemma head_of_app_sep (a b : string) :
  Path.has_sep b = false ->
  Path.head_of (a +:+ String Path.sep b) = a +:+ String Path.sep "".
Proof.
  intros Hb. induction a as [|c a IH].
  - rewrite !app_nil_l_string. simpl. by rewrite Hb.
  - rewrite !app_cons_string. simpl. rewrite has_sep_app. simpl.
    by rewrite orb_true_r, IH.
Qed.

Lemma rstrip_sep_app_sep (a : string) :
  Path.rstrip_sep (a +:+ String Path.sep "") = Path.rstrip_sep a.
Proof.
  induction a as [|c a IH]; [reflexivity|].
  rewrite app_cons_string. simpl. by rewrite IH.
Qed.

Lemma rstrip_sep_id (a : string) :
  Path.ends_with_sep a = false -> Path.rstrip_sep a = a.
Proof.
  induction a as [|c a IH]; [done|].
  simpl. destruct a as [|d a].
  - intros ->. reflexivity.
  - intros He. by rewrite (IH He).
Qed.

(** The parent of a plain file name joined onto a plain directory is that
    directory. *)
Lemma dirname_join (a b : string) :
  plain_dir a -> Path.has_sep b = false ->
  Path.dirname (Path.join a b) = a.
Proof.
  intros Ha Hb. rewrite join_plain_dir by auto using starts_no_sep.
  destruct Ha as [Ha He]. unfold Path.dirname.
  rewrite head_of_app_sep, rstrip_sep_app_sep, rstrip_sep_id by done.
  by destruct a.
Qed.

Lemma join_nonempty (a b : string) : b <> "" -> Path.join a b <> "".
Proof.
  intros Hb. unfold Path.join. repeat case_match; try done.
  - destruct a; [by rewrite app_nil_l_string|by rewrite app_cons_string].
  - destruct a; [by rewrite app_nil_l_string|by rewrite app_cons_string].
Qed.

Lemma join_ends_with_sep (a b : string) :
  b <> "" -> Path.ends_with_sep (Path.join a b) = Path.ends_with_sep b.
Proof.
  intros Hb. unfold Path.join. repeat case_match; try done.
  - by apply ends_with_sep_app.
  - rewrite ends_with_sep_app by done.
    destruct b; [done|reflexivity].
Qed.

Lemma head_of_shorter (p : string) :
  Path.head_of p = p \/ String.length (Path.head_of p) < String.length p.
Proof.
  induction p as [|c p IH]; [by left|].
  simpl. destruct (Path.has_sep p).
  - destruct IH as [-> | IH]; [by left|right; simpl; lia].
  - destruct (Path.is_sep c).
    + destruct p; [by left|right; simpl; lia].
    + right. simpl. lia.
Qed.

Lemma rstrip_sep_shorter (s : string) :
  Path.rstrip_sep s = s \/ String.length (Path.rstrip_sep s) < String.length s.
Proof.
  induction s as [|c s IH]; [by left|].
  simpl. destruct (Path.rstrip_sep s) as [|d r] eqn:Hr.
  - destruct (Path.is_sep c).
    + right. simpl. lia.
    + destruct s; [by left|right; simpl; lia].
  - destruct IH as [<- | IH]; [by left|right; simpl in *; lia].
Qed.

(** A path is its own parent, or its parent is strictly shorter. *)
Lemma dirname_shorter (p : string) :
  Path.dirname p = p \/ String.length (Path.dirname p) < String.length p.
Proof.
  unfold Path.dirname.
  pose proof (head_of_shorter p) as Hh.
  pose proof (rstrip_sep_shorter (Path.head_of p)) as Hs.
  destruct (Path.rstrip_sep (Path.head_of p)) as [|c r] eqn:Hr.
  - exact Hh.
  - destruct Hs as [Hs | Hs], Hh as [Hh | Hh].
    + left. congruence.
    + right. rewrite Hs. exact Hh.
    + right. rewrite Hh in Hs. exact Hs.
    + right. lia.
Qed.

(** ** Lineage of a path *)

Lemma lineage_upto_head (fuel : nat) (p : string) :
  p <> "" -> 0 < fuel -> exists l, lineage_upto fuel p = p :: l.
Proof.
  intros Hp Hf. destruct fuel as [|fuel]; [lia|].
  simpl. rewrite bool_decide_eq_false_2 by done. eauto.
Qed.

Lemma lineage_head (p : string) : p <> "" -> p ∈ lineage p.
Proof.
  intros Hp. unfold lineage.
  destruct (lineage_upto_head (String.length p) p Hp) as [l ->].
  - destruct p; [done|simpl; lia].
  - left.
Qed.

Lemma lineage_empty : lineage "" = [].
Proof. reflexivity. Qed.

Lemma lineage_upto_closed (fuel : nat) (p q : string) :
  String.length p <= fuel ->
  q ∈ lineage_upto fuel p ->
  Path.dirname q = "" \/ Path.dirname q ∈ lineage_upto fuel p.
Proof.
  revert p. induction fuel as [|fuel IH]; intros p Hlen Hq.
  - simpl in Hq. by apply elem_of_nil in Hq.
  - simpl in *. case_bool_decide as Hp; [by apply elem_of_nil in Hq|].
    case_bool_decide as Hroot.
    + apply list_elem_of_singleton in Hq as ->. right. rewrite Hroot. left.
    + assert (String.length (Path.dirname p) <= fuel) as Hlen'.
      { destruct (dirname_shorter p) as [?|?]; [done|lia]. }
      apply elem_of_cons in Hq as [-> | Hq].
      * destruct (decide (Path.dirname p = "")) as [?|Hne]; [by left|].
        right. right.
        destruct (lineage_upto_head fuel (Path.dirname p) Hne) as [l ->]; [|left].
        destruct (Path.dirname p); [done|simpl in *; lia].
      * destruct (IH _ Hlen' Hq) as [?|?]; [by left|right; by right].
Qed.

(** The lineage holds every ancestor: it is closed under [dirname], up
    to the empty path. *)
Lemma lineage_closed (p q : string) :
  q ∈ lineage p -> Path.dirname q = "" \/ Path.dirname q ∈ lineage p.
Proof. apply lineage_upto_closed. done. Qed.

Lemma lineage_upto_nonempty (fuel : nat) (p q : string) :
  q ∈ lineage_upto fuel p -> q <> "".
Proof.
  revert p. induction fuel as [|fuel IH]; intros p Hq; simpl in Hq.
  - by apply elem_of_nil in Hq.
  - case_bool_decide as Hp; [by apply elem_of_nil in Hq|].
    apply elem_of_cons in Hq as [-> | Hq]; [done|].
    case_bool_decide; [by apply elem_of_nil in Hq|eauto].
Qed.

Example lineage_nested : lineage "/out/x" = ["/out/x"; "/out"; "/"].
Proof. reflexivity. Qed.

Example lineage_relative : lineage "out/x" = ["out/x"; "out"].
Proof. reflexivity. Qed.


(** ** Components and places *)

Lemma app_nil_r_string (a : string) : a +:+ "" = a.
Proof. induction a as [|c a IH]; [done|]. by rewrite app_cons_string, IH. Qed.

Lemma app_assoc_string (a b c : string) : (a +:+ b) +:+ c = a +:+ (b +:+ c).
Proof. induction a as [|x a IH]; [done|]. by rewrite !app_cons_string, IH. Qed.

Lemma components_nonempty (p : string) : Path.components p <> [].
Proof.
  destruct p as [|c p]; [done|]. simpl.
  destruct (Path.is_sep c); [done|]. by destruct (Path.components p).
Qed.

Lemma components_app_sep (a b : string) :
  Path.components (a +:+ String Path.sep b) = Path.components a ++ Path.components b.
Proof.
  induction a as [|c a IH].
  - rewrite app_nil_l_string. reflexivity.
  - rewrite app_cons_string. simpl. rewrite IH.
    destruct (Path.is_sep c); [done|].
    pose proof (components_nonempty a) as Hne.
    destruct (Path.components a) as [|h t]; [done|reflexivity].
Qed.

Lemma components_no_sep (b : string) :
  Path.has_sep b = false -> Path.components b = [b].
Proof.
  induction b as [|c b IH]; [done|].
  simpl. intros [Hc Hb]%orb_false_elim. rewrite Hc, (IH Hb). done.
Qed.

Lemma basename_has_sep (p : string) : Path.has_sep (Path.basename p) = false.
Proof.
  induction p as [|c p IH]; [done|].
  simpl. destruct (Path.has_sep p) eqn:Hp; [done|].
  destruct (Path.is_sep c) eqn:Hc; [done|]. simpl. by rewrite Hc, Hp.
Qed.

(** A path with a separator is what is before its last separator, the
    separator and its last component. *)
Lemma split_last_sep (p : string) :
  Path.has_sep p = true ->
  exists a, p = a +:+ String Path.sep (Path.basename p)
            /\ Path.head_of p = a +:+ String Path.sep "".
Proof.
  induction p as [|c p IH]; [done|].
  simpl. destruct (Path.has_sep p) eqn:Hp.
  - intros _. destruct (IH eq_refl) as (a & Hpa & Hh).
    exists (String c a). rewrite !app_cons_string, <- Hpa, <- Hh. done.
  - rewrite orb_false_r. intros Hc. rewrite Hc.
    exists "". rewrite !app_nil_l_string.
    unfold Path.is_sep in Hc. apply bool_decide_eq_true in Hc. by subst c.
Qed.

Lemma seps_snoc (n : nat) : seps n +:+ String Path.sep "" = seps (S n).
Proof.
  induction n as [|n IH]; [done|].
  simpl. rewrite app_cons_string. simpl in IH. by rewrite IH.
Qed.

Lemma rstrip_sep_seps (s : string) : exists n, s = Path.rstrip_sep s +:+ seps n.
Proof.
  induction s as [|c s (n & IH)]; [by exists 0|].
  simpl. destruct (Path.rstrip_sep s) as [|d r] eqn:Hr.
  - rewrite app_nil_l_string in IH. destruct (Path.is_sep c) eqn:Hc.
    + exists (S n). rewrite app_nil_l_string. simpl.
      unfold Path.is_sep in Hc. apply bool_decide_eq_true in Hc. by subst.
    + exists n. rewrite app_cons_string, app_nil_l_string. by rewrite <- IH.
  - exists n. rewrite app_cons_string. by rewrite <- IH.
Qed.

Lemma rstrip_sep_not_ends (s : string) :
  Path.ends_with_sep (Path.rstrip_sep s) = false.
Proof.
  induction s as [|c s IH]; [done|].
  simpl. destruct (Path.rstrip_sep s) as [|d r] eqn:Hr.
  - destruct (Path.is_sep c) eqn:Hc; [done|]. simpl. exact Hc.
  - exact IH.
Qed.

Lemma ends_with_sep_seps (n : nat) : Path.ends_with_sep (seps (S n)) = true.
Proof. induction n as [|n IH]; [done|]. exact IH. Qed.

Lemma components_seps (n : nat) : Path.components (seps n) = replicate (S n) "".
Proof. induction n as [|n IH]; [done|]. simpl. by rewrite IH. Qed.

Lemma components_app_seps (s : string) (n : nat) :
  Path.components (s +:+ seps n) = Path.components s ++ replicate n "".
Proof.
  destruct n as [|n].
  - simpl. by rewrite app_nil_r_string, app_nil_r.
  - simpl. by rewrite components_app_sep, components_seps.
Qed.

Lemma step_empty (k : list string) : Path.step k "" = k.
Proof. reflexivity. Qed.

Lemma walk_empties (k : list string) (n : nat) :
  foldl Path.step k (replicate n "") = k.
Proof. induction n as [|n IH]; [done|]. simpl. exact IH. Qed.

Lemma trail_empties (k : list string) (n : nat) :
  Path.trail k (replicate n "") = replicate n k.
Proof.
  induction n as [|n IH]; [done|].
  cbn [Path.trail replicate]. change (Path.step k "") with k. by rewrite IH.
Qed.

Lemma trail_app (k : list string) (l1 l2 : list string) :
  Path.trail k (l1 ++ l2) = Path.trail k l1 ++ Path.trail (foldl Path.step k l1) l2.
Proof.
  revert k. induction l1 as [|c l1 IH]; intros k; [done|].
  simpl. by rewrite IH.
Qed.

Lemma resolve_seps (n : nat) : Path.resolve (seps n) = [].
Proof. unfold Path.resolve. rewrite components_seps. apply walk_empties. Qed.

Lemma passed_seps (n : nat) (k : list string) : k ∈ Path.passed (seps n) <-> k = [].
Proof.
  unfold Path.passed. rewrite components_seps, trail_empties.
  rewrite elem_of_replicate. split; [by intros [? _]|intros ->; split; [done|lia]].
Qed.

Lemma dirname_no_sep (p : string) : Path.has_sep p = false -> Path.dirname p = "".
Proof.
  intros Hp. unfold Path.dirname.
  assert (Path.head_of p = "") as ->; [|done].
  destruct p as [|c p]; [done|].
  simpl in *. apply orb_false_elim in Hp as [-> ->]. done.
Qed.

Lemma resolve_no_sep (p : string) :
  Path.has_sep p = false -> Path.resolve p = Path.step [] p.
Proof. intros Hp. unfold Path.resolve. by rewrite components_no_sep. Qed.

Lemma passed_no_sep (p : string) :
  Path.has_sep p = false -> Path.passed p = [[]].
Proof. intros Hp. unfold Path.passed. by rewrite components_no_sep. Qed.

(** The place of a path is one step from the place of its parent, and
    the way to it is the way to the parent and the parent. *)
Lemma resolve_split (p : string) :
  Path.has_sep p = true ->
  Path.resolve p = Path.step (Path.resolve (Path.dirname p)) (Path.basename p)
  /\ forall k, k ∈ Path.passed p
               <-> k ∈ Path.passed (Path.dirname p) \/ k = Path.resolve (Path.dirname p).
Proof.
  intros Hp. destruct (split_last_sep p Hp) as (a & Hpa & Hh).
  pose proof (basename_has_sep p) as Hb.
  destruct (rstrip_sep_seps a) as (n & Ha).
  assert (Path.dirname p = if bool_decide (Path.rstrip_sep a = "")
                           then seps (S n) else Path.rstrip_sep a) as Hd.
  { unfold Path.dirname. rewrite Hh, rstrip_sep_app_sep. case_bool_decide as Hr.
    - rewrite Hr in Ha |- *. rewrite app_nil_l_string in Ha. subst a.
      by rewrite seps_snoc.
    - by destruct (Path.rstrip_sep a). }
  revert Ha Hd. generalize (Path.rstrip_sep a). intros s Ha Hd.
  assert (Path.components p
          = Path.components s ++ replicate n "" ++ [Path.basename p]) as Hc.
  { rewrite Hpa at 1. rewrite components_app_sep, Ha, components_app_seps.
    by rewrite <- app_assoc, (components_no_sep _ Hb). }
  rewrite Hd. unfold Path.resolve, Path.passed. rewrite Hc.
  rewrite !foldl_app, !trail_app, ?foldl_app, ?walk_empties, ?trail_empties.
  case_bool_decide as Hs.
  - subst s. rewrite components_seps, walk_empties, trail_empties.
    split; [done|]. intros k. simpl.
    rewrite elem_of_cons, !elem_of_app, !elem_of_cons, !elem_of_replicate.
    rewrite elem_of_nil. intuition (subst; eauto).
  - split; [done|]. intros k. simpl.
    rewrite !elem_of_app, elem_of_replicate, list_elem_of_singleton.
    intuition (subst; eauto).
Qed.

Lemma ends_with_sep_split (a : string) :
  Path.ends_with_sep a = true -> exists a', a = a' +:+ String Path.sep "".
Proof.
  induction a as [|c a IH]; [done|].
  simpl. destruct a as [|d a].
  - intros Hc. exists "". unfold Path.is_sep in Hc.
    apply bool_decide_eq_true in Hc. by subst.
  - intros He. destruct (IH He) as (a' & ->). by exists (String c a').
Qed.

(** Joining a name onto a directory goes one step from the place of
    the directory. *)
Lemma resolve_join (a b : string) :
  Path.has_sep b = false ->
  Path.resolve (Path.join a b) = Path.step (Path.resolve a) b
  /\ forall k, k ∈ Path.passed (Path.join a b)
               <-> k ∈ Path.passed a \/ k = Path.resolve a.
Proof.
  intros Hb. unfold Path.join. rewrite (starts_no_sep b Hb).
  case_bool_decide as Ha; simpl.
  { subst a. rewrite app_nil_l_string, (resolve_no_sep b Hb), (passed_no_sep b Hb).
    split; [done|]. intros k. unfold Path.passed. simpl.
    rewrite !list_elem_of_singleton. intuition (subst; eauto). }
  destruct (Path.ends_with_sep a) eqn:He.
  - destruct (ends_with_sep_split a He) as (a' & ->).
    rewrite app_assoc_string, app_cons_string, app_nil_l_string.
    unfold Path.resolve, Path.passed.
    rewrite !components_app_sep, (components_no_sep b Hb). simpl.
    rewrite !foldl_app, !trail_app. simpl. split; [done|].
    intros k. rewrite !elem_of_app, !list_elem_of_singleton. intuition (subst; eauto).
  - unfold Path.resolve, Path.passed.
    rewrite components_app_sep, (components_no_sep b Hb).
    rewrite foldl_app, trail_app. simpl. split; [done|].
    intros k. rewrite elem_of_app, list_elem_of_singleton. intuition (subst; eauto).
Qed.

Lemma head_of_nonempty (p : string) : Path.has_sep p = true -> Path.head_of p <> "".
Proof.
  intros Hp. destruct (split_last_sep p Hp) as (a & _ & ->).
  destruct a; [by rewrite app_nil_l_string|by rewrite app_cons_string].
Qed.

Lemma dirname_nonempty (p : string) : Path.has_sep p = true -> Path.dirname p <> "".
Proof.
  intros Hp. unfold Path.dirname.
  pose proof (head_of_nonempty p Hp).
  by destruct (Path.rstrip_sep (Path.head_of p)).
Qed.

(** A parent is empty, made of separators only, or plain. *)
Lemma dirname_shape (p : string) :
  Path.dirname p = ""
  \/ (exists n, Path.dirname p = seps (S n))
  \/ plain_dir (Path.dirname p).
Proof.
  unfold Path.dirname.
  destruct (rstrip_sep_seps (Path.head_of p)) as (n & Hn).
  pose proof (rstrip_sep_not_ends (Path.head_of p)) as He.
  destruct (Path.rstrip_sep (Path.head_of p)) as [|c r] eqn:Hr.
  - rewrite app_nil_l_string in Hn. rewrite Hn.
    destruct n as [|n]; [by left|right; left; by exists n].
  - right. right. by split.
Qed.

Lemma head_of_app_ends (a b : string) :
  Path.ends_with_sep a = true -> Path.has_sep b = false ->
  Path.head_of (a +:+ b) = a.
Proof.
  intros He Hb. destruct (ends_with_sep_split a He) as (a' & ->).
  rewrite app_assoc_string, app_cons_string, app_nil_l_string.
  by apply head_of_app_sep.
Qed.

Lemma rstrip_sep_of_seps (n : nat) : Path.rstrip_sep (seps n) = "".
Proof. induction n as [|n IH]; [done|]. simpl. by rewrite IH. Qed.

(** The parent of a name joined onto a parent is that parent. *)
Lemma dirname_join_dirname (p b : string) :
  Path.has_sep b = false ->
  Path.dirname (Path.join (Path.dirname p) b) = Path.dirname p.
Proof.
  intros Hb. destruct (dirname_shape p) as [-> | [(n & ->) | Hplain]].
  - unfold Path.join. rewrite (starts_no_sep b Hb). simpl.
    rewrite app_nil_l_string. by apply dirname_no_sep.
  - unfold Path.join. rewrite (starts_no_sep b Hb), ends_with_sep_seps, orb_true_r.
    unfold Path.dirname. rewrite head_of_app_ends by auto using ends_with_sep_seps.
    by rewrite rstrip_sep_of_seps.
  - by apply dirname_join.
Qed.

(** ** Walking into a subtree *)

Lemma prefix_snoc_cases (kt l : list string) (c : string) :
  kt `prefix_of` l ++ [c] -> kt `prefix_of` l \/ kt = l ++ [c].
Proof.
  intros [r Hr]. destruct r as [|x r _] using rev_ind.
  - right. by rewrite app_nil_r in Hr.
  - left. rewrite app_assoc in Hr. apply app_inj_tail in Hr as [-> _].
    by apply prefix_app_r.
Qed.

Lemma removelast_prefix (l : list string) : removelast l `prefix_of` l.
Proof.
  destruct l as [|x l _] using rev_ind; [done|].
  rewrite removelast_last. by apply prefix_app_r.
Qed.

Lemma step_into (kt k : list string) (c : string) :
  ~ kt `prefix_of` k -> kt `prefix_of` Path.step k c -> kt = Path.step k c.
Proof.
  unfold Path.step. intros Hk Hs.
  destruct (bool_decide (c = "") || bool_decide (c = ".")); [done|].
  destruct (bool_decide (c = "..")).
  - exfalso. apply Hk. etrans; [exact Hs|apply removelast_prefix].
  - by destruct (prefix_snoc_cases _ _ _ Hs).
Qed.

Lemma trail_first (k : list string) (cs : list string) :
  k ∈ Path.trail k cs ++ [foldl Path.step k cs].
Proof. destruct cs; simpl; left. Qed.

(** A walk that starts outside a subtree and comes to a place in it
    comes to the top of the subtree. *)
Lemma walk_enters_at_top (kt : list string) (cs : list string) (k : list string) :
  ~ kt `prefix_of` k ->
  (exists x, x ∈ Path.trail k cs ++ [foldl Path.step k cs] /\ kt `prefix_of` x) ->
  kt ∈ Path.trail k cs ++ [foldl Path.step k cs].
Proof.
  revert k. induction cs as [|c cs IH]; intros k Hk (x & Hx & Hpre).
  - simpl in Hx. apply list_elem_of_singleton in Hx as ->. done.
  - simpl in *. apply elem_of_cons in Hx as [-> | Hx]; [done|]. right.
    destruct (decide (kt `prefix_of` Path.step k c)) as [Hs|Hs].
    + rewrite (step_into kt k c Hk Hs). apply trail_first.
    + apply IH; eauto.
Qed.

Lemma path_enters_at_top (kt : list string) (p : string) :
  kt <> [] ->
  (exists x, (x ∈ Path.passed p \/ x = Path.resolve p) /\ kt `prefix_of` x) ->
  kt ∈ Path.passed p \/ kt = Path.resolve p.
Proof.
  intros Hne (x & Hx & Hpre).
  assert (kt ∈ Path.trail [] (Path.components p)
               ++ [foldl Path.step [] (Path.components p)]) as Hin.
  { apply walk_enters_at_top.
    - intros Hn. apply prefix_nil_inv in Hn. done.
    - exists x. split; [|done]. rewrite elem_of_app, list_elem_of_singleton. done. }
  rewrite elem_of_app, list_elem_of_singleton in Hin. done.
Qed.

(** ** The file system *)

Lemma find_none_iff {A} (f : A -> bool) (l : list A) :
  List.find f l = None <-> forall x, x ∈ l -> f x = false.
Proof.
  induction l as [|y l IH]; simpl.
  - split; [|done]. intros _ x Hx. by apply elem_of_nil in Hx.
  - destruct (f y) eqn:Hy.
    + split; [done|]. intros Hall. rewrite Hall in Hy; [done|left].
    + rewrite IH. split.
      * intros Hall x [->|Hx]%elem_of_cons; auto.
      * intros Hall x Hx. apply Hall. by right.
Qed.

Lemma find_some_elem {A} (f : A -> bool) (l : list A) (x : A) :
  List.find f l = Some x -> x ∈ l /\ f x = true.
Proof.
  intros Hf. apply find_some in Hf as [Hin Hx]. split; [|done].
  by apply list_elem_of_In.
Qed.

Lemma find_agree {A} (f g : A -> bool) (l : list A) :
  (forall x, x ∈ l -> f x = g x) -> List.find f l = List.find g l.
Proof.
  induction l as [|y l IH]; intros Hfg; [done|].
  simpl. rewrite (Hfg y) by left. rewrite IH; [done|].
  intros x Hx. apply Hfg. by right.
Qed.

Lemma node_lookup (m : gmap (list string) Node) (k : list string) :
  k <> [] -> node m k = m !! k.
Proof. by destruct k. Qed.

Lemma node_none (m : gmap (list string) Node) (k : list string) :
  node m k = None -> k <> [] /\ m !! k = None.
Proof. by destruct k. Qed.

Lemma node_insert (m : gmap (list string) Node) (k k' : list string) (n : Node) :
  k <> [] ->
  node (<[k := n]> m) k' = if decide (k' = k) then Some n else node m k'.
Proof.
  intros Hk. destruct (decide (k' = k)) as [->|Hne].
  - rewrite node_lookup by done. apply lookup_insert_eq.
  - destruct k' as [|c k']; [done|].
    rewrite !node_lookup by done. by rewrite lookup_insert_ne.
Qed.

Lemma node_delete (m : gmap (list string) Node) (k k' : list string) :
  k' <> k -> node (delete k m) k' = node m k'.
Proof.
  intros Hne. destruct k' as [|c k']; [done|].
  rewrite !node_lookup by done. by rewrite lookup_delete_ne.
Qed.

Lemma node_make_dirs (ks : list (list string)) (m : gmap (list string) Node) (k : list string) :
  node (make_dirs ks m) k = if decide (k ∈ ks) then Some Dir else node m k.
Proof.
  unfold make_dirs. induction ks as [|k0 ks IH]; cbn [foldr].
  - rewrite decide_False; [done|]. apply not_elem_of_nil.
  - destruct k0 as [|c k0]; simpl.
    + rewrite IH. destruct (decide (k ∈ ks)) as [Hin|Hnin].
      * rewrite decide_True; [done|by right].
      * destruct (decide (k = [])) as [->|Hne].
        -- rewrite decide_True; [done|left].
        -- rewrite decide_False; [done|]. by intros [?|?]%elem_of_cons.
    + rewrite node_insert by done. destruct (decide (k = c :: k0)) as [->|Hne].
      * rewrite decide_True; [done|left].
      * rewrite IH. destruct (decide (k ∈ ks)) as [Hin|Hnin].
        -- rewrite decide_True; [done|by right].
        -- rewrite decide_False; [done|]. by intros [?|?]%elem_of_cons.
Qed.

Lemma lookup_make_dirs (ks : list (list string)) (m : gmap (list string) Node) (k : list string) :
  make_dirs ks m !! k = if decide (k ∈ ks /\ k <> []) then Some Dir else m !! k.
Proof.
  destruct (decide (k = [])) as [->|Hne].
  - rewrite decide_False by tauto.
    unfold make_dirs. induction ks as [|k0 ks IH]; cbn [foldr]; [done|].
    destruct k0 as [|c k0]; simpl; [done|]. by rewrite lookup_insert_ne.
  - rewrite <- !node_lookup by done. rewrite node_make_dirs.
    destruct (decide (k ∈ ks)).
    + rewrite decide_True; done.
    + rewrite decide_False; tauto.
Qed.

Lemma lookup_delete_tree (k : list string) (m : gmap (list string) Node) (k' : list string) :
  delete_tree k m !! k' = if decide (k `prefix_of` k') then None else m !! k'.
Proof.
  unfold delete_tree. destruct (decide (k `prefix_of` k')) as [Hp|Hp].
  - apply map_lookup_filter_None. right. intros n _. simpl. tauto.
  - destruct (m !! k') as [n|] eqn:Hm.
    + apply map_lookup_filter_Some. done.
    + apply map_lookup_filter_None. by left.
Qed.

Lemma lookup_files_of (m : gmap (list string) Node) (k : list string) :
  files_of m !! k = match m !! k with
                    | Some (File records) => Some records
                    | _ => None
                    end.
Proof.
  unfold files_of. rewrite lookup_omap. by destruct (m !! k) as [[|r]|].
Qed.

(** Adding or removing directories leaves the regular files alone. *)
Lemma files_of_agree (m m' : gmap (list string) Node) :
  (forall k r, m' !! k = Some (File r) <-> m !! k = Some (File r)) ->
  files_of m' = files_of m.
Proof.
  intros Hag. apply map_eq. intros k. rewrite !lookup_files_of.
  destruct (m' !! k) as [[|r']|] eqn:H1, (m !! k) as [[|r]|] eqn:H2; try done.
  - apply Hag in H2. congruence.
  - apply Hag in H1. congruence.
  - apply Hag in H1. congruence.
  - apply Hag in H1. congruence.
  - apply Hag in H2. congruence.
Qed.

(** *** What a path names *)

Lemma status_reachable (m : gmap (list string) Node) (p : string) :
  reachable m p ->
  status m p = match node m (Path.resolve p) with
               | Some n => Present (Path.resolve p) n
               | None => Absent (Path.resolve p)
               end.
Proof.
  intros [Hp Hall]. unfold status. rewrite bool_decide_eq_false_2 by done.
  assert (List.find (fun k => negb (dir_at m k)) (Path.passed p) = None) as ->; [|done].
  apply find_none_iff. intros k Hk. by rewrite (Hall k Hk).
Qed.

Lemma status_unreachable (m : gmap (list string) Node) (p : string) :
  ~ reachable m p -> status m p = NotDirectory \/ status m p = NoEntry.
Proof.
  intros Hn. unfold status. case_bool_decide as Hp; [by right|].
  destruct (List.find _ _) as [k|] eqn:Hf.
  - destruct (node m k); [by left|by right].
  - exfalso. apply Hn. split; [done|]. intros k Hk.
    rewrite find_none_iff in Hf. apply Hf in Hk. by destruct (dir_at m k).
Qed.

Lemma reachable_dec (m : gmap (list string) Node) (p : string) :
  reachable m p \/ ~ reachable m p.
Proof.
  destruct (decide (p = "")) as [->|Hp]; [right; by intros [? _]|].
  destruct (List.find (fun k => negb (dir_at m k)) (Path.passed p)) as [k|] eqn:Hf.
  - right. intros [_ Hall]. apply find_some_elem in Hf as [Hk Hd].
    rewrite (Hall k Hk) in Hd. done.
  - left. split; [done|]. intros k Hk. rewrite find_none_iff in Hf.
    apply Hf in Hk. by destruct (dir_at m k).
Qed.

Lemma status_present (m : gmap (list string) Node) (p : string) (k : list string) (n : Node) :
  status m p = Present k n <->
  reachable m p /\ k = Path.resolve p /\ node m k = Some n.
Proof.
  split.
  - intros Hs. destruct (reachable_dec m p) as [Hr|Hr].
    + rewrite (status_reachable m p Hr) in Hs.
      destruct (node m (Path.resolve p)) eqn:Hn; simplify_eq. done.
    + destruct (status_unreachable m p Hr) as [Hu|Hu]; congruence.
  - intros (Hr & -> & Hn). by rewrite (status_reachable m p Hr), Hn.
Qed.

Lemma status_absent (m : gmap (list string) Node) (p : string) (k : list string) :
  status m p = Absent k <->
  reachable m p /\ k = Path.resolve p /\ node m k = None.
Proof.
  split.
  - intros Hs. destruct (reachable_dec m p) as [Hr|Hr].
    + rewrite (status_reachable m p Hr) in Hs.
      destruct (node m (Path.resolve p)) eqn:Hn; simplify_eq. done.
    + destruct (status_unreachable m p Hr) as [Hu|Hu]; congruence.
  - intros (Hr & -> & Hn). by rewrite (status_reachable m p Hr), Hn.
Qed.

(** What a path names depends on the places on its way only. *)
Lemma status_agree (m m' : gmap (list string) Node) (p : string) :
  (forall k, k ∈ Path.passed p \/ k = Path.resolve p -> node m' k = node m k) ->
  status m' p = status m p.
Proof.
  intros Hag. unfold status. case_bool_decide; [done|].
  rewrite (find_agree (fun k => negb (dir_at m' k)) (fun k => negb (dir_at m k))).
  - destruct (List.find _ _) as [k|] eqn:Hf.
    + apply find_some_elem in Hf as [Hk _]. by rewrite Hag by auto.
    + by rewrite Hag by auto.
  - intros k Hk. unfold dir_at. by rewrite Hag by auto.
Qed.

Lemma reachable_agree (m m' : gmap (list string) Node) (p : string) :
  (forall k, k ∈ Path.passed p -> dir_at m k = true -> dir_at m' k = true) ->
  reachable m p -> reachable m' p.
Proof. intros Hag [Hp Hall]. split; [done|]. auto. Qed.

Lemma reachable_no_sep (m : gmap (list string) Node) (p : string) :
  Path.has_sep p = false -> p <> "" -> reachable m p.
Proof.
  intros Hs Hp. split; [done|]. rewrite (passed_no_sep p Hs).
  intros k ->%list_elem_of_singleton. done.
Qed.

(** A path with a separator leads somewhere when its parent is a
    directory. *)
Lemma reachable_split (m : gmap (list string) Node) (p : string) :
  Path.has_sep p = true ->
  reachable m p <->
  reachable m (Path.dirname p) /\ dir_at m (Path.resolve (Path.dirname p)) = true.
Proof.
  intros Hs. destruct (resolve_split p Hs) as [_ Hpass].
  pose proof (dirname_nonempty p Hs) as Hd.
  unfold reachable. split.
  - intros [Hp Hall]. repeat split; [done| |].
    + intros k Hk. apply Hall, Hpass. by left.
    + apply Hall, Hpass. by right.
  - intros [[_ Hall] Hdir]. split; [by destruct p|].
    intros k [Hk| ->]%Hpass; auto.
Qed.

Lemma reachable_join (m : gmap (list string) Node) (a b : string) :
  Path.has_sep b = false -> b <> "" ->
  reachable m (Path.join a b) <->
  a = "" \/ (reachable m a /\ dir_at m (Path.resolve a) = true).
Proof.
  intros Hb Hne. destruct (resolve_join a b Hb) as [_ Hpass].
  pose proof (join_nonempty a b Hne) as Hj.
  unfold reachable. split.
  - intros [_ Hall]. destruct (decide (a = "")) as [?|Ha]; [by left|right].
    repeat split; [done| |].
    + intros k Hk. apply Hall, Hpass. by left.
    + apply Hall, Hpass. by right.
  - intros [-> | [[_ Hall] Hdir]]; (split; [done|]).
    + intros k [Hk| ->]%Hpass; [|done].
      unfold Path.passed in Hk. simpl in Hk.
      by apply list_elem_of_singleton in Hk as ->.
    + intros k [Hk| ->]%Hpass; auto.
Qed.

(** ** Lineage of a path, continued *)

Lemma dirname_fixed (q : string) :
  Path.dirname q = q -> q = "" \/ exists n, q = seps (S n).
Proof.
  intros Hq. destruct (dirname_shape q) as [Hd | [(n & Hd) | [Hne He]]].
  - left. congruence.
  - right. exists n. congruence.
  - exfalso. rewrite Hq in Hne, He.
    destruct (Path.has_sep q) eqn:Hs.
    + destruct (split_last_sep q Hs) as (a & _ & Hh).
      pose proof (rstrip_sep_shorter (Path.head_of q)) as Hr.
      pose proof (head_of_shorter q) as Hl.
      assert (Path.head_of q <> q) as Hhq.
      { intros Heq. rewrite Heq in Hh. rewrite Hh in He.
        rewrite ends_with_sep_app in He by done. done. }
      destruct Hl as [?|Hl]; [done|].
      unfold Path.dirname in Hq.
      destruct (Path.rstrip_sep (Path.head_of q)) as [|c r] eqn:Hrs.
      * done.
      * rewrite Hq in Hr. destruct Hr as [Hr|Hr]; [done|lia].
    + rewrite dirname_no_sep in Hq by done. done.
Qed.

Lemma lineage_upto_enough (fuel : nat) (p : string) :
  String.length p <= fuel -> lineage_upto fuel p = lineage p.
Proof.
  unfold lineage. remember (String.length p) as n eqn:Hn.
  revert fuel p Hn. induction n as [n IH] using lt_wf_ind. intros fuel p Hn Hle.
  destruct p as [|c p].
  { simpl in Hn. subst n. by destruct fuel. }
  simpl in Hn. subst n. destruct fuel as [|fuel]; [simpl in Hle; lia|].
  cbn [lineage_upto]. case_bool_decide; [done|]. f_equal.
  case_bool_decide as Hd; [done|].
  destruct (dirname_shorter (String c p)) as [?|Hl]; [done|]. simpl in Hl, Hle.
  rewrite (IH (String.length (Path.dirname (String c p)))) by (simpl; lia).
  symmetry. apply (IH (String.length (Path.dirname (String c p)))); simpl; lia.
Qed.

Lemma lineage_unfold (p : string) :
  lineage p = if bool_decide (p = "") then []
              else p :: (if bool_decide (Path.dirname p = p) then []
                         else lineage (Path.dirname p)).
Proof.
  destruct p as [|c p]; [done|].
  unfold lineage at 1. cbn [String.length lineage_upto].
  case_bool_decide; [done|]. f_equal. case_bool_decide as Hd; [done|].
  apply lineage_upto_enough.
  destruct (dirname_shorter (String c p)) as [?|Hl]; [done|]. simpl in Hl. lia.
Qed.

(** The lineage of a member of a lineage is part of it. *)
Lemma lineage_trans (p q x : string) :
  q ∈ lineage p -> x ∈ lineage q -> x ∈ lineage p.
Proof.
  remember (String.length p) as n eqn:Hn.
  revert p Hn. induction n as [n IH] using lt_wf_ind. intros p Hn Hq Hx.
  rewrite lineage_unfold in Hq. case_bool_decide as Hp; [by apply elem_of_nil in Hq|].
  apply elem_of_cons in Hq as [->|Hq]; [done|].
  case_bool_decide as Hd; [by apply elem_of_nil in Hq|].
  rewrite (lineage_unfold p), bool_decide_eq_false_2 by done. right.
  rewrite bool_decide_eq_false_2 by done.
  destruct (dirname_shorter p) as [?|Hl]; [done|].
  apply (IH (String.length (Path.dirname p))); [lia|done|done|done].
Qed.

Lemma reachable_seps (m : gmap (list string) Node) (n : nat) : reachable m (seps (S n)).
Proof. split; [done|]. by intros k ->%passed_seps. Qed.

(** A path whose ancestors are all directories leads somewhere. *)
Lemma reachable_lineage (m : gmap (list string) Node) (q : string) :
  q <> "" ->
  (forall x, x ∈ lineage q -> dir_at m (Path.resolve x) = true) ->
  reachable m q.
Proof.
  remember (String.length q) as n eqn:Hn.
  revert q Hn. induction n as [n IH] using lt_wf_ind. intros q Hn Hq Hall.
  destruct (Path.has_sep q) eqn:Hs; [|by apply reachable_no_sep].
  apply reachable_split; [done|].
  pose proof (dirname_nonempty q Hs) as Hd.
  destruct (dirname_shorter q) as [Heq|Hl].
  - destruct (dirname_fixed q Heq) as [?|(j & Hj)]; [done|].
    rewrite Heq, Hj. split; [apply reachable_seps|]. by rewrite resolve_seps.
  - assert (forall x, x ∈ lineage (Path.dirname q) -> x ∈ lineage q) as Hsub.
    { intros x Hx. rewrite (lineage_unfold q), bool_decide_eq_false_2 by done.
      right. rewrite bool_decide_eq_false_2; [done|]. intros Heq. rewrite Heq in Hl. lia. }
    split.
    + apply (IH (String.length (Path.dirname q))); auto. lia.
    + apply Hall, Hsub, lineage_head. done.
Qed.

(** After [make_dirs] over a lineage each of its members is a
    directory. *)
Lemma make_dirs_lineage (m : gmap (list string) Node) (d q : string) :
  q ∈ lineage d ->
  let m' := make_dirs (map Path.resolve (lineage d)) m in
  reachable m' q /\ node m' (Path.resolve q) = Some Dir.
Proof.
  intros Hq m'.
  assert (forall x, x ∈ lineage d -> node m' (Path.resolve x) = Some Dir) as Hnode.
  { intros x Hx. unfold m'. rewrite node_make_dirs, decide_True; [done|].
    apply list_elem_of_fmap. eauto. }
  split; [|auto]. apply reachable_lineage.
  - unfold lineage in Hq. by apply lineage_upto_nonempty in Hq.
  - intros x Hx. unfold dir_at. rewrite Hnode; [done|]. by eapply lineage_trans.
Qed.

Lemma strip_trailing_id (p : string) :
  Path.ends_with_sep p = false -> Path.strip_trailing p = p.
Proof.
  intros He. unfold Path.strip_trailing. rewrite rstrip_sep_id by done. by destruct p.
Qed.

Section Calls.

Context `{Opaque} `{!Collaborators}.

(** ** The library calls, one by one *)

Lemma lookup_path_some (w : World) (p : string) (n : Node) :
  lookup_path w p = Some n <->
  reachable (fs w) p /\ node (fs w) (Path.resolve p) = Some n.
Proof.
  unfold lookup_path. split.
  - destruct (status (fs w) p) as [k n'| | |] eqn:Hs; try done.
    intros [= ->]. apply status_present in Hs as (? & -> & ?). done.
  - intros [Hr Hn]. by rewrite (status_reachable _ _ Hr), Hn.
Qed.

Lemma lookup_path_fs (w w' : World) (p : string) :
  fs w' = fs w -> lookup_path w' p = lookup_path w p.
Proof. unfold lookup_path. by intros ->. Qed.

Lemma is_dir_true (w : World) (q : string) :
  is_dir w q = true <-> lookup_path w q = Some Dir.
Proof. unfold is_dir. by destruct (lookup_path w q) as [[|]|]. Qed.

Lemma is_file_fs (w w' : World) (p : string) :
  fs w' = fs w -> is_file w' p = is_file w p.
Proof. unfold is_file. intros Hfs. by rewrite (lookup_path_fs _ _ _ Hfs). Qed.

(** A directory stays where it is when a place that was free is
    filled. *)
Lemma reachable_insert (m : gmap (list string) Node) (k : list string) (n : Node)
    (p : string) :
  node m k = None -> reachable m p -> reachable (<[k := n]> m) p.
Proof.
  intros Hk. apply reachable_agree. intros k' _ Hd.
  apply node_none in Hk as [Hne Hk]. unfold dir_at in *.
  rewrite node_insert by done. destruct (decide (k' = k)) as [->|]; [|done].
  rewrite node_lookup, Hk in Hd by done. done.
Qed.

Lemma os_mkdir_spec (path : string) (w w' : World) (out : Outcome unit) :
  os_mkdir path w = (out, w') ->
  calls w' = calls w /\ rng_pos w' = rng_pos w /\ uuid_pos w' = uuid_pos w
  /\ rng w' = rng w /\ uuid_rng w' = uuid_rng w /\ tempdir w' = tempdir w
  /\ match out with
     | Return _ =>
         reachable (fs w) (Path.strip_trailing path)
         /\ node (fs w) (Path.resolve (Path.strip_trailing path)) = None
         /\ fs w' = <[Path.resolve (Path.strip_trailing path) := Dir]> (fs w)
     | Raise _ => fs w' = fs w
     end.
Proof.
  unfold os_mkdir. intros Hrun.
  destruct (status (fs w) (Path.strip_trailing path)) as [k n|k| |] eqn:Hs;
    simplify_eq; try done.
  apply status_absent in Hs as (? & -> & ?). done.
Qed.

Lemma choose_not_sep (r : nat) : Path.is_sep (choose r) = false.
Proof.
  assert (Forall (fun c => Path.is_sep c = false) characters) as Hall.
  { unfold characters. simpl. repeat constructor. }
  rewrite Forall_forall in Hall. apply Hall.
  unfold choose. apply list_elem_of_In, nth_In.
  change (length characters) with 37. apply Nat.mod_upper_bound. lia.
Qed.

Lemma ends_with_sep_chars (l : list ascii) :
  Forall (fun c => Path.is_sep c = false) l ->
  Path.ends_with_sep (string_of_list_ascii l) = false.
Proof.
  induction 1 as [|c l Hc Hl IH]; [done|].
  simpl. destruct (string_of_list_ascii l); [exact Hc|exact IH].
Qed.

Lemma has_sep_chars (l : list ascii) :
  Forall (fun c => Path.is_sep c = false) l ->
  Path.has_sep (string_of_list_ascii l) = false.
Proof. induction 1 as [|c l Hc Hl IH]; [done|]. simpl. by rewrite Hc, IH. Qed.

(** What [next_name] returns follows ["tmp"] into a plain directory
    name. *)
Lemma next_name_spec (w : World) :
  exists name,
    next_name w = (Return name, set_rng_pos (rng_pos w + 8) w)
    /\ name <> ""
    /\ Path.ends_with_sep ("tmp" +:+ name) = false
    /\ Path.has_sep ("tmp" +:+ name) = false.
Proof.
  eexists. split; [reflexivity|]. split; [done|].
  change ("tmp" +:+
    string_of_list_ascii (map (fun i => choose (rng w (rng_pos w + i))) (seq 0 8)))
    with (string_of_list_ascii
       ("t" :: "m" :: "p" :: map (fun i => choose (rng w (rng_pos w + i))) (seq 0 8))%char).
  split; [apply ends_with_sep_chars|apply has_sep_chars];
    repeat constructor; apply choose_not_sep.
Qed.

Lemma mkdtemp_candidate_plain (dir name : string) :
  name <> "" ->
  Path.ends_with_sep ("tmp" +:+ name) = false ->
  plain_dir (Path.join dir ("tmp" +:+ name)).
Proof.
  intros Hn He. split.
  - by apply join_nonempty.
  - rewrite join_ends_with_sep by done. exact He.
Qed.

(** [mkdtemp]'s loop: a returned directory did not exist, exists now, and
    is plain; nothing else changes in the file system; no call is
    logged. *)
Lemma mkdtemp_loop_spec (tries : nat) (w w' : World) (out : Outcome string) :
  mkdtemp_loop tries w = (out, w') ->
  calls w' = calls w /\ tempdir w' = tempdir w /\ rng w' = rng w
  /\ uuid_pos w' = uuid_pos w /\ uuid_rng w' = uuid_rng w
  /\ match out with
     | Return tmp =>
         plain_dir tmp
         /\ reachable (fs w) tmp
         /\ node (fs w) (Path.resolve tmp) = None
         /\ fs w' = <[Path.resolve tmp := Dir]> (fs w)
     | Raise _ => fs w' = fs w
     end.
Proof.
  revert w. induction tries as [|tries IH]; intros w Hrun.
  - simpl in Hrun. unfold raise in Hrun. by simplify_eq.
  - simpl in Hrun. unfold bind in Hrun.
    destruct (next_name_spec w) as (name & Hname & Hne & Hend & Hsep).
    rewrite Hname in Hrun.
    set (w1 := set_rng_pos (rng_pos w + 8) w) in *.
    set (file := Path.join (tempdir w1) ("tmp" +:+ name)) in *.
    pose proof (mkdtemp_candidate_plain (tempdir w1) name Hne Hend) as Hplain.
    fold file in Hplain.
    destruct (os_mkdir file w1) as [[[]|e] w2] eqn:Hmk.
    + apply os_mkdir_spec in Hmk as (? & ? & ? & ? & ? & ? & Hout).
      rewrite strip_trailing_id in Hout by apply (proj2 Hplain).
      simplify_eq. destruct Hout as (? & ? & ?). done.
    + apply os_mkdir_spec in Hmk as (Hc & ? & Hu & Hr & Hur & Ht & Hfs).
      destruct e; simplify_eq; try (repeat split; done).
      apply IH in Hrun as (Hc' & Ht' & Hr' & Hu' & Hur' & Hout).
      rewrite Hc', Ht', Hr', Hu', Hur', Hc, Ht, Hr, Hu, Hur.
      repeat split; try done.
      destruct out as [tmp|e]; rewrite Hfs in Hout; done.
Qed.

Lemma mkdtemp_spec (w w' : World) (out : Outcome string) :
  mkdtemp w = (out, w') ->
  calls w' = (calls w ++ [CallMkdtemp])%list
  /\ uuid_pos w' = uuid_pos w
  /\ match out with
     | Return tmp =>
         plain_dir tmp
         /\ reachable (fs w) tmp
         /\ node (fs w) (Path.resolve tmp) = None
         /\ fs w' = <[Path.resolve tmp := Dir]> (fs w)
     | Raise _ => fs w' = fs w
     end.
Proof.
  unfold mkdtemp, bind, log. intros Hrun.
  apply mkdtemp_loop_spec in Hrun as (Hc & _ & _ & Hu & _ & Hout). done.
Qed.

(** The statements before the [with] block, with a path supplied. *)
Lemma prepare_output_some (p : string) (w : World) :
  prepare_output (Some p) w =
    let d := Path.dirname p in
    let w1 := add_call (CallExists d) w in
    if bool_decide (is_Some (lookup_path w d)) then (Return p, w1)
    else
      let w2 := add_call (CallMakeDirs d) w1 in
      match List.find (is_file w) (lineage d) with
      | Some q => (Raise (FailedPreconditionError q), w2)
      | None => (Return p, set_fs (make_dirs (map Path.resolve (lineage d))) w2)
      end.
Proof.
  unfold prepare_output, bind, ret, gfile_Exists, gfile_MakeDirs, bind, log. simpl.
  change (lookup_path (add_call _ w)) with (lookup_path w).
  destruct (bool_decide (is_Some (lookup_path w (Path.dirname p)))); simpl; [done|].
  change (is_file (add_call _ (add_call _ w))) with (is_file w).
  by destruct (List.find (is_file w) (lineage (Path.dirname p))).
Qed.

(** ... and with none. *)
Lemma prepare_output_none (w : World) :
  prepare_output None w =
    match mkdtemp w with
    | (Return tmp, w1) =>
        prepare_output (Some (Path.join tmp "anomaly_stats.tfrecord")) w1
    | (Raise e, w1) => (Raise e, w1)
    end.
Proof.
  unfold prepare_output at 1. unfold bind at 1. unfold bind at 1.
  destruct (mkdtemp w) as [[tmp|e] w1]; reflexivity.
Qed.

Lemma new_calls_app (w w' : World) (l : list Call) :
  calls w' = (calls w ++ l)%list -> new_calls w w' = l.
Proof. unfold new_calls. intros ->. by rewrite drop_app_length. Qed.

(** Preparing a supplied path: the directory exists and nothing is done,
    or it is made with its ancestors, or making it fails on a regular
    file in the way. *)
Lemma prepare_supplied_spec (p : string) (w w1 : World) (r : Outcome string) :
  prepare_output (Some p) w = (r, w1) ->
  let d := Path.dirname p in
  rng_pos w1 = rng_pos w /\ uuid_pos w1 = uuid_pos w
  /\ ((is_Some (lookup_path w d) /\ r = Return p /\ fs w1 = fs w
       /\ calls w1 = (calls w ++ [CallExists d])%list)
      \/ (lookup_path w d = None /\ r = Return p
          /\ List.find (is_file w) (lineage d) = None
          /\ fs w1 = make_dirs (map Path.resolve (lineage d)) (fs w)
          /\ calls w1 = (calls w ++ [CallExists d; CallMakeDirs d])%list)
      \/ (lookup_path w d = None
          /\ (exists q, r = Raise (FailedPreconditionError q)
                        /\ List.find (is_file w) (lineage d) = Some q)
          /\ fs w1 = fs w
          /\ calls w1 = (calls w ++ [CallExists d; CallMakeDirs d])%list)).
Proof.
  rewrite prepare_output_some. cbv zeta. intros Hrun.
  case_bool_decide as Hd.
  - simplify_eq. split; [done|]. split; [done|]. left. done.
  - assert (lookup_path w (Path.dirname p) = None) as Hnone.
    { destruct (lookup_path w (Path.dirname p)) eqn:E; [|done]. exfalso. apply Hd. eauto. }
    destruct (List.find (is_file w) (lineage (Path.dirname p))) as [q|] eqn:Hfind;
      simplify_eq; (split; [done|]); (split; [done|]); right.
    + right. repeat split; eauto. simpl. by rewrite <- app_assoc.
    + left. repeat split; eauto. simpl. by rewrite <- app_assoc.
Qed.

(** Once its directory is prepared, the parent of a path is there. *)
Lemma prepare_supplied_ready (p : string) (w w1 : World) :
  prepare_output (Some p) w = (Return p, w1) -> parent_ready w1 p.
Proof.
  intros Hrun. apply prepare_supplied_spec in Hrun as (_ & _ & Hrun). cbv zeta in Hrun.
  destruct Hrun as [(Hs & _ & Hfs & _) | [(_ & _ & _ & Hfs & _) | (_ & (q & ? & _) & _)]];
    [| |done].
  - right. by rewrite (lookup_path_fs _ _ _ Hfs).
  - destruct (decide (Path.dirname p = "")) as [?|Hne]; [by left|right].
    destruct (make_dirs_lineage (fs w) (Path.dirname p) (Path.dirname p)
                (lineage_head _ Hne)) as [Hr Hn].
    exists Dir. apply lookup_path_some. rewrite Hfs. done.
Qed.

(** Preparing the default path: [mkdtemp] fails, or a new plain directory
    [tmp] is created and the path is [anomaly_stats.tfrecord] in it; the
    directory then exists, so it is not made again. *)
Lemma prepare_default_spec (w w1 : World) (r : Outcome string) :
  prepare_output None w = (r, w1) ->
  uuid_pos w1 = uuid_pos w
  /\ ((exists e, r = Raise e /\ fs w1 = fs w
                 /\ calls w1 = (calls w ++ [CallMkdtemp])%list)
      \/ (exists tmp, r = Return (Path.join tmp "anomaly_stats.tfrecord")
                      /\ plain_dir tmp
                      /\ reachable (fs w) tmp
                      /\ node (fs w) (Path.resolve tmp) = None
                      /\ fs w1 = <[Path.resolve tmp := Dir]> (fs w)
                      /\ calls w1 = (calls w ++ [CallMkdtemp; CallExists tmp])%list)).
Proof.
  rewrite prepare_output_none.
  destruct (mkdtemp w) as [[tmp|e] wm] eqn:Hmk; intros Hrun.
  - apply mkdtemp_spec in Hmk as (Hcalls & Hu & Hplain & Hreach & Hfresh & Hfs).
    apply prepare_supplied_spec in Hrun as (_ & Hu' & Hrun). cbv zeta in Hrun.
    rewrite dirname_join in Hrun by done.
    assert (lookup_path wm tmp = Some Dir) as Hdir.
    { apply lookup_path_some. rewrite Hfs. split.
      - by apply reachable_insert.
      - apply node_none in Hfresh as [Hne _]. rewrite node_insert by done.
        by rewrite decide_True. }
    split; [congruence|]. right. exists tmp.
    destruct Hrun as [(_ & -> & -> & ->) | [(Hn & _) | (Hn & _)]].
    + rewrite Hcalls, Hfs, <- app_assoc. done.
    + congruence.
    + congruence.
  - simplify_eq. apply mkdtemp_spec in Hmk as (Hcalls & Hu & Hfs). split; [done|].
    left. eauto.
Qed.

Lemma prepare_ready (output_path : option string) (p : string) (w w1 : World) :
  prepare_output output_path w = (Return p, w1) -> parent_ready w1 p.
Proof.
  destruct output_path as [p'|]; intros Hrun.
  - assert (p' = p) as ->.
    { apply prepare_supplied_spec in Hrun as (_ & _ & Hrun). cbv zeta in Hrun.
      destruct Hrun as [(_ & ? & _) | [(_ & ? & _) | (_ & (q & ? & _) & _)]];
        congruence. }
    by eapply prepare_supplied_ready.
  - rewrite prepare_output_none in Hrun.
    destruct (mkdtemp w) as [[tmp|e] wm] eqn:Hmk; [|done].
    assert (Path.join tmp "anomaly_stats.tfrecord" = p) as <-.
    { apply prepare_supplied_spec in Hrun as (_ & _ & Hrun). cbv zeta in Hrun.
      destruct Hrun as [(_ & ? & _) | [(_ & ? & _) | (_ & (q & ? & _) & _)]];
        congruence. }
    by eapply prepare_supplied_ready.
Qed.

End Calls.

(** ** The sink *)

Lemma step_plain (k : list string) (b : string) :
  plain_name b -> Path.step k b = k ++ [b].
Proof.
  intros (_ & H1 & H2 & H3). unfold Path.step.
  by rewrite !bool_decide_eq_false_2 by done.
Qed.

Lemma no_sep_not_ends (b : string) :
  Path.has_sep b = false -> Path.ends_with_sep b = false.
Proof.
  intros Hb. destruct (Path.ends_with_sep b) eqn:He; [|done].
  apply ends_with_sep_has_sep in He. congruence.
Qed.

Lemma hex_digit_plain (r : nat) :
  Path.is_sep (hex_digit r) = false /\ hex_digit r <> "."%char.
Proof.
  assert (Forall (fun c => Path.is_sep c = false /\ c <> "."%char) hex_digits) as Hall.
  { unfold hex_digits. simpl. repeat constructor; done. }
  rewrite Forall_forall in Hall. apply Hall.
  unfold hex_digit. apply list_elem_of_In, nth_In.
  change (length hex_digits) with 16. apply Nat.mod_upper_bound. lia.
Qed.

Section Sink.

Context `{Opaque} `{!Collaborators}.

Lemma draw_hex_spec (n : nat) (w : World) :
  exists s,
    draw_hex n w = (Return s, set_uuid_pos (uuid_pos w + n) w)
    /\ Path.has_sep s = false
    /\ (0 < n -> exists c rest, s = String c rest /\ c <> "."%char).
Proof.
  eexists. split; [reflexivity|]. split.
  - apply has_sep_chars. apply Forall_forall. intros c Hc.
    apply list_elem_of_In, in_map_iff in Hc as (i & <- & _). apply hex_digit_plain.
  - intros Hn. destruct n as [|n]; [lia|]. simpl.
    eexists _, _. split; [reflexivity|]. apply hex_digit_plain.
Qed.

Lemma uuid4_str_spec (w : World) :
  exists uid,
    uuid4_str w = (Return uid, set_uuid_pos (uuid_pos w + 32) w)
    /\ Path.has_sep uid = false
    /\ exists c rest, uid = String c rest /\ c <> "."%char.
Proof.
  unfold uuid4_str, bind, ret.
  destruct (draw_hex_spec 8 w) as (a & -> & Ha & Hfirst).
  destruct (draw_hex_spec 4 (set_uuid_pos (uuid_pos w + 8) w)) as (b & -> & Hb & _).
  destruct (draw_hex_spec 4 (set_uuid_pos
             (uuid_pos (set_uuid_pos (uuid_pos w + 8) w) + 4)
             (set_uuid_pos (uuid_pos w + 8) w))) as (c & -> & Hc & _).
  match goal with |- context [draw_hex 4 ?w'] =>
    destruct (draw_hex_spec 4 w') as (d & -> & Hd & _) end.
  match goal with |- context [draw_hex 12 ?w'] =>
    destruct (draw_hex_spec 12 w') as (e & -> & He & _) end.
  eexists. split.
  - f_equal. unfold set_uuid_pos. simpl. f_equal. lia.
  - split.
    + rewrite !has_sep_app. rewrite Ha, Hb, Hc, Hd, He. reflexivity.
    + destruct Hfirst as (x & rest & -> & Hx); [lia|].
      rewrite app_cons_string. eauto.
Qed.

Lemma beam_temp_name_plain (b u : string) :
  Path.has_sep b = false -> Path.has_sep u = false ->
  plain_name ("beam-temp-" +:+ b +:+ "-" +:+ u).
Proof.
  intros Hb Hu. split; [|done].
  rewrite !has_sep_app, Hb, Hu. reflexivity.
Qed.

(** The temporary directory of a sink is a plain directory one step
    below the parent of the final name. *)
Lemma beam_temp_dir_spec (p u : string) :
  Path.has_sep u = false ->
  plain_dir (beam_temp_dir p u)
  /\ Path.dirname (beam_temp_dir p u) = Path.dirname p
  /\ Path.resolve (beam_temp_dir p u)
     = Path.resolve (Path.dirname p)
       ++ ["beam-temp-" +:+ Path.basename p +:+ "-" +:+ u]
  /\ forall k, k ∈ Path.passed (beam_temp_dir p u)
               <-> k ∈ Path.passed (Path.dirname p) \/ k = Path.resolve (Path.dirname p).
Proof.
  intros Hu. unfold beam_temp_dir.
  pose proof (beam_temp_name_plain (Path.basename p) u (basename_has_sep p) Hu) as Hn.
  set (bt := "beam-temp-" +:+ Path.basename p +:+ "-" +:+ u) in *.
  destruct (resolve_join (Path.dirname p) bt (proj1 Hn)) as [Hres Hpass].
  repeat split.
  - apply join_nonempty. apply Hn.
  - rewrite join_ends_with_sep by apply Hn. apply no_sep_not_ends, Hn.
  - apply dirname_join_dirname, Hn.
  - by rewrite Hres, step_plain.
  - apply Hpass.
  - apply Hpass.
Qed.

(** The way to a path and the way to the temporary directory of its
    sink pass the same places. *)
Lemma beam_temp_dir_passed (m : gmap (list string) Node) (p u : string) :
  Path.has_sep u = false ->
  reachable m (beam_temp_dir p u) ->
  forall k, k ∈ Path.passed p -> dir_at m k = true.
Proof.
  intros Hu [_ Hall] k Hk.
  destruct (beam_temp_dir_spec p u Hu) as (_ & _ & _ & Hpass).
  destruct (Path.has_sep p) eqn:Hs.
  - apply Hall, Hpass. by apply (proj2 (resolve_split p Hs)).
  - rewrite (passed_no_sep p Hs) in Hk. by apply list_elem_of_singleton in Hk as ->.
Qed.

Lemma os_makedirs_ready (p bt : string) (w : World) :
  parent_ready w p -> Path.has_sep bt = false -> bt <> "" ->
  os_makedirs (Path.join (Path.dirname p) bt) w
  = os_mkdir (Path.join (Path.dirname p) bt) w.
Proof.
  intros Hready Hs Hne. unfold os_makedirs.
  pose proof (join_nonempty (Path.dirname p) bt Hne) as Hj.
  destruct (String.length (Path.join (Path.dirname p) bt)) as [|n] eqn:Hl; [done|].
  cbn [os_makedirs_upto].
  rewrite dirname_join_dirname, basename_join by done.
  rewrite (bool_decide_eq_false_2 (bt = "")) by done.
  destruct Hready as [Hd|Hd].
  - rewrite Hd. reflexivity.
  - rewrite (bool_decide_eq_true_2 _ Hd). simpl. by rewrite !andb_false_r.
Qed.

Lemma initialize_write_spec (p : string) (w w' : World) (out : Outcome string) :
  parent_ready w p ->
  initialize_write p w = (out, w') ->
  calls w' = calls w /\ rng_pos w' = rng_pos w
  /\ match out with
     | Return tmp =>
         exists u, tmp = beam_temp_dir p u
                   /\ Path.has_sep u = false
                   /\ reachable (fs w) tmp
                   /\ node (fs w) (Path.resolve tmp) = None
                   /\ fs w' = <[Path.resolve tmp := Dir]> (fs w)
     | Raise _ => fs w' = fs w
     end.
Proof.
  intros Hready. unfold initialize_write, create_temp_dir, bind.
  destruct (bool_decide (Path.basename p = "")
            && bool_decide (Path.dirname (Path.dirname p) = Path.dirname p)).
  { unfold raise. intros [= <- <-]. done. }
  unfold bind, uuid1_hex. destruct (draw_hex_spec 32 w) as (u & -> & Hu & _).
  unfold ret, fs_mkdirs.
  set (wu := set_uuid_pos (uuid_pos w + 32) w).
  destruct (beam_temp_dir_spec p u Hu) as (Hplain & _).
  pose proof (beam_temp_name_plain (Path.basename p) u (basename_has_sep p) Hu) as Hn.
  unfold beam_temp_dir in *.
  rewrite (os_makedirs_ready p _ wu Hready (proj1 Hn)) by apply Hn.
  destruct (os_mkdir _ wu) as [[[]|e] w1] eqn:Hmk; intros [= <- <-];
    apply os_mkdir_spec in Hmk as (Hc & Hr & _ & _ & _ & _ & Hout).
  - rewrite strip_trailing_id in Hout by apply Hplain.
    destruct Hout as (? & ? & ?). split; [done|]. split; [done|]. eauto 10.
  - done.
Qed.

(** *** Deleting what the final name matches *)

Lemma matched_claimed (m : gmap (list string) Node) (p : string) (k : list string) :
  matched m p k = true -> claimed p k = true.
Proof.
  unfold matched, claimed. destruct (is_glob p).
  - intros [-> _]%andb_true_iff. apply orb_true_r.
  - destruct (status m p) as [k' n| | |] eqn:Hs; try done.
    intros Hk. apply bool_decide_eq_true in Hk as <-.
    apply status_present in Hs as (_ & -> & _).
    by rewrite bool_decide_eq_true_2.
Qed.

Lemma lookup_delete_matching_some (p : string) (m : gmap (list string) Node)
    (k : list string) (n : Node) :
  delete_matching p m !! k = Some n -> m !! k = Some n.
Proof. unfold delete_matching. by intros [? _]%map_lookup_filter_Some. Qed.

Lemma lookup_delete_matching_keep (p : string) (m : gmap (list string) Node)
    (k : list string) :
  (forall k', k' ∈ inits k -> claimed p k' = false) ->
  delete_matching p m !! k = m !! k.
Proof.
  intros Hfree. unfold delete_matching.
  destruct (m !! k) as [n|] eqn:Hm.
  - apply map_lookup_filter_Some. split; [done|]. cbn [fst].
    apply Is_true_true, forallb_forall. intros k' Hk'%list_elem_of_In.
    destruct (matched m p k') eqn:Hmt; [|done].
    apply matched_claimed in Hmt. rewrite Hfree in Hmt; done.
  - apply map_lookup_filter_None. by left.
Qed.

Lemma node_delete_matching_some (p : string) (m : gmap (list string) Node)
    (k : list string) (n : Node) :
  node (delete_matching p m) k = Some n -> node m k = Some n.
Proof.
  destruct k as [|c k]; [done|]. simpl. apply lookup_delete_matching_some.
Qed.

Lemma self_in_inits (k : list string) : k ∈ inits k.
Proof.
  unfold inits. apply list_elem_of_fmap. exists (length k). split.
  - by rewrite firstn_all.
  - apply list_elem_of_In, in_seq. lia.
Qed.

End Sink.

Lemma node_delete_tree (kt : list string) (m : gmap (list string) Node) (k : list string) :
  ~ kt `prefix_of` k -> node (delete_tree kt m) k = node m k.
Proof.
  intros Hn. destruct k as [|c k]; [done|].
  rewrite !node_lookup by done. rewrite lookup_delete_tree. by rewrite decide_False.
Qed.

Lemma dir_at_node (m : gmap (list string) Node) (k : list string) :
  dir_at m k = true <-> node m k = Some Dir.
Proof. unfold dir_at. by destruct (node m k) as [[|]|]. Qed.

Section Shard.

Context `{Opaque} `{!Collaborators}.

(** The temporary directory of a sink is not on the way to its final
    name. *)
Lemma beam_temp_dir_off_path (m : gmap (list string) Node) (p u : string) :
  Path.has_sep u = false ->
  reachable m (beam_temp_dir p u) ->
  node m (Path.resolve (beam_temp_dir p u)) = None ->
  forall k, k ∈ Path.passed p \/ k = Path.resolve p ->
    Path.resolve (beam_temp_dir p u) `prefix_of` k ->
    Path.resolve (beam_temp_dir p u) = Path.resolve p.
Proof.
  intros Hu Hreach Hfree k Hk Hpre.
  destruct (path_enters_at_top (Path.resolve (beam_temp_dir p u)) p) as [Hin|Heq].
  - apply node_none in Hfree. tauto.
  - eauto.
  - apply (beam_temp_dir_passed m p u Hu Hreach) in Hin.
    apply dir_at_node in Hin. congruence.
  - done.
Qed.

(** The one shard of the sink: either the file at the final name holds
    the records and nothing else is new, or the write fails and what is
    new is in the temporary directory.  Away from the temporary
    directory and from what the final name lays claim to, nothing
    changes. *)
Lemma write_unsharded_spec (p tmp u : string) (records : list bytes)
    (m0 : gmap (list string) Node) (w1 w2 : World) (out : Outcome unit) :
  tmp = beam_temp_dir p u -> Path.has_sep u = false ->
  reachable m0 tmp -> node m0 (Path.resolve tmp) = None ->
  fs w1 = <[Path.resolve tmp := Dir]> m0 ->
  write_unsharded p tmp records w1 = (out, w2) ->
  calls w2 = calls w1 /\ rng_pos w2 = rng_pos w1
  /\ (forall k', ~ Path.resolve tmp `prefix_of` k' ->
        (forall k'', k'' ∈ inits k' -> claimed p k'' = false) ->
        fs w2 !! k' = m0 !! k')
  /\ match out with
     | Return _ =>
         lookup_path w2 p = Some (File records)
         /\ forall k' n, fs w2 !! k' = Some n ->
              (k' = Path.resolve p /\ n = File records) \/ m0 !! k' = Some n
     | Raise _ =>
         forall k' n, fs w2 !! k' = Some n ->
           m0 !! k' = Some n \/ Path.resolve tmp `prefix_of` k'
     end.
Proof.
  intros Htmp Hu Hreach Hfree Hfs1.
  pose proof (beam_temp_dir_off_path m0 p u Hu) as Hoff. rewrite <- Htmp in Hoff.
  specialize (Hoff Hreach Hfree).
  destruct (beam_temp_dir_spec p u Hu) as (Hplain & _). rewrite <- Htmp in Hplain.
  set (kt := Path.resolve tmp) in *.
  destruct (node_none _ _ Hfree) as [Hkt Hfree'].
  unfold write_unsharded, bind.
  destruct (uuid4_str_spec w1) as (uid & -> & Huid & c & rest & Hc & Hdot).
  set (wu := set_uuid_pos _ w1).
  set (name := uid +:+ "." +:+ Path.basename p).
  assert (Path.has_sep name = false) as Hnsep.
  { unfold name. by rewrite !has_sep_app, Huid, basename_has_sep. }
  assert (plain_name name) as Hname.
  { split; [done|]. unfold name. rewrite Hc, app_cons_string.
    repeat split; [done| |]; intros Heq; apply Hdot; by injection Heq. }
  assert (writer_path p tmp uid = Path.join tmp name) as ->.
  { unfold writer_path, name.
    rewrite !(join_plain_dir tmp) by (done || by apply starts_no_sep).
    by rewrite app_assoc_string, app_cons_string. }
  set (shard := Path.join tmp name).
  set (ks := kt ++ [name]).
  assert (Path.resolve shard = ks) as Hks.
  { unfold shard. rewrite (proj1 (resolve_join tmp name Hnsep)). by apply step_plain. }
  assert (kt `prefix_of` ks) as Hktks by (by apply prefix_app_r).
  assert (ks <> kt) as Hksne.
  { unfold ks. intros Heq. apply (f_equal length) in Heq.
    rewrite length_app in Heq. simpl in Heq. lia. }
  assert (ks <> []) as Hksnil by (unfold ks; by destruct kt).
  assert (forall m, reachable m shard <-> reachable m tmp /\ dir_at m kt = true) as Hrs.
  { intros m. unfold shard. rewrite reachable_join by apply Hname.
    split; [intros [?|?]; [by destruct Hplain|done]|by right]. }
  set (m1 := <[kt := Dir]> m0) in *.
  assert (forall k', ~ kt `prefix_of` k' -> m1 !! k' = m0 !! k') as Hf1.
  { intros k' Hk'. unfold m1. rewrite lookup_insert_ne; [done|]. by intros <-. }
  assert (forall k' n, m1 !! k' = Some n -> m0 !! k' = Some n \/ kt `prefix_of` k') as Hs1.
  { intros k' n. unfold m1. destruct (decide (kt = k')) as [<-|Hne]; [by right|].
    rewrite lookup_insert_ne by done. by left. }
  assert (reachable m1 shard) as Hr1.
  { apply Hrs. split; [by apply reachable_insert|].
    apply dir_at_node. unfold m1. rewrite node_insert by done. by rewrite decide_True. }
  unfold fs_create. change (fs wu) with (fs w1). rewrite Hfs1.
  rewrite (status_reachable _ _ Hr1), Hks.
  assert (calls wu = calls w1 /\ rng_pos wu = rng_pos w1
    /\ (forall k', ~ kt `prefix_of` k' ->
          (forall k'', k'' ∈ inits k' -> claimed p k'' = false) ->
          fs wu !! k' = m0 !! k')
    /\ (forall k' n, fs wu !! k' = Some n ->
          m0 !! k' = Some n \/ kt `prefix_of` k')) as Hraise1.
  { change (fs wu) with (fs w1). rewrite Hfs1. repeat split; auto. }
  destruct (node m1 ks) as [[|r1]|] eqn:Hn1;
    [intros [= <- <-]; exact Hraise1| |];
    clear Hraise1.
  all: set (wc := set_fs (insert ks (File records)) wu).
  all: set (wp := set_fs (delete_matching p) wc).
  all: set (m2 := <[ks := File records]> m1).
  all: set (m3 := delete_matching p m2).
  all: assert (fs wp = m3) as Hfs3
         by (unfold wp, wc, set_fs; simpl; by rewrite Hfs1).
  all: assert (forall k', ~ kt `prefix_of` k' ->
                (forall k'', k'' ∈ inits k' -> claimed p k'' = false) ->
                m3 !! k' = m0 !! k') as Hf3
         by (intros k' Hk' Hcl; unfold m3, m2;
             rewrite lookup_delete_matching_keep by done;
             rewrite lookup_insert_ne by (by intros <-); by apply Hf1).
  all: assert (forall k' n, m3 !! k' = Some n ->
                (k' = ks /\ n = File records) \/ (k' <> ks /\ m1 !! k' = Some n)) as Hs3
         by (intros k' n Hk'; apply lookup_delete_matching_some in Hk';
             unfold m2 in Hk'; destruct (decide (ks = k')) as [<-|Hne];
             [rewrite lookup_insert_eq in Hk'; left; by simplify_eq
             |rewrite lookup_insert_ne in Hk' by done; by right]).
  all: unfold fs_rename; cbn [fst snd]; rewrite Hfs3.
  all: assert (calls wp = calls w1 /\ rng_pos wp = rng_pos w1
         /\ (forall k', ~ kt `prefix_of` k' ->
               (forall k'', k'' ∈ inits k' -> claimed p k'' = false) ->
               fs wp !! k' = m0 !! k')
         /\ (forall k' n, fs wp !! k' = Some n ->
               m0 !! k' = Some n \/ kt `prefix_of` k')) as Hraise3
         by (rewrite Hfs3; repeat split; [done|];
             intros k' n [[-> _]|[_ Hk']]%Hs3; [by right|by apply Hs1]).
  all: destruct (status m3 shard) as [ks0 [|r0]| | |] eqn:Hst3;
         try (destruct (status m3 p) as [? [|?]|?| |];
              intros [= <- <-]; exact Hraise3).
  all: apply status_present in Hst3 as (Hr3 & -> & Hn3); rewrite Hks in Hn3 |- *.
  all: assert (r0 = records) as ->
         by (rewrite node_lookup in Hn3 by done;
             apply Hs3 in Hn3 as [[_ ?]|[? _]]; [by simplify_eq|done]).
  all: apply Hrs in Hr3 as [Hrt3 Hdt3].
  all: destruct (status m3 p) as [k [|rd]|k| |] eqn:Hsp3;
         try (intros [= <- <-]; exact Hraise3).
  all: clear Hraise3.
  all: assert (reachable m3 p /\ k = Path.resolve p /\ dir_at m3 k = false) as (Hrp3 & Hk & Hdk)
         by (first [apply status_present in Hsp3 as (? & ? & Hnk)
                   |apply status_absent in Hsp3 as (? & ? & Hnk)];
             split; [done|split; [done|]]; unfold dir_at; by rewrite Hnk).
  all: assert (k <> []) as Hknil by (intros ->; done).
  all: assert (k <> kt) as Hkkt by (intros ->; congruence).
  all: set (m4 := <[k := File records]> (delete ks m3)).
  all: assert (forall k', dir_at m3 k' = true -> node m4 k' = node m3 k') as Hd4
         by (intros k' Hk'; unfold m4; rewrite node_insert by done;
             rewrite decide_False by (intros ->; congruence);
             apply node_delete; intros ->; apply dir_at_node in Hk'; congruence).
  all: assert (status m4 tmp = Present kt Dir) as Hst4
         by (apply status_present; repeat split;
             [apply Hrt3|intros k' Hk'; apply dir_at_node; rewrite Hd4;
                         [by apply dir_at_node, Hrt3|by apply Hrt3]
             |rewrite Hd4 by done; by apply dir_at_node]).
  all: unfold remove_temp_dir; cbn [fs set_fs]; rewrite Hfs3.
  all: fold m4; rewrite Hst4; intros [= <- <-]; cbn [fs set_fs calls rng_pos].
  all: rewrite Hfs3; fold m4.
  all: assert (forall k', k' ∈ Path.passed p \/ k' = k -> ~ kt `prefix_of` k') as Hoff'
         by (intros k' Hk' Hpre; apply Hkkt; symmetry; rewrite Hk;
             apply (Hoff k'); [by rewrite <- Hk|done]).
  all: split; [done|]; split; [done|]; split; [|split].
  all: try (intros k' Hk' Hcl; rewrite lookup_delete_tree, decide_False by done;
            unfold m4; rewrite lookup_insert_ne;
            [rewrite lookup_delete_ne by (by intros <-); by apply Hf3|];
            intros <-; specialize (Hcl k (self_in_inits k)); unfold claimed in Hcl;
            by rewrite Hk, bool_decide_eq_true_2 in Hcl).
  all: try (apply lookup_path_some; cbn [fs set_fs]; rewrite Hfs3; fold m4; split;
            [split; [apply Hrp3|]; intros k' Hk'; apply dir_at_node;
             rewrite node_delete_tree by (apply Hoff'; by left);
             rewrite Hd4 by (by apply Hrp3); by apply dir_at_node, Hrp3
            |rewrite <- Hk, node_delete_tree by (apply Hoff'; by right);
             unfold m4; rewrite node_insert by done; by rewrite decide_True]).
  all: intros k' n; rewrite lookup_delete_tree;
       destruct (decide (kt `prefix_of` k')) as [?|Hnp]; [done|];
       unfold m4; destruct (decide (k = k')) as [<-|Hne];
       [rewrite lookup_insert_eq; intros [= <-]; by left|];
       rewrite lookup_insert_ne by done;
       destruct (decide (ks = k')) as [<-|Hne'];
       [by rewrite lookup_delete_eq|];
       rewrite lookup_delete_ne by done;
       intros [[? _]|[_ Hk']]%Hs3; [done|];
       right; by destruct (Hs1 _ _ Hk').
Qed.

End Shard.

Section Run.

Context `{Opaque} `{!Collaborators}.

(** ** The source *)

(** A pattern that is a path and matches something names a node. *)
Lemma matched_present (m : gmap (list string) Node) (pattern : string) (k : list string) :
  is_glob pattern = false -> matched m pattern k = true ->
  exists n, status m pattern = Present k n.
Proof.
  unfold matched. intros ->. destruct (status m pattern) as [k' n| | |]; try done.
  intros Hk. apply bool_decide_eq_true in Hk as ->. eauto.
Qed.

Lemma matches_any_present (m : gmap (list string) Node) (pattern : string) :
  is_glob pattern = false -> matches_any m pattern = true ->
  exists k n, status m pattern = Present k n.
Proof.
  intros Hg. unfold matches_any, matching_files, matches_dir.
  intros [Hf|Hd]%orb_true_iff.
  - apply negb_true_iff, bool_decide_eq_false in Hf.
    destruct (List.filter _ _) as [|kv l] eqn:Hfl; [done|].
    assert (In kv (List.filter (fun kv => matched m pattern kv.1)
                     (map_to_list (files_of m)))) as Hin by (rewrite Hfl; left; done).
    apply filter_In in Hin as [_ Hin].
    destruct (matched_present _ _ _ Hg Hin) as (n & Hn). eauto.
  - apply existsb_exists in Hd as (kv & _ & [Hm _]%andb_true_iff).
    destruct (matched_present _ _ _ Hg Hm) as (n & Hn). eauto.
Qed.

(** What a pattern that found something matches is not changed by a
    new directory, the new directory apart. *)
Lemma matched_insert_dir (m : gmap (list string) Node) (pattern : string)
    (kt k : list string) :
  matches_any m pattern = true -> node m kt = None -> k <> kt ->
  matched (<[kt := Dir]> m) pattern k = matched m pattern k.
Proof.
  intros Hany Hfree Hne. destruct (node_none _ _ Hfree) as [Hkt _].
  unfold matched. destruct (is_glob pattern) eqn:Hg.
  - rewrite node_insert by done. by rewrite decide_False.
  - destruct (matches_any_present m pattern Hg Hany) as (k0 & n0 & Hs).
    rewrite Hs. apply status_present in Hs as (Hr & -> & Hn).
    assert (status (<[kt := Dir]> m) pattern = Present (Path.resolve pattern) n0) as ->; [|done].
    apply status_present. split; [by apply reachable_insert|]. split; [done|].
    rewrite node_insert by done. rewrite decide_False; [done|]. intros Heq. congruence.
Qed.

Lemma files_of_insert_dir (m : gmap (list string) Node) (kt : list string) :
  m !! kt = None -> files_of (<[kt := Dir]> m) = files_of m.
Proof.
  intros Hfree. apply files_of_agree. intros k r.
  destruct (decide (kt = k)) as [<-|Hne].
  - rewrite lookup_insert_eq, Hfree. done.
  - by rewrite lookup_insert_ne.
Qed.

(** Reading after the temporary directory of the sink was made reads
    what was there before. *)
Lemma read_records_insert_dir (m : gmap (list string) Node) (pattern : string)
    (kt : list string) (records : list bytes) :
  matches_any m pattern = true -> node m kt = None ->
  read_records pattern (<[kt := Dir]> m) = inr records ->
  read_records pattern m = inr records.
Proof.
  intros Hany Hfree. destruct (node_none _ _ Hfree) as [Hkt Hfree'].
  unfold read_records.
  destruct (matches_dir (<[kt:=Dir]> m) pattern) eqn:Hd1; [done|].
  assert (matches_dir m pattern = false) as ->.
  { destruct (matches_dir m pattern) eqn:Hd0; [|done].
    rewrite <- Hd1. symmetry. unfold matches_dir in *.
    apply existsb_exists in Hd0 as ([k n] & Hin & [Hm Hn]%andb_true_iff).
    simpl in Hm, Hn. destruct n; [|done].
    assert (k <> kt) as Hne.
    { intros ->. destruct Hin as [Heq|Hin]; [by simplify_eq|].
      apply list_elem_of_In, elem_of_map_to_list in Hin. congruence. }
    apply existsb_exists. exists (k, Dir). split.
    - destruct Hin as [Heq|Hin]; [by left|right].
      apply list_elem_of_In, elem_of_map_to_list.
      apply list_elem_of_In, elem_of_map_to_list in Hin.
      by rewrite lookup_insert_ne.
    - simpl. by rewrite matched_insert_dir, Hm. }
  intros [= <-]. f_equal. f_equal. unfold matching_files. f_equal.
  rewrite files_of_insert_dir by done.
  apply filter_ext_in. intros [k r] Hin. simpl.
  symmetry. apply matched_insert_dir; [done|done|]. intros ->.
  apply list_elem_of_In, elem_of_map_to_list in Hin.
  rewrite lookup_files_of, Hfree' in Hin. done.
Qed.

Lemma tagged_examples_insert_dir (data_location : string) (stats_options : StatsOptions)
    (w w1 : World) (kt : list string) (tagged : list (Example * list string)) :
  source_found data_location w = true -> node (fs w) kt = None ->
  fs w1 = <[kt := Dir]> (fs w) ->
  tagged_examples data_location stats_options w1 = inr tagged ->
  tagged_examples data_location stats_options w = inr tagged.
Proof.
  intros Hfound Hfree Hfs. unfold tagged_examples. rewrite Hfs.
  destruct (read_records data_location (<[kt:=Dir]> (fs w))) as [e|records] eqn:Hr; [done|].
  by rewrite (read_records_insert_dir _ _ _ _ Hfound Hfree Hr).
Qed.

(** ** The phases of a call *)

Lemma build_anomaly_pipeline (data_location : string) (stats_options : StatsOptions)
    (p : string) (w : World) :
  build (anomaly_pipeline data_location stats_options p) w =
    if source_found data_location w
    then (Return (anomaly_pipeline data_location stats_options p), w)
    else (Raise (IOError ("No files found based on the file pattern "
                          +:+ data_location)), w).
Proof.
  unfold anomaly_pipeline, source_found. cbn [build]. unfold bind at 1.
  cbn [construct]. by destruct (matches_any (fs w) data_location).
Qed.

Lemma with_Pipeline_anomaly (pipeline_options : option PipelineOptions)
    (data_location : string) (stats_options : StatsOptions) (p : string) (w : World) :
  with_Pipeline pipeline_options
    (build (anomaly_pipeline data_location stats_options p)) w =
    match options_fault pipeline_options with
    | Some e => (Raise e, w)
    | None =>
        if source_found data_location w
        then Pipeline_run pipeline_options
               (anomaly_pipeline data_location stats_options p) w
        else (Raise (IOError ("No files found based on the file pattern "
                              +:+ data_location)), w)
    end.
Proof.
  unfold with_Pipeline, bind.
  destruct (options_fault pipeline_options); [done|]. unfold ret.
  rewrite build_anomaly_pipeline. by destruct (source_found data_location w).
Qed.

(** The function is its schema check followed by three phases, each of
    which hands its exception, if any, to the caller. *)
Lemma validate_phases (data_location : string) (stats_options : StatsOptions)
    (output_path : option string) (pipeline_options : option PipelineOptions)
    (w : World) (s : Schema) :
  schema stats_options = Some s ->
  validate_tfexamples_in_tfrecord data_location stats_options output_path
      pipeline_options w =
    match prepare_output output_path w with
    | (Raise e, w1) => (Raise e, w1)
    | (Return p, w1) =>
        match with_Pipeline pipeline_options
                (build (anomaly_pipeline data_location stats_options p)) w1 with
        | (Raise e, w2) => (Raise e, w2)
        | (Return _, w2) => load_statistics p w2
        end
    end.
Proof.
  intros Hs. unfold validate_tfexamples_in_tfrecord, prepare_output. rewrite Hs.
  unfold bind.
  destruct (match output_path with
            | Some p => ret p
            | None => _
            end w) as [[p|e] w1]; [|reflexivity].
  destruct (gfile_Exists (Path.dirname p) w1) as [[found|e] w2]; [|reflexivity].
  destruct ((if negb found then gfile_MakeDirs (Path.dirname p) else ret ()) w2)
    as [[[]|e] w3]; [|reflexivity].
  unfold ret.
  by destruct (with_Pipeline _ _ w3) as [[[]|e] w4].
Qed.

(** Running the graph of [validate_tfexamples_in_tfrecord]: the run is
    logged, the runner may fail, the sink makes its temporary directory,
    the first three stages yield the tagged examples, and the sink
    writes the one record of their sliced summary. *)
Lemma run_anomaly_pipeline (pipeline_options : option PipelineOptions)
    (data_location : string) (stats_options : StatsOptions) (p : string) (w : World) :
  Pipeline_run pipeline_options (anomaly_pipeline data_location stats_options p) w =
    let w0 := add_call
                (CallRun pipeline_options
                   (anomaly_pipeline data_location stats_options p)) w in
    match runner_fault pipeline_options with
    | Some e => (Raise e, w0)
    | None =>
        match initialize_write p w0 with
        | (Raise e, w1) => (Raise (runner_report e), w1)
        | (Return tmp, w1) =>
            match tagged_examples data_location stats_options w1 with
            | inl e => (Raise (runner_report e), w1)
            | inr tagged =>
                match write_unsharded p tmp
                        [SerializeToString (sliced_statistics stats_options tagged)]
                        w1 with
                | (Return _, w2) => (Return tt, w2)
                | (Raise e, w2) => (Raise (runner_report e), w2)
                end
            end
        end
    end.
Proof.
  unfold Pipeline_run, bind at 1 2, log. cbv zeta.
  destruct (runner_fault pipeline_options) as [e|]; [reflexivity|].
  unfold ret at 1, reported, anomaly_pipeline.
  cbn [initialize_writes]. change (is_unsharded (Some "")) with true. cbv iota.
  unfold bind, ret.
  destruct (initialize_write p _) as [[tmp|e] w1]; [|reflexivity].
  cbn [run_stages apply_transform hd tl].
  unfold bind, ret, read_from_tfrecord, tagged_examples.
  destruct (read_records data_location (fs w1)) as [e|records]; [reflexivity|].
  cbn [lift]. unfold ret.
  destruct (traverse decode_example records) as [e|examples]; [reflexivity|].
  cbn [lift]. unfold ret.
  destruct (identify_anomalous_examples stats_options examples) as [e|tagged];
    [reflexivity|].
  cbn [lift]. unfold ret, write_to_tfrecord, bind. cbn [encode_elements lift map].
  unfold ret. change (is_unsharded (Some "")) with true. cbv iota.
  destruct (write_unsharded p tmp _ w1) as [[[]|e] w2]; reflexivity.
Qed.

Lemma load_statistics_spec (p : string) (w : World) :
  load_statistics p w =
    (match read_statistics p w with
     | inl e => Raise e
     | inr stats => Return stats
     end, add_call (CallLoadStatistics p) w).
Proof.
  unfold load_statistics, bind, log, lift.
  change (read_statistics p (add_call (CallLoadStatistics p) w))
    with (read_statistics p w).
  by destruct (read_statistics p w).
Qed.

End Run.

Section Phases.

Context `{Opaque} `{!Collaborators}.

Lemma file_at_lookup (w : World) (p : string) (records : list bytes) :
  file_at w p = Some records <-> lookup_path w p = Some (File records).
Proof.
  unfold file_at. destruct (lookup_path w p) as [[|r]|]; split; try done.
  - by intros [= ->].
  - by intros [= ->].
Qed.

(** Running the graph: one run is logged.  On success the file at the
    output path holds the one record of the sliced summary of what the
    input held, and no other file or directory is new.  On failure what
    is new is in the temporary directory of the sink.  Either way,
    nothing changes away from that directory and from what the output
    path lays claim to. *)
Lemma run_spec (pipeline_options : option PipelineOptions) (data_location : string)
    (stats_options : StatsOptions) (p : string) (w w2 : World) (r : Outcome unit) :
  parent_ready w p -> source_found data_location w = true ->
  Pipeline_run pipeline_options (anomaly_pipeline data_location stats_options p) w
    = (r, w2) ->
  rng_pos w2 = rng_pos w
  /\ calls w2
     = (calls w ++ [CallRun pipeline_options
                      (anomaly_pipeline data_location stats_options p)])%list
  /\ exists u,
       Path.has_sep u = false
       /\ (forall k, ~ Path.resolve (beam_temp_dir p u) `prefix_of` k ->
             (forall k', k' ∈ inits k -> claimed p k' = false) ->
             fs w2 !! k = fs w !! k)
       /\ match r with
          | Return _ =>
              exists tagged,
                runner_fault pipeline_options = None
                /\ tagged_examples data_location stats_options w = inr tagged
                /\ file_at w2 p
                   = Some [SerializeToString (sliced_statistics stats_options tagged)]
                /\ (forall k n, fs w2 !! k = Some n ->
                      (k = Path.resolve p
                       /\ n = File [SerializeToString
                                      (sliced_statistics stats_options tagged)])
                      \/ fs w !! k = Some n)
          | Raise _ =>
              forall k n, fs w2 !! k = Some n ->
                fs w !! k = Some n \/ Path.resolve (beam_temp_dir p u) `prefix_of` k
          end.
Proof.
  intros Hready Hfound. rewrite run_anomaly_pipeline. cbv zeta.
  set (w0 := add_call _ w).
  destruct (runner_fault pipeline_options) as [e|] eqn:Hrf.
  { intros [= <- <-]. split; [done|]. split; [done|]. exists "". split; [done|].
    split; [done|]. intros k n Hk. by left. }
  destruct (initialize_write p w0) as [[tmp|e] w1] eqn:Hinit;
    apply (initialize_write_spec p w0) in Hinit as (Hc1 & Hr1 & Hout1); try exact Hready.
  2:{ intros [= <- <-]. split; [done|]. split; [done|]. exists "". split; [done|].
      rewrite Hout1. split; [done|]. intros k n Hk. by left. }
  destruct Hout1 as (u & -> & Hu & Hreach & Hfree & Hfs1).
  change (fs w0) with (fs w) in *.
  destruct (node_none _ _ Hfree) as [Hkt Hfree'].
  destruct (tagged_examples data_location stats_options w1) as [e|tagged] eqn:Htag.
  { intros [= <- <-]. split; [done|]. split; [done|]. exists u. split; [done|].
    rewrite Hfs1. split.
    - intros k Hk _. rewrite lookup_insert_ne; [done|]. by intros <-.
    - intros k n. destruct (decide (Path.resolve (beam_temp_dir p u) = k)) as [<-|Hne].
      + by right.
      + rewrite lookup_insert_ne by done. by left. }
  apply (tagged_examples_insert_dir _ _ w w1 _ _ Hfound Hfree Hfs1) in Htag.
  destruct (write_unsharded p _ _ w1) as [[[]|e] w3] eqn:Hw;
    apply (write_unsharded_spec p _ u _ (fs w) w1 w3 _ eq_refl Hu Hreach Hfree Hfs1)
      in Hw as (Hc3 & Hr3 & Hframe & Hout3);
    intros [= <- <-]; (split; [by rewrite Hr3, Hr1|]); (split; [by rewrite Hc3, Hc1|]);
    exists u; (split; [done|]); (split; [done|]).
  - destruct Hout3 as [Hfile Hnew]. exists tagged. repeat split; try done.
    by apply file_at_lookup.
  - done.
Qed.

Lemma runs_app (l1 l2 : list Call) : runs (l1 ++ l2) = (runs l1 ++ runs l2)%list.
Proof. apply omap_app. Qed.

Lemma loaded_paths_app (l1 l2 : list Call) :
  loaded_paths (l1 ++ l2) = (loaded_paths l1 ++ loaded_paths l2)%list.
Proof. apply omap_app. Qed.

Lemma made_dirs_app (l1 l2 : list Call) :
  made_dirs (l1 ++ l2) = (made_dirs l1 ++ made_dirs l2)%list.
Proof. apply omap_app. Qed.

Lemma output_paths_app (l1 l2 : list Call) :
  output_paths (l1 ++ l2) = (output_paths l1 ++ output_paths l2)%list.
Proof. unfold output_paths. by rewrite runs_app, map_app, concat_app. Qed.

(** What preparing the output path leaves in the log: no run, no load,
    and [mkdtemp] only when no path was supplied. *)
Lemma prepare_log (output_path : option string) (w w1 : World) (r : Outcome string) :
  prepare_output output_path w = (r, w1) ->
  uuid_pos w1 = uuid_pos w
  /\ exists l,
    calls w1 = (calls w ++ first_call output_path :: l)%list
    /\ runs (first_call output_path :: l) = []
    /\ loaded_paths (first_call output_path :: l) = []
    /\ (forall p, output_path = Some p ->
          (CallMkdtemp ∉ first_call output_path :: l)
          /\ rng_pos w1 = rng_pos w
          /\ (forall p', r = Return p' -> p' = p))
    /\ (output_path = None -> made_dirs (first_call output_path :: l) = []).
Proof.
  destruct output_path as [p|]; intros Hrun.
  - apply prepare_supplied_spec in Hrun as (Hrng & Hu & Hrun). cbv zeta in Hrun.
    split; [done|].
    destruct Hrun as [(_ & -> & _ & ->) | [(_ & -> & _ & _ & ->)
                                          | (_ & (q & -> & _) & _ & ->)]];
      eexists; (split; [reflexivity|]); (split; [reflexivity|]);
      (split; [reflexivity|]); (split; [|done]); intros ? [= <-];
      (split; [|split; [done|by intros ? [= <-]]]);
      intros Hin; repeat (apply elem_of_cons in Hin as [?|Hin]; [done|]);
      by apply elem_of_nil in Hin.
  - apply prepare_default_spec in Hrun
      as (Hu & [(e & -> & _ & ->) | (tmp & -> & _ & _ & _ & _ & ->)]);
      (split; [done|]); eexists; (split; [reflexivity|]); done.
Qed.

(** The whole call, phase by phase, when the schema is present: the
    preparation fails; or the pipeline cannot be made or built; or it
    runs and fails; or it runs and the output is loaded. *)
Lemma validate_cases (data_location : string) (stats_options : StatsOptions)
    (output_path : option string) (pipeline_options : option PipelineOptions)
    (w w' : World) (out : Outcome DatasetFeatureStatisticsList) (s : Schema) :
  schema stats_options = Some s ->
  validate_tfexamples_in_tfrecord data_location stats_options output_path
      pipeline_options w = (out, w') ->
  (exists e, prepare_output output_path w = (Raise e, w') /\ out = Raise e)
  \/ (exists p w1,
        prepare_output output_path w = (Return p, w1)
        /\ parent_ready w1 p
        /\ ((exists e, out = Raise e /\ w' = w1
               /\ (options_fault pipeline_options = Some e
                   \/ (options_fault pipeline_options = None
                       /\ source_found data_location w1 = false)))
            \/ (options_fault pipeline_options = None
                /\ source_found data_location w1 = true
                /\ ((exists e,
                       Pipeline_run pipeline_options
                         (anomaly_pipeline data_location stats_options p) w1
                       = (Raise e, w')
                       /\ out = Raise e)
                    \/ (exists w2,
                          Pipeline_run pipeline_options
                            (anomaly_pipeline data_location stats_options p) w1
                          = (Return tt, w2)
                          /\ w' = add_call (CallLoadStatistics p) w2
                          /\ out = match read_statistics p w2 with
                                   | inl e => Raise e
                                   | inr stats => Return stats
                                   end))))).
Proof.
  intros Hs. rewrite (validate_phases _ _ _ _ _ _ Hs).
  destruct (prepare_output output_path w) as [[p|e] w1] eqn:Hprep;
    [|intros [= <- <-]; eauto].
  pose proof (prepare_ready _ _ _ _ Hprep) as Hready.
  rewrite with_Pipeline_anomaly.
  destruct (options_fault pipeline_options) as [e|] eqn:Hof.
  { intros [= <- <-]. right. exists p, w1. eauto 10. }
  destruct (source_found data_location w1) eqn:Hfound.
  2:{ intros [= <- <-]. right. exists p, w1. split; [done|]. split; [done|].
      left. eauto 10. }
  destruct (Pipeline_run _ _ w1) as [[[]|e] w2] eqn:Hrun.
  - rewrite load_statistics_spec. intros [= <- <-]. right. exists p, w1.
    split; [done|]. split; [done|]. right. eauto 10.
  - intros [= <- <-]. right. exists p, w1.
    split; [done|]. split; [done|]. right. eauto 10.
Qed.

Lemma validate_no_schema (data_location : string)
    (stats_options : StatsOptions) (output_path : option string)
    (pipeline_options : option PipelineOptions) (w : World) :
  schema stats_options = None ->
  validate_tfexamples_in_tfrecord data_location stats_options output_path
      pipeline_options w
    = (Raise (ValueError SCHEMA_REQUIRED), w).
Proof.
  intros Hs. unfold validate_tfexamples_in_tfrecord. rewrite Hs. reflexivity.
Qed.

Lemma validate_returns_schema (data_location : string)
    (stats_options : StatsOptions) (output_path : option string)
    (pipeline_options : option PipelineOptions) (w w' : World)
    (stats : DatasetFeatureStatisticsList) :
  validate_tfexamples_in_tfrecord data_location stats_options output_path
      pipeline_options w = (Return stats, w') ->
  exists s, schema stats_options = Some s.
Proof.
  intros Hrun. destruct (schema stats_options) as [s|] eqn:Hs; [eauto|].
  unfold validate_tfexamples_in_tfrecord in Hrun. rewrite Hs in Hrun. done.
Qed.

(** The log of a call that passed the schema check: the calls of the
    preparation, then at most one run, then at most one load. *)
Lemma validate_log (data_location : string) (stats_options : StatsOptions)
    (output_path : option string) (pipeline_options : option PipelineOptions)
    (w w' : World) (out : Outcome DatasetFeatureStatisticsList) (s : Schema) :
  schema stats_options = Some s ->
  validate_tfexamples_in_tfrecord data_location stats_options output_path
      pipeline_options w = (out, w') ->
  exists r w1 tail,
    prepare_output output_path w = (r, w1)
    /\ new_calls w w' = (new_calls w w1 ++ tail)%list
    /\ runs (new_calls w w1) = []
    /\ loaded_paths (new_calls w w1) = []
    /\ (exists l, new_calls w w1 = first_call output_path :: l)
    /\ (tail = []
        \/ exists p,
             r = Return p
             /\ (tail = [CallRun pipeline_options
                           (anomaly_pipeline data_location stats_options p)]
                 \/ tail = [CallRun pipeline_options
                              (anomaly_pipeline data_location stats_options p);
                            CallLoadStatistics p])).
Proof.
  intros Hs Hrun.
  destruct (validate_cases _ _ _ _ _ _ _ _ Hs Hrun)
    as [(e & Hp & ->) | (p & w1 & Hp & Hready & Hrest)].
  - exists (Raise e), w', []. pose proof Hp as Hp'.
    apply prepare_log in Hp as (_ & l & Hc & Hr & Hl & _).
    rewrite (new_calls_app _ _ _ Hc), app_nil_r. eauto 10.
  - exists (Return p), w1. pose proof Hp as Hp'.
    apply prepare_log in Hp as (_ & l & Hc & Hr & Hl & _).
    rewrite (new_calls_app _ _ _ Hc).
    destruct Hrest as [(e & -> & -> & _) | (_ & Hfound & [(e & Hr2 & ->) | (w2 & Hr2 & -> & _)])].
    + exists []. rewrite (new_calls_app _ _ _ Hc), app_nil_r. eauto 10.
    + apply (run_spec _ _ _ _ _ _ _ Hready Hfound) in Hr2 as (_ & Hc2 & _).
      eexists. split; [done|]. split.
      { apply new_calls_app. rewrite Hc2, Hc, <- app_assoc. reflexivity. }
      eauto 10.
    + apply (run_spec _ _ _ _ _ _ _ Hready Hfound) in Hr2 as (_ & Hc2 & _).
      eexists. split; [done|]. split.
      { apply new_calls_app. simpl. rewrite Hc2, Hc, <- !app_assoc. reflexivity. }
      eauto 10.
Qed.

End Phases.

Section Properties.

Context `{Opaque} `{!Collaborators}.

(** The whole call with what each phase leaves: the log, the random
    names drawn and the file system. *)
Lemma validate_frame (data_location : string) (stats_options : StatsOptions)
    (output_path : option string) (pipeline_options : option PipelineOptions)
    (w w' : World) (out : Outcome DatasetFeatureStatisticsList) (s : Schema) :
  schema stats_options = Some s ->
  validate_tfexamples_in_tfrecord data_location stats_options output_path
      pipeline_options w = (out, w') ->
  exists r w1 l,
    prepare_output output_path w = (r, w1)
    /\ new_calls w w1 = first_call output_path :: l
    /\ runs (first_call output_path :: l) = []
    /\ loaded_paths (first_call output_path :: l) = []
    /\ ((exists e, r = Raise e /\ out = Raise e /\ w' = w1)
        \/ (exists p e,
              r = Return p /\ out = Raise e /\ w' = w1
              /\ (options_fault pipeline_options = Some e
                  \/ (options_fault pipeline_options = None
                      /\ source_found data_location w1 = false)))
        \/ (exists p e u,
              r = Return p /\ out = Raise e
              /\ options_fault pipeline_options = None
              /\ source_found data_location w1 = true
              /\ Pipeline_run pipeline_options
                   (anomaly_pipeline data_location stats_options p) w1
                 = (Raise e, w')
              /\ rng_pos w' = rng_pos w1
              /\ Path.has_sep u = false
              /\ (forall k, ~ Path.resolve (beam_temp_dir p u) `prefix_of` k ->
                    (forall k', k' ∈ inits k -> claimed p k' = false) ->
                    fs w' !! k = fs w1 !! k)
              /\ (forall k n, fs w' !! k = Some n ->
                    fs w1 !! k = Some n
                    \/ Path.resolve (beam_temp_dir p u) `prefix_of` k)
              /\ new_calls w w'
                 = ((first_call output_path :: l)
                    ++ [CallRun pipeline_options
                          (anomaly_pipeline data_location stats_options p)])%list)
        \/ (exists p w2 tagged u,
              let record := SerializeToString (sliced_statistics stats_options tagged) in
              r = Return p
              /\ options_fault pipeline_options = None
              /\ source_found data_location w1 = true
              /\ Pipeline_run pipeline_options
                   (anomaly_pipeline data_location stats_options p) w1
                 = (Return tt, w2)
              /\ w' = add_call (CallLoadStatistics p) w2
              /\ rng_pos w2 = rng_pos w1
              /\ Path.has_sep u = false
              /\ (forall k, ~ Path.resolve (beam_temp_dir p u) `prefix_of` k ->
                    (forall k', k' ∈ inits k -> claimed p k' = false) ->
                    fs w2 !! k = fs w1 !! k)
              /\ tagged_examples data_location stats_options w1 = inr tagged
              /\ file_at w2 p = Some [record]
              /\ (forall k n, fs w2 !! k = Some n ->
                    (k = Path.resolve p /\ n = File [record])
                    \/ fs w1 !! k = Some n)
              /\ out = match ParseFromString record with
                       | inl e => Raise e
                       | inr stats => Return stats
                       end
              /\ new_calls w w'
                 = ((first_call output_path :: l)
                    ++ [CallRun pipeline_options
                          (anomaly_pipeline data_location stats_options p);
                        CallLoadStatistics p])%list)).
Proof.
  intros Hs Hrun.
  destruct (validate_cases _ _ _ _ _ _ _ _ Hs Hrun)
    as [(e & Hp & ->) | (p & w1 & Hp & Hready & Hrest)].
  - destruct (prepare_log _ _ _ _ Hp) as (_ & l & Hc & Hr & Hl & _).
    exists (Raise e), w', l. rewrite (new_calls_app _ _ _ Hc). eauto 10.
  - destruct (prepare_log _ _ _ _ Hp) as (_ & l & Hc & Hr & Hl & _).
    exists (Return p), w1, l. rewrite (new_calls_app _ _ _ Hc).
    split; [done|]. split; [done|]. split; [done|]. split; [done|]. right.
    destruct Hrest as [(e & -> & -> & Hwhy)
                      | (Hof & Hfound & [(e & Hr2 & ->) | (w2 & Hr2 & -> & Hout)])].
    + left. eauto 10.
    + right. left. pose proof Hr2 as Hr2'.
      apply (run_spec _ _ _ _ _ _ _ Hready Hfound) in Hr2
        as (Hrng & Hc2 & u & Hu & Hfr & Hnew).
      exists p, e, u. repeat split; try done.
      apply new_calls_app. rewrite Hc2, Hc, <- app_assoc. reflexivity.
    + right. right. pose proof Hr2 as Hr2'.
      apply (run_spec _ _ _ _ _ _ _ Hready Hfound) in Hr2
        as (Hrng & Hc2 & u & Hu & Hfr & tagged & _ & Htag & Hfile & Hnew).
      exists p, w2, tagged, u. cbv zeta. repeat split; try done.
      * rewrite Hout. unfold read_statistics.
        apply file_at_lookup in Hfile. by rewrite Hfile.
      * apply new_calls_app. simpl. rewrite Hc2, Hc, <- !app_assoc. reflexivity.
Qed.

(** ** The claims *)

(** C1. A call whose [stats_options] carries no schema fails with the
    configuration error ([ValueError]) at once: the world it leaves is the
    world it was given.  So no library call was made (no pipeline was
    built or run, [mkdtemp] and [MakeDirs] were not called), no random
    name was drawn and the file system is as it was (no temporary
    directory, no directory, no file). *)
Theorem absent_schema_fails_fast (data_location : string)
    (stats_options : StatsOptions) (output_path : option string)
    (pipeline_options : option PipelineOptions) (w w' : World)
    (out : Outcome DatasetFeatureStatisticsList) :
  schema stats_options = None ->
  validate_tfexamples_in_tfrecord data_location stats_options output_path
      pipeline_options w = (out, w') ->
  out = Raise (ValueError SCHEMA_REQUIRED)
  /\ w' = w
  /\ new_calls w w' = []
  /\ rng_pos w' = rng_pos w
  /\ fs w' = fs w.
Proof.
  intros Hs Hrun. unfold validate_tfexamples_in_tfrecord in Hrun.
  rewrite Hs in Hrun. unfold raise in Hrun. injection Hrun as <- <-.
  split; [reflexivity|]. split; [reflexivity|]. split; [|done].
  unfold new_calls. apply drop_all.
Qed.

(** C10. The configuration check looks at the presence of the schema and
    at nothing else: the call fails at the check (the configuration error,
    the world untouched) exactly when the schema is absent, and with a
    schema present, whatever it contains and whatever the other options
    and the data location are, the call goes on to its first library
    call. *)
Theorem schema_check_presence_only (data_location : string)
    (stats_options : StatsOptions) (output_path : option string)
    (pipeline_options : option PipelineOptions) (w w' : World)
    (out : Outcome DatasetFeatureStatisticsList) :
  validate_tfexamples_in_tfrecord data_location stats_options output_path
      pipeline_options w = (out, w') ->
  (schema stats_options = None
   <-> out = Raise (ValueError SCHEMA_REQUIRED) /\ w' = w)
  /\ (schema stats_options <> None ->
      exists l, new_calls w w' = first_call output_path :: l).
Proof.
  intros Hrun.
  assert (schema stats_options <> None ->
          exists l, new_calls w w' = first_call output_path :: l) as Hgo.
  { destruct (schema stats_options) as [s|] eqn:Hs; [intros _|done].
    destruct (validate_log _ _ _ _ _ _ _ _ Hs Hrun)
      as (r & w1 & tail & _ & -> & _ & _ & (l & ->) & _).
    eexists. reflexivity. }
  split; [|exact Hgo]. split.
  - intros Hs. rewrite validate_no_schema in Hrun by done. by simplify_eq.
  - intros [_ ->]. destruct (schema stats_options) eqn:Hs; [|done].
    destruct Hgo as [l Hl]; [done|].
    unfold new_calls in Hl. rewrite drop_all in Hl. done.
Qed.

(** C3. The summary a successful call returns is the summary a reload of
    the file at the resolved output path gives right after the call: the
    path [p] the pipeline wrote to is the one path loaded, its file's
    first record parses to the returned summary, and calling
    [load_statistics] on [p] in the world the call left returns it
    again. *)
Theorem returned_statistics_are_reloaded (data_location : string)
    (stats_options : StatsOptions) (output_path : option string)
    (pipeline_options : option PipelineOptions) (w w' : World)
    (stats : DatasetFeatureStatisticsList) :
  validate_tfexamples_in_tfrecord data_location stats_options output_path
      pipeline_options w = (Return stats, w') ->
  exists p,
    runs (new_calls w w')
    = [(pipeline_options, anomaly_pipeline data_location stats_options p)]
    /\ loaded_paths (new_calls w w') = [p]
    /\ (exists record rest,
          file_at w' p = Some (record :: rest)
          /\ ParseFromString record = inr stats)
    /\ load_statistics p w'
       = (Return stats, add_call (CallLoadStatistics p) w').
Proof.
  intros Hrun. destruct (validate_returns_schema _ _ _ _ _ _ _ Hrun) as [s Hs].
  destruct (validate_frame _ _ _ _ _ _ _ _ Hs Hrun)
    as (r & w1 & l & Hp & _ & Hr & Hl & Hcase).
  destruct Hcase as [(e & _ & ? & _)
                    | [(p & e & _ & ? & _)
                      | [(p & e & u & _ & ? & _)
                        | (p & w2 & tagged & u & Hcase)]]]; try done.
  cbv zeta in Hcase.
  destruct Hcase as (-> & _ & _ & _ & -> & _ & _ & _ & _ & Hfile & _ & Hout & Hnew).
  exists p. rewrite Hnew, runs_app, loaded_paths_app, Hr, Hl.
  split; [done|]. split; [done|].
  assert (ParseFromString
            (SerializeToString (sliced_statistics stats_options tagged))
          = inr stats) as Hparse.
  { destruct (ParseFromString _); by simplify_eq. }
  split.
  - eexists _, []. split; [exact Hfile|exact Hparse].
  - rewrite load_statistics_spec. unfold read_statistics.
    change (lookup_path (add_call (CallLoadStatistics p) w2) p)
      with (lookup_path w2 p).
    apply file_at_lookup in Hfile. by rewrite Hfile, Hparse.
Qed.


Lemma lookup_path_absent (w : World) (p : string) :
  reachable (fs w) p -> node (fs w) (Path.resolve p) = None ->
  lookup_path w p = None.
Proof.
  intros Hr Hn. unfold lookup_path. by rewrite (status_reachable _ _ Hr), Hn.
Qed.


(** Preparing a supplied path adds directories on the lineage of its
    parent, and nothing else. *)
Lemma prepare_supplied_nodes (p : string) (w w1 : World) (r : Outcome string) :
  prepare_output (Some p) w = (r, w1) ->
  (forall k, k ∉ map Path.resolve (lineage (Path.dirname p)) ->
     fs w1 !! k = fs w !! k)
  /\ (forall k n, fs w1 !! k = Some n ->
        fs w !! k = Some n
        \/ (n = Dir /\ k ∈ map Path.resolve (lineage (Path.dirname p)))).
Proof.
  intros Hp. apply prepare_supplied_spec in Hp as (_ & _ & Hp). cbv zeta in Hp.
  destruct Hp as [(_ & _ & -> & _) | [(_ & _ & _ & -> & _) | (_ & _ & -> & _)]];
    try (split; [done|by left]).
  split.
  - intros k Hk. rewrite lookup_make_dirs, decide_False; [done|tauto].
  - intros k n. rewrite lookup_make_dirs. case_decide as Hk.
    + intros [= <-]. right. tauto.
    + by left.
Qed.

(** The calls after the preparation make no directory. *)
Lemma validate_made_dirs (data_location : string) (stats_options : StatsOptions)
    (output_path : option string) (pipeline_options : option PipelineOptions)
    (w w' w1 : World) (out : Outcome DatasetFeatureStatisticsList)
    (r : Outcome string) (s : Schema) :
  schema stats_options = Some s ->
  validate_tfexamples_in_tfrecord data_location stats_options output_path
      pipeline_options w = (out, w') ->
  prepare_output output_path w = (r, w1) ->
  made_dirs (new_calls w w') = made_dirs (new_calls w w1).
Proof.
  intros Hs Hrun Hp.
  destruct (validate_log _ _ _ _ _ _ _ _ Hs Hrun)
    as (r' & w1' & tail & Hp' & -> & _ & _ & _ & Htail).
  rewrite Hp in Hp'. injection Hp' as <- <-.
  rewrite made_dirs_app.
  destruct Htail as [-> | (p & _ & [-> | ->])]; simpl; by rewrite app_nil_r.
Qed.

(** C7. A failure of the run of the pipeline is the failure of the call:
    when the output path was prepared, the pipeline object made and the
    graph built, and running the graph raises [e], the call raises [e]
    in the world the failed run left.  The log shows that one run and no
    load: nothing was caught or translated, nothing was retried and no
    statistics were returned. *)
Theorem pipeline_failure_propagates (data_location : string)
    (stats_options : StatsOptions) (output_path : option string)
    (pipeline_options : option PipelineOptions) (w w1 w1' w2 : World)
    (s : Schema) (p : string) (stages : Pipeline) (e : exn) :
  schema stats_options = Some s ->
  prepare_output output_path w = (Return p, w1) ->
  options_fault pipeline_options = None ->
  build (anomaly_pipeline data_location stats_options p) w1 = (Return stages, w1') ->
  Pipeline_run pipeline_options stages w1' = (Raise e, w2) ->
  validate_tfexamples_in_tfrecord data_location stats_options output_path
      pipeline_options w = (Raise e, w2)
  /\ stages = anomaly_pipeline data_location stats_options p
  /\ runs (new_calls w w2) = [(pipeline_options, stages)]
  /\ loaded_paths (new_calls w w2) = [].
Proof.
  intros Hs Hp Hof Hbuild Hrun.
  rewrite build_anomaly_pipeline in Hbuild.
  destruct (source_found data_location w1) eqn:Hfound; [|done].
  injection Hbuild as <- <-.
  split.
  { rewrite (validate_phases _ _ _ _ _ _ Hs), Hp, with_Pipeline_anomaly, Hof, Hfound.
    by rewrite Hrun. }
  split; [done|].
  pose proof (prepare_ready _ _ _ _ Hp) as Hready.
  apply prepare_log in Hp as (_ & l & Hc & Hr & Hl & _).
  apply (run_spec _ _ _ _ _ _ _ Hready Hfound) in Hrun as (_ & Hc2 & _).
  rewrite (new_calls_app w w2 ((first_call output_path :: l)
             ++ [CallRun pipeline_options
                   (anomaly_pipeline data_location stats_options p)])).
  - by rewrite runs_app, loaded_paths_app, Hr, Hl.
  - rewrite Hc2, Hc, <- app_assoc. reflexivity.
Qed.

(** C4. The graph the call builds is the five labelled stages read,
    decode, detect, aggregate and write, in this order, the aggregation
    with slicing enabled.  A pipeline the call runs is this graph, with
    the options of the call, and it is run at most once: once when the
    output path was prepared, the pipeline object made and the source
    found its input, and not at all otherwise. *)
Theorem pipeline_has_five_stages (data_location : string)
    (stats_options : StatsOptions) (output_path : option string)
    (pipeline_options : option PipelineOptions) (w w' : World)
    (out : Outcome DatasetFeatureStatisticsList) (s : Schema) :
  schema stats_options = Some s ->
  validate_tfexamples_in_tfrecord data_location stats_options output_path
      pipeline_options w = (out, w') ->
  (forall p w1 stages w1',
     build (anomaly_pipeline data_location stats_options p) w1 = (Return stages, w1') ->
     w1' = w1
     /\ map fst stages
        = ["ReadData"; "DecodeData"; "DetectAnomalies";
           "GenerateSummaryStatistics"; "WriteStatsOutput"]
     /\ stage_kinds stages
        = [ReadStage; DecodeStage; DetectStage; AggregateStage true; WriteStage])
  /\ (forall r, r ∈ runs (new_calls w w') ->
        r.1 = pipeline_options
        /\ (exists p, r.2 = anomaly_pipeline data_location stats_options p)
        /\ map fst r.2
           = ["ReadData"; "DecodeData"; "DetectAnomalies";
              "GenerateSummaryStatistics"; "WriteStatsOutput"]
        /\ stage_kinds r.2
           = [ReadStage; DecodeStage; DetectStage; AggregateStage true; WriteStage])
  /\ length (runs (new_calls w w')) <= 1
  /\ (forall p w1,
        prepare_output output_path w = (Return p, w1) ->
        (options_fault pipeline_options = None
         /\ source_found data_location w1 = true ->
         runs (new_calls w w')
         = [(pipeline_options, anomaly_pipeline data_location stats_options p)])
        /\ (options_fault pipeline_options <> None
            \/ source_found data_location w1 = false ->
            runs (new_calls w w') = [] /\ exists e, out = Raise e /\ w' = w1)).
Proof.
  intros Hs Hrun. split.
  { intros p w1 stages w1'. rewrite build_anomaly_pipeline.
    destruct (source_found data_location w1); [|done]. by intros [= <- <-]. }
  destruct (validate_frame _ _ _ _ _ _ _ _ Hs Hrun)
    as (r & w1 & l & Hp & _ & Hr & Hl & Hcase).
  assert (runs (new_calls w w') = []
          /\ (forall p, r = Return p ->
                (exists e, out = Raise e /\ w' = w1)
                /\ (options_fault pipeline_options <> None
                    \/ source_found data_location w1 = false))
          \/ exists p, r = Return p
               /\ options_fault pipeline_options = None
               /\ source_found data_location w1 = true
               /\ runs (new_calls w w')
                  = [(pipeline_options,
                      anomaly_pipeline data_location stats_options p)]) as Hruns.
  { destruct Hcase as [(e & -> & -> & ->)
                      | [(p & e & -> & -> & -> & Hwhy)
                        | [(p & e & u & -> & _ & Hof & Hf & _ & _ & _ & _ & _ & Hnew)
                          | (p & w2 & tagged & u & Hcase)]]].
    - left. apply prepare_log in Hp as (_ & l' & Hc & Hr' & _).
      rewrite (new_calls_app _ _ _ Hc). done.
    - left. apply prepare_log in Hp as (_ & l' & Hc & Hr' & _).
      rewrite (new_calls_app _ _ _ Hc). split; [done|].
      intros p' [= <-]. split; [eauto|].
      destruct Hwhy as [Hof|[_ Hf]]; [left; congruence|by right].
    - right. exists p. rewrite Hnew, runs_app, Hr. done.
    - cbv zeta in Hcase.
      destruct Hcase as (-> & Hof & Hf & _ & _ & _ & _ & _ & _ & _ & _ & _ & Hnew).
      right. exists p. rewrite Hnew, runs_app, Hr. done. }
  split; [|split].
  - intros r0 Hin. destruct Hruns as [[Hn _] | (p & _ & _ & _ & Hn)];
      rewrite Hn in Hin.
    + by apply elem_of_nil in Hin.
    + apply list_elem_of_singleton in Hin as ->. simpl. eauto 10.
  - destruct Hruns as [[-> _] | (p & _ & _ & _ & ->)]; simpl; lia.
  - intros p w1' Hp'. rewrite Hp in Hp'. injection Hp' as -> <-.
    destruct Hruns as [[Hn Hwhy] | (p' & [= <-] & Hof & Hf & Hn)].
    + destruct (Hwhy p eq_refl) as [Hout Hcause]. split.
      * intros [Hof Hf]. destruct Hcause; congruence.
      * done.
    + split; [done|]. intros [?|?]; congruence.
Qed.

(** C5. A successful call leaves, at the resolved output path itself,
    a file of one record, the serialized summary that is returned.  The
    one sink of the one pipeline that ran has that path as its file path
    prefix and the empty shard name template, so the file is the one
    shard, under the name of the path with nothing appended.  No other
    file is written: any other regular file of the world the call leaves
    was there before, with the same records. *)
Theorem single_output_file (data_location : string)
    (stats_options : StatsOptions) (output_path : option string)
    (pipeline_options : option PipelineOptions) (w w' : World)
    (stats : DatasetFeatureStatisticsList) :
  validate_tfexamples_in_tfrecord data_location stats_options output_path
      pipeline_options w = (Return stats, w') ->
  exists p w1 tagged,
    let record := SerializeToString (sliced_statistics stats_options tagged) in
    prepare_output output_path w = (Return p, w1)
    /\ tagged_examples data_location stats_options w1 = inr tagged
    /\ output_paths (new_calls w w') = [p]
    /\ (forall r, r ∈ runs (new_calls w w') -> sinks r.2 = [(p, Some "")])
    /\ file_at w' p = Some [record]
    /\ ParseFromString record = inr stats
    /\ (forall k records,
          fs w' !! k = Some (File records) ->
          (k = Path.resolve p /\ records = [record])
          \/ fs w !! k = Some (File records)).
Proof.
  intros Hrun. destruct (validate_returns_schema _ _ _ _ _ _ _ Hrun) as [s Hs].
  destruct (validate_frame _ _ _ _ _ _ _ _ Hs Hrun)
    as (r & w1 & l & Hp & _ & Hr & Hl & Hcase).
  destruct Hcase as [(e & _ & ? & _)
                    | [(p & e & _ & ? & _)
                      | [(p & e & u & _ & ? & _)
                        | (p & w2 & tagged & u & Hcase)]]]; try done.
  cbv zeta in Hcase.
  destruct Hcase as (-> & _ & _ & _ & -> & _ & _ & _ & Htag & Hfile & Hnew & Hout & Hcalls).
  exists p, w1, tagged. cbv zeta.
  rewrite Hcalls, output_paths_app, runs_app. unfold output_paths at 1. rewrite Hr.
  split; [done|]. split; [done|]. split; [done|]. split.
  { intros r0 Hin. simpl in Hin. by apply list_elem_of_singleton in Hin as ->. }
  split; [exact Hfile|]. split.
  { destruct (ParseFromString _); by simplify_eq. }
  intros k records Hk. change (fs (add_call _ w2)) with (fs w2) in Hk.
  apply Hnew in Hk as [[-> [= ->]]|Hk]; [by left|right].
  destruct output_path as [p'|].
  - assert (p' = p) as ->.
    { apply prepare_log in Hp as (_ & ? & _ & _ & _ & Hsome & _).
      symmetry. by apply (Hsome p' eq_refl). }
    apply prepare_supplied_nodes in Hp as [_ Hnodes].
    by destruct (Hnodes _ _ Hk) as [?|[? _]].
  - apply prepare_default_spec in Hp as (_ & [(e & ? & _) | (tmp & _ & _ & _ & Hfree & Hfs & _)]);
      [done|].
    rewrite Hfs in Hk. destruct (decide (Path.resolve tmp = k)) as [<-|Hne].
    + by rewrite lookup_insert_eq in Hk.
    + by rewrite lookup_insert_ne in Hk.
Qed.






End Properties.

(** ** Slices *)


Section Slices.

Context `{Opaque} `{!Collaborators}.










(** C2, with the file name the code has.  With no path supplied the
    output path is [anomaly_stats.tfrecord] in a directory that
    [mkdtemp] made: the directory did not exist before and is a
    directory after, it is the parent of the path, and the path is the
    one a pipeline that runs writes to and the one a load reads.  A
    second such call, in any world in which that directory still exists,
    resolves to another path. *)
Theorem default_output_path (data_location : string)
    (stats_options : StatsOptions) (pipeline_options : option PipelineOptions)
    (w w1 w' w2 w2' : World) (out : Outcome DatasetFeatureStatisticsList)
    (s : Schema) (p1 p2 : string) :
  schema stats_options = Some s ->
  validate_tfexamples_in_tfrecord data_location stats_options None
      pipeline_options w = (out, w') ->
  prepare_output None w = (Return p1, w1) ->
  prepare_output None w2 = (Return p2, w2') ->
  lookup_path w2 (Path.dirname p1) <> None ->
  (exists tmp,
     p1 = Path.join tmp "anomaly_stats.tfrecord"
     /\ Path.dirname p1 = tmp
     /\ Path.basename p1 = "anomaly_stats.tfrecord"
     /\ lookup_path w tmp = None
     /\ is_dir w1 tmp = true
     /\ new_calls w w1 = [CallMkdtemp; CallExists tmp])
  /\ (forall r, r ∈ runs (new_calls w w') -> sinks r.2 = [(p1, Some "")])
  /\ (forall q, q ∈ loaded_paths (new_calls w w') -> q = p1)
  /\ p1 <> p2.
Proof.
  intros Hs Hrun Hp1 Hp2 Hstill.
  pose proof Hp1 as Hspec1.
  apply prepare_default_spec in Hspec1
    as (_ & [(e & ? & _) | (tmp & [= ->] & Hplain & Hreach & Hfree & Hfs & Hc)]); [done|].
  apply prepare_default_spec in Hp2
    as (_ & [(e & ? & _) | (tmp2 & [= ->] & Hplain2 & Hreach2 & Hfree2 & _)]); [done|].
  rewrite dirname_join in Hstill |- * by done.
  split; [|split; [|split]].
  - exists tmp. split; [done|]. split; [done|]. split; [by apply basename_join|].
    split; [by apply lookup_path_absent|]. split.
    + apply is_dir_true, lookup_path_some. rewrite Hfs. split.
      * by apply reachable_insert.
      * apply node_none in Hfree as [Hne _]. rewrite node_insert by done.
        by rewrite decide_True.
    + by apply new_calls_app.
  - destruct (validate_frame _ _ _ _ _ _ _ _ Hs Hrun)
      as (r & w1' & l & Hp & Hn1 & Hr & Hl & Hcase).
    rewrite Hp1 in Hp. injection Hp as <- <-.
    destruct Hcase as [(e & _ & _ & ->)
                      | [(p' & e & _ & _ & -> & _)
                        | [(p' & e & u & [= <-] & _ & _ & _ & _ & _ & _ & _ & _ & ->)
                          | (p' & w3 & tagged & u & Hcase)]]].
    + rewrite Hn1, Hr. by intros ? ?%elem_of_nil.
    + rewrite Hn1, Hr. by intros ? ?%elem_of_nil.
    + rewrite runs_app, Hr. intros r0 Hin. simpl in Hin.
      by apply list_elem_of_singleton in Hin as ->.
    + cbv zeta in Hcase.
      destruct Hcase as ([= <-] & _ & _ & _ & _ & _ & _ & _ & _ & _ & _ & _ & ->).
      rewrite runs_app, Hr. intros r0 Hin. simpl in Hin.
      by apply list_elem_of_singleton in Hin as ->.
  - destruct (validate_frame _ _ _ _ _ _ _ _ Hs Hrun)
      as (r & w1' & l & Hp & Hn1 & Hr & Hl & Hcase).
    rewrite Hp1 in Hp. injection Hp as <- <-.
    destruct Hcase as [(e & _ & _ & ->)
                      | [(p' & e & _ & _ & -> & _)
                        | [(p' & e & u & [= <-] & _ & _ & _ & _ & _ & _ & _ & _ & ->)
                          | (p' & w3 & tagged & u & Hcase)]]].
    + rewrite Hn1, Hl. by intros ? ?%elem_of_nil.
    + rewrite Hn1, Hl. by intros ? ?%elem_of_nil.
    + rewrite loaded_paths_app, Hl. by intros ? ?%elem_of_nil.
    + cbv zeta in Hcase.
      destruct Hcase as ([= <-] & _ & _ & _ & _ & _ & _ & _ & _ & _ & _ & _ & ->).
      rewrite loaded_paths_app, Hl. intros q Hin. simpl in Hin.
      by apply list_elem_of_singleton in Hin as ->.
  - intros Heq. apply (join_plain_inj _ _ _ Hplain Hplain2) in Heq; [|done].
    subst tmp2. apply Hstill. by apply lookup_path_absent.
Qed.

End Slices.

(** * Further properties of the call *)

Section MoreProperties.

Context `{Opaque} `{!Collaborators}.

Lemma lookup_path_empty (w : World) : lookup_path w "" = None.
Proof. reflexivity. Qed.

(** Under a regular file the sink cannot make its temporary directory:
    the run fails and leaves the file system as it was. *)
Lemma run_under_file (pipeline_options : option PipelineOptions)
    (data_location : string) (stats_options : StatsOptions) (p : string)
    (w w2 : World) (r : Outcome unit) :
  is_file w (Path.dirname p) = true ->
  Pipeline_run pipeline_options (anomaly_pipeline data_location stats_options p) w
    = (r, w2) ->
  (exists e, r = Raise e) /\ fs w2 = fs w.
Proof.
  intros Hfile. rewrite run_anomaly_pipeline. cbv zeta.
  destruct (runner_fault pipeline_options) as [e|]; [intros [= <- <-]; eauto|].
  set (w0 := add_call _ w).
  assert (exists records, lookup_path w0 (Path.dirname p) = Some (File records))
    as (records & Hlook).
  { unfold is_file in Hfile. change (lookup_path w0) with (lookup_path w).
    destruct (lookup_path w (Path.dirname p)) as [[|records]|]; try done. eauto. }
  assert (parent_ready w0 p) as Hready by (right; eauto).
  destruct (initialize_write p w0) as [[tmp|e] w1] eqn:Hinit;
    apply (initialize_write_spec p w0 _ _ Hready) in Hinit as (_ & _ & Hout).
  - exfalso. destruct Hout as (u & -> & Hu & [_ Hpass] & _).
    apply lookup_path_some in Hlook as [_ Hn].
    destruct (beam_temp_dir_spec p u Hu) as (_ & _ & _ & Hin).
    specialize (Hpass (Path.resolve (Path.dirname p))).
    rewrite dir_at_node, Hn in Hpass. discriminate Hpass. apply Hin. by right.
  - intros [= <- <-]. split; [eauto|]. exact Hout.
Qed.

(** X1. With no path supplied, [MakeDirs] is never called: the
    directory [mkdtemp] made, which was not there before, is the parent
    of the output path and the only change of the preparation; after a
    call that returned it is the only directory that was not there
    before. *)
Theorem default_call_adds_one_directory (data_location : string)
    (stats_options : StatsOptions) (pipeline_options : option PipelineOptions)
    (w w' : World) (out : Outcome DatasetFeatureStatisticsList) (s : Schema) :
  schema stats_options = Some s ->
  validate_tfexamples_in_tfrecord data_location stats_options None
      pipeline_options w = (out, w') ->
  made_dirs (new_calls w w') = []
  /\ (forall p w1,
        prepare_output None w = (Return p, w1) ->
        exists tmp,
          p = Path.join tmp "anomaly_stats.tfrecord"
          /\ Path.dirname p = tmp
          /\ lookup_path w tmp = None
          /\ fs w1 = <[Path.resolve tmp := Dir]> (fs w)
          /\ (forall stats, out = Return stats ->
                forall k, fs w' !! k = Some Dir ->
                  fs w !! k = Some Dir \/ k = Path.resolve tmp)).
Proof.
  intros Hs Hrun. split.
  - destruct (prepare_output None w) as [r w1] eqn:Hp.
    rewrite (validate_made_dirs _ _ _ _ _ _ _ _ _ _ Hs Hrun Hp).
    destruct (prepare_log _ _ _ _ Hp) as (_ & l & Hc & _ & _ & _ & Hnone).
    rewrite (new_calls_app _ _ _ Hc). by apply Hnone.
  - intros p w1 Hp. pose proof Hp as Hspec.
    apply prepare_default_spec in Hspec
      as (_ & [(e & ? & _) | (tmp & [= ->] & Hplain & Hreach & Hfree & Hfs & Hc)]);
      [done|].
    exists tmp. split; [done|]. split; [by apply dirname_join|].
    split; [by apply lookup_path_absent|]. split; [done|].
    intros stats -> k Hk.
    destruct (validate_frame _ _ _ _ _ _ _ _ Hs Hrun)
      as (r & w1' & l & Hp' & _ & _ & _ & Hcase).
    rewrite Hp in Hp'. injection Hp' as <- <-.
    destruct Hcase as [(e & ? & _)
                      | [(p' & e & _ & ? & _)
                        | [(p' & e & u & _ & ? & _)
                          | (p' & w2 & tagged & u & Hcase)]]]; try done.
    cbv zeta in Hcase.
    destruct Hcase as (_ & _ & _ & _ & -> & _ & _ & _ & _ & _ & Hnew & _).
    change (fs (add_call _ w2)) with (fs w2) in Hk.
    destruct (Hnew k Dir Hk) as [[_ ?]|Hk1]; [done|].
    rewrite Hfs in Hk1. destruct (decide (Path.resolve tmp = k)) as [<-|Hne].
    + by right.
    + rewrite lookup_insert_ne in Hk1 by done. by left.
Qed.


(** X3. The guard of the directory step is [Exists], which holds for a
    regular file too: when the parent of a supplied path is a regular
    file, [MakeDirs] is not called, and the call cannot succeed; it
    raises, loads nothing and leaves the file system as it was. *)
Theorem regular_file_as_parent (data_location : string)
    (stats_options : StatsOptions) (p : string)
    (pipeline_options : option PipelineOptions) (w w' : World)
    (out : Outcome DatasetFeatureStatisticsList) (s : Schema) :
  schema stats_options = Some s ->
  is_file w (Path.dirname p) = true ->
  validate_tfexamples_in_tfrecord data_location stats_options (Some p)
      pipeline_options w = (out, w') ->
  made_dirs (new_calls w w') = []
  /\ (exists e, out = Raise e)
  /\ loaded_paths (new_calls w w') = []
  /\ fs w' = fs w.
Proof.
  intros Hs Hfile Hrun.
  destruct (validate_frame _ _ _ _ _ _ _ _ Hs Hrun)
    as (r & w1 & l & Hp & Hn1 & Hr & Hl & Hcase).
  pose proof (validate_made_dirs _ _ _ _ _ _ _ _ _ _ Hs Hrun Hp) as Hmade.
  pose proof Hp as Hspec.
  apply prepare_supplied_spec in Hspec as (_ & _ & Hspec). cbv zeta in Hspec.
  assert (is_Some (lookup_path w (Path.dirname p))) as Hsome.
  { unfold is_file in Hfile. destruct (lookup_path w (Path.dirname p)); [eauto|done]. }
  destruct Hspec as [(_ & -> & Hfs1 & Hc) | [(Hn & _) | (Hn & _)]];
    [|rewrite Hn in Hsome; by destruct Hsome..].
  assert (is_file w1 (Path.dirname p) = true) as Hfile1
    by (by rewrite (is_file_fs _ _ _ Hfs1)).
  rewrite Hmade, (new_calls_app _ _ _ Hc). split; [done|].
  destruct Hcase as [(e & ? & _)
                    | [(p' & e & _ & -> & -> & _)
                      | [(p' & e & u & [= <-] & -> & _ & _ & Hpr & _ & _ & _ & _ & Hnew)
                        | (p' & w2 & tagged & u & Hcase)]]]; [done|..].
  - rewrite Hn1, Hl. eauto.
  - apply (run_under_file _ _ _ _ _ _ _ Hfile1) in Hpr as [_ Hfs].
    rewrite Hnew, loaded_paths_app, Hl. split; [eauto|]. split; [done|]. congruence.
  - cbv zeta in Hcase. destruct Hcase as ([= <-] & _ & _ & Hpr & _).
    by apply (run_under_file _ _ _ _ _ _ _ Hfile1) in Hpr as [[e ?] _].
Qed.

(** X4. Statistics are loaded only after the pipeline ran to completion:
    a load in the log of a call is its last entry, it follows the run
    directly, it reads the path the preparation resolved and the run
    wrote to, and nothing before the run was a run or a load. *)
Theorem load_follows_successful_run (data_location : string)
    (stats_options : StatsOptions) (output_path : option string)
    (pipeline_options : option PipelineOptions) (w w' : World)
    (out : Outcome DatasetFeatureStatisticsList) (q : string) :
  validate_tfexamples_in_tfrecord data_location stats_options output_path
      pipeline_options w = (out, w') ->
  q ∈ loaded_paths (new_calls w w') ->
  exists w1 w2 l,
    prepare_output output_path w = (Return q, w1)
    /\ Pipeline_run pipeline_options
         (anomaly_pipeline data_location stats_options q) w1 = (Return tt, w2)
    /\ w' = add_call (CallLoadStatistics q) w2
    /\ new_calls w w'
       = (l ++ [CallRun pipeline_options
                  (anomaly_pipeline data_location stats_options q);
                CallLoadStatistics q])%list
    /\ runs l = [] /\ loaded_paths l = [].
Proof.
  intros Hrun Hin. destruct (schema stats_options) as [s|] eqn:Hs.
  2:{ rewrite validate_no_schema in Hrun by done. injection Hrun as <- <-.
      unfold new_calls in Hin. rewrite drop_all in Hin.
      by apply elem_of_nil in Hin. }
  destruct (validate_frame _ _ _ _ _ _ _ _ Hs Hrun)
    as (r & w1 & l & Hp & Hn1 & Hr & Hl & Hcase).
  destruct Hcase as [(e & _ & _ & ->)
                    | [(p & e & _ & _ & -> & _)
                      | [(p & e & u & _ & _ & _ & _ & _ & _ & _ & _ & _ & Hnew)
                        | (p & w2 & tagged & u & Hcase)]]].
  - rewrite Hn1, Hl in Hin. by apply elem_of_nil in Hin.
  - rewrite Hn1, Hl in Hin. by apply elem_of_nil in Hin.
  - rewrite Hnew, loaded_paths_app, Hl in Hin. by apply elem_of_nil in Hin.
  - cbv zeta in Hcase.
    destruct Hcase as (-> & _ & _ & Hpr & -> & _ & _ & _ & _ & _ & _ & _ & Hnew).
    rewrite Hnew, loaded_paths_app, Hl in Hin.
    apply list_elem_of_singleton in Hin as ->.
    exists w1, w2, (first_call output_path :: l). eauto 10.
Qed.

(** X5. A call that raises after the reload was attempted failed in the
    reload alone: the pipeline had run once, the file at the resolved
    path holds the one record just written, the exception is the one the
    parser gave for that record, and the written file is left in place. *)
Theorem reload_failure_keeps_output (data_location : string)
    (stats_options : StatsOptions) (output_path : option string)
    (pipeline_options : option PipelineOptions) (w w' : World)
    (e : exn) :
  validate_tfexamples_in_tfrecord data_location stats_options output_path
      pipeline_options w = (Raise e, w') ->
  loaded_paths (new_calls w w') <> [] ->
  exists p w1 tagged,
    let record := SerializeToString (sliced_statistics stats_options tagged) in
    prepare_output output_path w = (Return p, w1)
    /\ tagged_examples data_location stats_options w1 = inr tagged
    /\ runs (new_calls w w')
       = [(pipeline_options, anomaly_pipeline data_location stats_options p)]
    /\ loaded_paths (new_calls w w') = [p]
    /\ file_at w' p = Some [record]
    /\ ParseFromString record = inl e.
Proof.
  intros Hrun Hload. destruct (schema stats_options) as [s|] eqn:Hs.
  2:{ rewrite validate_no_schema in Hrun by done. injection Hrun as _ <-.
      unfold new_calls in Hload. by rewrite drop_all in Hload. }
  destruct (validate_frame _ _ _ _ _ _ _ _ Hs Hrun)
    as (r & w1 & l & Hp & Hn1 & Hr & Hl & Hcase).
  destruct Hcase as [(e' & _ & _ & ->)
                    | [(p & e' & _ & _ & -> & _)
                      | [(p & e' & u & _ & _ & _ & _ & _ & _ & _ & _ & _ & Hnew)
                        | (p & w2 & tagged & u & Hcase)]]].
  - by rewrite Hn1, Hl in Hload.
  - by rewrite Hn1, Hl in Hload.
  - by rewrite Hnew, loaded_paths_app, Hl in Hload.
  - cbv zeta in Hcase.
    destruct Hcase as (-> & _ & _ & _ & -> & _ & _ & _ & Htag & Hfile & _ & Hout & Hnew).
    exists p, w1, tagged. cbv zeta.
    rewrite Hnew, runs_app, loaded_paths_app, Hr, Hl.
    split; [done|]. split; [done|]. split; [done|]. split; [done|].
    split; [exact Hfile|].
    destruct (ParseFromString _); by simplify_eq.
Qed.

(** X6. A supplied path with no directory part has the empty parent:
    the directory step cannot fail on it and leaves the file system as
    it was; [Exists] is false of the empty path, so [MakeDirs] is called,
    on the empty path, where it makes nothing.  After a call that
    returned, no directory is new. *)
Theorem bare_file_name_needs_no_directory (data_location : string)
    (stats_options : StatsOptions) (p : string)
    (pipeline_options : option PipelineOptions) (w w' : World)
    (out : Outcome DatasetFeatureStatisticsList) (s : Schema) :
  schema stats_options = Some s ->
  Path.has_sep p = false ->
  validate_tfexamples_in_tfrecord data_location stats_options (Some p)
      pipeline_options w = (out, w') ->
  exists w1,
    prepare_output (Some p) w = (Return p, w1)
    /\ fs w1 = fs w
    /\ new_calls w w1 = [CallExists ""; CallMakeDirs ""]
    /\ made_dirs (new_calls w w') = [""]
    /\ (forall stats, out = Return stats ->
          forall k, fs w' !! k = Some Dir -> fs w !! k = Some Dir).
Proof.
  intros Hs Hsep Hrun.
  assert (exists w1, prepare_output (Some p) w = (Return p, w1)
                     /\ fs w1 = fs w
                     /\ calls w1 = (calls w ++ [CallExists ""; CallMakeDirs ""])%list)
    as (w1 & Hp & Hfs & Hc).
  { rewrite prepare_output_some. cbv zeta. rewrite (dirname_no_sep p Hsep).
    rewrite lookup_path_empty, bool_decide_eq_false_2 by (by intros [? ?]).
    eexists. split; [reflexivity|]. split; [reflexivity|]. simpl.
    by rewrite <- app_assoc. }
  exists w1. split; [done|]. split; [done|].
  rewrite (validate_made_dirs _ _ _ _ _ _ _ _ _ _ Hs Hrun Hp).
  rewrite (new_calls_app _ _ _ Hc). split; [done|]. split; [done|].
  intros stats -> k Hk.
  destruct (validate_frame _ _ _ _ _ _ _ _ Hs Hrun)
    as (r & w1' & l & Hp' & _ & _ & _ & Hcase).
  rewrite Hp in Hp'. injection Hp' as <- <-.
  destruct Hcase as [(e & ? & _)
                    | [(p' & e & _ & ? & _)
                      | [(p' & e & u & _ & ? & _)
                        | (p' & w2 & tagged & u & Hcase)]]]; try done.
  cbv zeta in Hcase.
  destruct Hcase as (_ & _ & _ & _ & -> & _ & _ & _ & _ & _ & Hnew & _).
  change (fs (add_call _ w2)) with (fs w2) in Hk.
  destruct (Hnew k Dir Hk) as [[_ ?]|Hk1]; [done|]. by rewrite <- Hfs.
Qed.

(** X7. Whatever a call with a supplied path does, and however it ends,
    it changes nothing in the file system away from three places: what
    the output path lays claim to (the place it leads to and everything
    below it), the lineage of its parent, and the temporary directory of
    the sink. *)
Theorem call_frame (data_location : string)
    (stats_options : StatsOptions) (p : string)
    (pipeline_options : option PipelineOptions) (w w' : World)
    (out : Outcome DatasetFeatureStatisticsList) (s : Schema) :
  schema stats_options = Some s ->
  validate_tfexamples_in_tfrecord data_location stats_options (Some p)
      pipeline_options w = (out, w') ->
  exists u,
    Path.has_sep u = false
    /\ forall k,
         ~ Path.resolve (beam_temp_dir p u) `prefix_of` k ->
         (forall k', k' ∈ inits k -> claimed p k' = false) ->
         k ∉ map Path.resolve (lineage (Path.dirname p)) ->
         fs w' !! k = fs w !! k.
Proof.
  intros Hs Hrun.
  destruct (validate_frame _ _ _ _ _ _ _ _ Hs Hrun)
    as (r & w1 & l & Hp & _ & _ & _ & Hcase).
  pose proof (prepare_supplied_nodes _ _ _ _ Hp) as [Hkeep _].
  assert (forall p', r = Return p' -> p' = p) as Hsame.
  { apply prepare_log in Hp as (_ & ? & _ & _ & _ & Hsome & _).
    apply (Hsome p eq_refl). }
  destruct Hcase as [(e & _ & _ & ->)
                    | [(p' & e & _ & _ & -> & _)
                      | [(p' & e & u & Hr & _ & _ & _ & _ & _ & Hu & Hfr & _)
                        | (p' & w2 & tagged & u & Hcase)]]].
  - exists "". split; [done|]. intros k _ _ Hk. by apply Hkeep.
  - exists "". split; [done|]. intros k _ _ Hk. by apply Hkeep.
  - rewrite (Hsame p' Hr) in *. exists u. split; [done|].
    intros k Hk Hcl Hlin. rewrite Hfr by done. by apply Hkeep.
  - cbv zeta in Hcase.
    destruct Hcase as (Hr & _ & _ & _ & -> & _ & Hu & Hfr & _).
    rewrite (Hsame p' Hr) in *. exists u. split; [done|].
    intros k Hk Hcl Hlin. change (fs (add_call _ w2)) with (fs w2).
    rewrite Hfr by done. by apply Hkeep.
Qed.

End MoreProperties.

(** X8. Joining a separator-free name onto a plain directory and taking
    the result apart again gives both back: the parent is the directory
    and the last component is the name. *)
Theorem join_round_trip (a b : string) :
  plain_dir a -> Path.has_sep b = false ->
  Path.dirname (Path.join a b) = a /\ Path.basename (Path.join a b) = b.
Proof.
  intros Ha Hb. split.
  - rewrite join_plain_dir by auto using starts_no_sep.
    destruct Ha as [Ha He]. unfold Path.dirname.
    rewrite head_of_app_sep, rstrip_sep_app_sep, rstrip_sep_id by done.
    by destruct a.
  - unfold Path.join. rewrite (starts_no_sep b Hb).
    destruct Ha as [Ha ->]. rewrite bool_decide_eq_false_2 by done. simpl.
    by apply basename_app_sep.
Qed.

Example join_trailing_separator_parent :
  Path.dirname (Path.join "/tmp/" "f.txt") = "/tmp"
  /\ Path.dirname (Path.join "" "f.txt") = "".
Proof. split; reflexivity. Qed.

(** * The model at work: the reference instantiation *)

Import Reference.



Example run_default :
  (validate_tfexamples_in_tfrecord "/data/in.tfrecord" options_ab None None world0).1
  = Return summary_ab.
Proof. vm_compute. reflexivity. Qed.

Example run_supplied :
  (validate_tfexamples_in_tfrecord "/data/in.tfrecord" options_a
     (Some "/out/x/stats") None world0).1
  = Return summary_a.
Proof. vm_compute. reflexivity. Qed.

(** A pattern that matches nothing stops the call while the graph is
    built: nothing is run. *)
Example run_missing_input :
  let r := validate_tfexamples_in_tfrecord "/data/nothing" options_a
             (Some "/out/x/stats") None world0 in
  r.1 = Raise (IOError "No files found based on the file pattern /data/nothing")
  /\ runs (new_calls world0 r.2) = [].
Proof. vm_compute. done. Qed.

(** Spellings of one directory. *)
Example exists_under_any_spelling :
  is_dir world0 "/data" = true /\ is_dir world0 "//data" = true
  /\ is_dir world0 "/data/." = true /\ is_dir world0 "data/" = true
  /\ is_dir world0 "/tmp/../data" = true
  /\ is_dir world0 "/nothing/../data" = false
  /\ is_dir world0 "/data/in.tfrecord/.." = false.
Proof. vm_compute. done. Qed.

Lemma absent_schema_fails_fast_witness :
  schema options_none = None
  /\ validate_tfexamples_in_tfrecord "/data/in.tfrecord" options_none
       (Some "/out/x/stats") None world0
     = (Raise (ValueError SCHEMA_REQUIRED), world0)
  /\ (Raise (ValueError SCHEMA_REQUIRED)
       = Raise (A := DatasetFeatureStatisticsList) (ValueError SCHEMA_REQUIRED)
     /\ world0 = world0
     /\ new_calls world0 world0 = []
     /\ rng_pos world0 = rng_pos world0
     /\ fs world0 = fs world0).
Proof.
  split; [reflexivity|]. split; [reflexivity|].
  exact (absent_schema_fails_fast "/data/in.tfrecord" options_none
           (Some "/out/x/stats") None world0 world0 _ eq_refl eq_refl).
Defined.

Lemma schema_check_presence_only_witness :
  validate_tfexamples_in_tfrecord "/data/in.tfrecord" options_a
    (Some "/out/x/stats") None world0 = (Return summary_a, after_supplied)
  /\ ((schema options_a = None
       <-> Return summary_a = Raise (ValueError SCHEMA_REQUIRED)
           /\ after_supplied = world0)
      /\ (schema options_a <> None ->
          exists l, new_calls world0 after_supplied
                    = first_call (Some "/out/x/stats") :: l)).
Proof.
  assert (validate_tfexamples_in_tfrecord "/data/in.tfrecord" options_a
            (Some "/out/x/stats") None world0 = (Return summary_a, after_supplied))
    as Hrun by (vm_compute; reflexivity).
  split; [exact Hrun|]. exact (schema_check_presence_only _ _ _ _ _ _ _ Hrun).
Defined.

Lemma returned_statistics_are_reloaded_witness :
  validate_tfexamples_in_tfrecord "/data/in.tfrecord" options_ab None None world0
  = (Return summary_ab, after_default)
  /\ exists p,
       runs (new_calls world0 after_default)
       = [(None, anomaly_pipeline "/data/in.tfrecord" options_ab p)]
       /\ loaded_paths (new_calls world0 after_default) = [p]
       /\ (exists record rest,
             file_at after_default p = Some (record :: rest)
             /\ ParseFromString record = inr summary_ab)
       /\ load_statistics p after_default
          = (Return summary_ab, add_call (CallLoadStatistics p) after_default).
Proof.
  assert (validate_tfexamples_in_tfrecord "/data/in.tfrecord" options_ab None None
            world0 = (Return summary_ab, after_default))
    as Hrun by (vm_compute; reflexivity).
  split; [exact Hrun|]. exact (returned_statistics_are_reloaded _ _ _ _ _ _ _ Hrun).
Defined.

Import Cases.

(** A record that does not decode fails the run, not the building of
    the graph: the run is logged, and the sink has made its temporary
    directory, which stays. *)
Lemma pipeline_failure_propagates_witness :
  let stages := anomaly_pipeline "/data/bad.tfrecord" options_a "/out/x/stats" in
  let w1 := (prepare_output (Some "/out/x/stats") world_bad).2 in
  let w2 := (Pipeline_run None stages w1).2 in
  let e := ExternalError "DecodeError" "empty record" in
  schema options_a = Some ["a"]
  /\ prepare_output (Some "/out/x/stats") world_bad = (Return "/out/x/stats", w1)
  /\ options_fault None = None
  /\ build stages w1 = (Return stages, w1)
  /\ Pipeline_run None stages w1 = (Raise e, w2)
  /\ validate_tfexamples_in_tfrecord "/data/bad.tfrecord" options_a
       (Some "/out/x/stats") None world_bad = (Raise e, w2)
  /\ stages = anomaly_pipeline "/data/bad.tfrecord" options_a "/out/x/stats"
  /\ runs (new_calls world_bad w2) = [(None, stages)]
  /\ loaded_paths (new_calls world_bad w2) = [].
Proof.
  intros stages w1 w2 e.
  assert (prepare_output (Some "/out/x/stats") world_bad = (Return "/out/x/stats", w1))
    as Hp by (vm_compute; reflexivity).
  assert (build stages w1 = (Return stages, w1)) as Hb by (vm_compute; reflexivity).
  assert (Pipeline_run None stages w1 = (Raise e, w2)) as Hr
    by (vm_compute; reflexivity).
  split; [reflexivity|]. split; [exact Hp|]. split; [reflexivity|].
  split; [exact Hb|]. split; [exact Hr|].
  exact (pipeline_failure_propagates "/data/bad.tfrecord" options_a _ None
           _ _ _ _ _ _ _ _ eq_refl Hp eq_refl Hb Hr).
Defined.

Example failed_run_leaves_temporary_directory :
  let w2 := (validate_tfexamples_in_tfrecord "/data/bad.tfrecord" options_a
               (Some "/out/x/stats") None world_bad).2 in
  is_dir w2 "/out/x/beam-temp-stats-0123456789abcdef0123456789abcdef" = true
  /\ file_at w2 "/out/x/stats" = None.
Proof. vm_compute. done. Qed.

Lemma pipeline_has_five_stages_witness :
  schema options_ab = Some ["a"; "b"]
  /\ validate_tfexamples_in_tfrecord "/data/in.tfrecord" options_ab None None world0
     = (Return summary_ab, after_default)
  /\ (forall p w1 stages w1',
        build (anomaly_pipeline "/data/in.tfrecord" options_ab p) w1
        = (Return stages, w1') ->
        w1' = w1
        /\ map fst stages
           = ["ReadData"; "DecodeData"; "DetectAnomalies";
              "GenerateSummaryStatistics"; "WriteStatsOutput"]
        /\ stage_kinds stages
           = [ReadStage; DecodeStage; DetectStage; AggregateStage true; WriteStage])
  /\ (forall r, r ∈ runs (new_calls world0 after_default) ->
        r.1 = None
        /\ (exists p, r.2 = anomaly_pipeline "/data/in.tfrecord" options_ab p)
        /\ map fst r.2
           = ["ReadData"; "DecodeData"; "DetectAnomalies";
              "GenerateSummaryStatistics"; "WriteStatsOutput"]
        /\ stage_kinds r.2
           = [ReadStage; DecodeStage; DetectStage; AggregateStage true; WriteStage])
  /\ length (runs (new_calls world0 after_default)) <= 1
  /\ (forall p w1,
        prepare_output None world0 = (Return p, w1) ->
        (options_fault None = None
         /\ source_found "/data/in.tfrecord" w1 = true ->
         runs (new_calls world0 after_default)
         = [(None, anomaly_pipeline "/data/in.tfrecord" options_ab p)])
        /\ (options_fault None <> None
            \/ source_found "/data/in.tfrecord" w1 = false ->
            runs (new_calls world0 after_default) = []
            /\ exists e, Return summary_ab = Raise e /\ after_default = w1)).
Proof.
  assert (validate_tfexamples_in_tfrecord "/data/in.tfrecord" options_ab None None
            world0 = (Return summary_ab, after_default))
    as Hrun by (vm_compute; reflexivity).
  split; [reflexivity|]. split; [exact Hrun|].
  exact (pipeline_has_five_stages _ options_ab _ _ _ _ _ _ eq_refl Hrun).
Defined.

Lemma single_output_file_witness :
  validate_tfexamples_in_tfrecord "/data/in.tfrecord" options_a
    (Some "/out/x/stats") None world0 = (Return summary_a, after_supplied)
  /\ exists p w1 tagged,
       let record := SerializeToString (sliced_statistics options_a tagged) in
       prepare_output (Some "/out/x/stats") world0 = (Return p, w1)
       /\ tagged_examples "/data/in.tfrecord" options_a w1 = inr tagged
       /\ output_paths (new_calls world0 after_supplied) = [p]
       /\ (forall r, r ∈ runs (new_calls world0 after_supplied) ->
             sinks r.2 = [(p, Some "")])
       /\ file_at after_supplied p = Some [record]
       /\ ParseFromString record = inr summary_a
       /\ (forall k records,
             fs after_supplied !! k = Some (File records) ->
             (k = Path.resolve p /\ records = [record])
             \/ fs world0 !! k = Some (File records)).
Proof.
  assert (validate_tfexamples_in_tfrecord "/data/in.tfrecord" options_a
            (Some "/out/x/stats") None world0 = (Return summary_a, after_supplied))
    as Hrun by (vm_compute; reflexivity).
  split; [exact Hrun|]. exact (single_output_file _ _ _ _ _ _ _ Hrun).
Defined.

(** What was at the output path is replaced, a directory with all that
    is below it. *)
Example output_replaces_directory :
  let w' := (validate_tfexamples_in_tfrecord "/data/in.tfrecord" options_ab
               (Some "/out/stats") None world_old).2 in
  is_dir world_old "/out/stats" = true
  /\ file_at world_old "/out/stats/part" = Some [record_of "old"]
  /\ file_at w' "/out/stats" = Some [SerializeToString summary_ab]
  /\ fs w' !! ["out"; "stats"; "part"] = None.
Proof. vm_compute. done. Qed.


Example made_with_ancestors :
  Path.dirname "/out/x/stats" = "/out/x"
  /\ lineage "/out/x" = ["/out/x"; "/out"; "/"]
  /\ lookup_path world0 "/out/x" = None /\ lookup_path world0 "/out" = None
  /\ is_dir after_supplied "/out/x" = true /\ is_dir after_supplied "/out" = true
  /\ made_dirs (new_calls world0 after_supplied) = ["/out/x"]
  /\ made_dirs (new_calls after_supplied after_supplied_twice) = [].
Proof. vm_compute. done. Qed.

(** The second call replaced the output of the first. *)
Example second_call_overwrites :
  file_at after_supplied "/out/x/stats" = Some [SerializeToString summary_a]
  /\ file_at after_supplied_twice "/out/x/stats" = Some [SerializeToString summary_ab].
Proof. vm_compute. done. Qed.


Lemma default_output_path_witness :
  let w1 := (prepare_output None world0).2 in
  let w2' := (prepare_output None after_default).2 in
  let p1 := "/tmp/tmpabcdefgh/anomaly_stats.tfrecord" in
  let p2 := "/tmp/tmpijklmnop/anomaly_stats.tfrecord" in
  schema options_ab = Some ["a"; "b"]
  /\ validate_tfexamples_in_tfrecord "/data/in.tfrecord" options_ab None None world0
     = (Return summary_ab, after_default)
  /\ prepare_output None world0 = (Return p1, w1)
  /\ prepare_output None after_default = (Return p2, w2')
  /\ lookup_path after_default (Path.dirname p1) <> None
  /\ (exists tmp,
        p1 = Path.join tmp "anomaly_stats.tfrecord"
        /\ Path.dirname p1 = tmp
        /\ Path.basename p1 = "anomaly_stats.tfrecord"
        /\ lookup_path world0 tmp = None
        /\ is_dir w1 tmp = true
        /\ new_calls world0 w1 = [CallMkdtemp; CallExists tmp])
  /\ (forall r, r ∈ runs (new_calls world0 after_default) ->
        sinks r.2 = [(p1, Some "")])
  /\ (forall q, q ∈ loaded_paths (new_calls world0 after_default) -> q = p1)
  /\ p1 <> p2.
Proof.
  intros w1 w2' p1 p2.
  assert (validate_tfexamples_in_tfrecord "/data/in.tfrecord" options_ab None None
            world0 = (Return summary_ab, after_default))
    as Hrun by (vm_compute; reflexivity).
  assert (prepare_output None world0 = (Return p1, w1)) as Hp1
    by (vm_compute; reflexivity).
  assert (prepare_output None after_default = (Return p2, w2')) as Hp2
    by (vm_compute; reflexivity).
  assert (lookup_path after_default (Path.dirname p1) <> None) as Hstill
    by (vm_compute; discriminate).
  split; [reflexivity|]. split; [exact Hrun|]. split; [exact Hp1|].
  split; [exact Hp2|]. split; [exact Hstill|].
  exact (default_output_path "/data/in.tfrecord" options_ab None _ _ _ _ _ _ _ _ _
           eq_refl Hrun Hp1 Hp2 Hstill).
Defined.

(** C2, as the spec states it, fails twice.  The file name is not
    [anomaly_stats]: in [world0] the path the default call resolves to
    is not [anomaly_stats] joined under any directory.  And two separate
    calls can resolve to the same path: when the temporary directory of
    a first call is gone and [tempfile] draws the same name again, the
    second call makes the directory anew. *)
Lemma default_file_name_counterexample :
  output_paths (new_calls world0 after_default)
  = ["/tmp/tmpabcdefgh/anomaly_stats.tfrecord"]
  /\ ~ (exists tmp,
          output_paths (new_calls world0 after_default)
          = [Path.join tmp "anomaly_stats"])
  /\ output_paths (new_calls world_repeating after_repeating)
     = ["/tmp/tmpaaaaaaaa/anomaly_stats.tfrecord"]
  /\ output_paths (new_calls after_cleaning after_cleaning_and_call)
     = ["/tmp/tmpaaaaaaaa/anomaly_stats.tfrecord"].
Proof.
  assert (output_paths (new_calls world0 after_default)
          = ["/tmp/tmpabcdefgh/anomaly_stats.tfrecord"]) as Hpaths
    by (vm_compute; reflexivity).
  split; [exact Hpaths|]. split; [|split; vm_compute; reflexivity].
  intros [tmp Heq]. rewrite Hpaths in Heq. injection Heq as Heq.
  apply (f_equal Path.basename) in Heq.
  rewrite basename_join in Heq by reflexivity.
  vm_compute in Heq. discriminate Heq.
Qed.



(** ** The further properties on the reference world *)

Lemma default_call_adds_one_directory_witness :
  schema options_ab = Some ["a"; "b"]
  /\ validate_tfexamples_in_tfrecord "/data/in.tfrecord" options_ab None None world0
     = (Return summary_ab, after_default)
  /\ made_dirs (new_calls world0 after_default) = []
  /\ (forall p w1,
        prepare_output None world0 = (Return p, w1) ->
        exists tmp,
          p = Path.join tmp "anomaly_stats.tfrecord"
          /\ Path.dirname p = tmp
          /\ lookup_path world0 tmp = None
          /\ fs w1 = <[Path.resolve tmp := Dir]> (fs world0)
          /\ (forall stats, Return summary_ab = Return stats ->
                forall k, fs after_default !! k = Some Dir ->
                  fs world0 !! k = Some Dir \/ k = Path.resolve tmp)).
Proof.
  assert (validate_tfexamples_in_tfrecord "/data/in.tfrecord" options_ab None None
            world0 = (Return summary_ab, after_default))
    as Hrun by (vm_compute; reflexivity).
  split; [reflexivity|]. split; [exact Hrun|].
  exact (default_call_adds_one_directory _ options_ab _ _ _ _ _ eq_refl Hrun).
Defined.


Lemma regular_file_as_parent_witness :
  schema options_a = Some ["a"]
  /\ is_file world0 (Path.dirname beside_input_file) = true
  /\ validate_tfexamples_in_tfrecord "/data/in.tfrecord" options_a
       (Some beside_input_file) None world0
     = (Raise (RuntimeError
                 "/data/in.tfrecord/beam-temp-stats-0123456789abcdef0123456789abcdef"),
        after_beside)
  /\ made_dirs (new_calls world0 after_beside) = []
  /\ (exists e,
        Raise (A := DatasetFeatureStatisticsList)
          (RuntimeError
             "/data/in.tfrecord/beam-temp-stats-0123456789abcdef0123456789abcdef")
        = Raise e)
  /\ loaded_paths (new_calls world0 after_beside) = []
  /\ fs after_beside = fs world0.
Proof.
  assert (validate_tfexamples_in_tfrecord "/data/in.tfrecord" options_a
            (Some beside_input_file) None world0
          = (Raise (RuntimeError
               "/data/in.tfrecord/beam-temp-stats-0123456789abcdef0123456789abcdef"),
             after_beside))
    as Hrun by (vm_compute; reflexivity).
  assert (is_file world0 (Path.dirname beside_input_file) = true)
    as Hfile by (vm_compute; reflexivity).
  split; [reflexivity|]. split; [exact Hfile|]. split; [exact Hrun|].
  exact (regular_file_as_parent _ options_a _ _ _ _ _ _ eq_refl Hfile Hrun).
Defined.

Lemma load_follows_successful_run_witness :
  validate_tfexamples_in_tfrecord "/data/in.tfrecord" options_a
    (Some "/out/x/stats") None world0 = (Return summary_a, after_supplied)
  /\ "/out/x/stats" ∈ loaded_paths (new_calls world0 after_supplied)
  /\ exists w1 w2 l,
       prepare_output (Some "/out/x/stats") world0 = (Return "/out/x/stats", w1)
       /\ Pipeline_run None
            (anomaly_pipeline "/data/in.tfrecord" options_a "/out/x/stats") w1
          = (Return tt, w2)
       /\ after_supplied = add_call (CallLoadStatistics "/out/x/stats") w2
       /\ new_calls world0 after_supplied
          = (l ++ [CallRun None
                     (anomaly_pipeline "/data/in.tfrecord" options_a "/out/x/stats");
                   CallLoadStatistics "/out/x/stats"])%list
       /\ runs l = [] /\ loaded_paths l = [].
Proof.
  assert (validate_tfexamples_in_tfrecord "/data/in.tfrecord" options_a
            (Some "/out/x/stats") None world0 = (Return summary_a, after_supplied))
    as Hrun by (vm_compute; reflexivity).
  assert ("/out/x/stats" ∈ loaded_paths (new_calls world0 after_supplied)) as Hin.
  { assert (loaded_paths (new_calls world0 after_supplied) = ["/out/x/stats"])
      as -> by (vm_compute; reflexivity). left. }
  split; [exact Hrun|]. split; [exact Hin|].
  exact (load_follows_successful_run _ _ _ _ _ _ _ _ Hrun Hin).
Defined.

Lemma reload_failure_keeps_output_witness :
  let e := ExternalError "DecodeError" "Error parsing message" in
  let w' := (validate_tfexamples_in_tfrecord (H0 := unreadable) "/data/in.tfrecord"
               options_a (Some "/out/x/stats") None world0).2 in
  validate_tfexamples_in_tfrecord (H0 := unreadable) "/data/in.tfrecord" options_a
    (Some "/out/x/stats") None world0 = (Raise e, w')
  /\ loaded_paths (new_calls world0 w') <> []
  /\ exists p w1 tagged,
       let record :=
         SerializeToString (Collaborators := unreadable)
           (sliced_statistics (H0 := unreadable) options_a tagged) in
       prepare_output (Some "/out/x/stats") world0 = (Return p, w1)
       /\ tagged_examples (H0 := unreadable) "/data/in.tfrecord" options_a w1
          = inr tagged
       /\ runs (new_calls world0 w')
          = [(None, anomaly_pipeline "/data/in.tfrecord" options_a p)]
       /\ loaded_paths (new_calls world0 w') = [p]
       /\ file_at w' p = Some [record]
       /\ ParseFromString (Collaborators := unreadable) record = inl e.
Proof.
  intros e w'.
  assert (validate_tfexamples_in_tfrecord (H0 := unreadable) "/data/in.tfrecord"
            options_a (Some "/out/x/stats") None world0 = (Raise e, w'))
    as Hrun by (vm_compute; reflexivity).
  assert (loaded_paths (new_calls world0 w') <> []) as Hload.
  { assert (loaded_paths (new_calls world0 w') = ["/out/x/stats"])
      as -> by (vm_compute; reflexivity). discriminate. }
  split; [exact Hrun|]. split; [exact Hload|].
  exact (reload_failure_keeps_output (H0 := unreadable) _ _ _ _ _ _ _ Hrun Hload).
Defined.

Lemma bare_file_name_needs_no_directory_witness :
  schema options_a = Some ["a"]
  /\ Path.has_sep "stats" = false
  /\ validate_tfexamples_in_tfrecord "/data/in.tfrecord" options_a
       (Some "stats") None world0 = (Return summary_a, after_bare)
  /\ exists w1,
       prepare_output (Some "stats") world0 = (Return "stats", w1)
       /\ fs w1 = fs world0
       /\ new_calls world0 w1 = [CallExists ""; CallMakeDirs ""]
       /\ made_dirs (new_calls world0 after_bare) = [""]
       /\ (forall stats, Return summary_a = Return stats ->
             forall k, fs after_bare !! k = Some Dir -> fs world0 !! k = Some Dir).
Proof.
  assert (validate_tfexamples_in_tfrecord "/data/in.tfrecord" options_a
            (Some "stats") None world0 = (Return summary_a, after_bare))
    as Hrun by (vm_compute; reflexivity).
  split; [reflexivity|]. split; [reflexivity|]. split; [exact Hrun|].
  exact (bare_file_name_needs_no_directory _ options_a "stats" _ _ _ _ _
           eq_refl eq_refl Hrun).
Defined.

Lemma call_frame_witness :
  schema options_a = Some ["a"]
  /\ validate_tfexamples_in_tfrecord "/data/in.tfrecord" options_a
       (Some "/out/x/stats") None world0 = (Return summary_a, after_supplied)
  /\ exists u,
       Path.has_sep u = false
       /\ forall k,
            ~ Path.resolve (beam_temp_dir "/out/x/stats" u) `prefix_of` k ->
            (forall k', k' ∈ inits k -> claimed "/out/x/stats" k' = false) ->
            k ∉ [["out"; "x"]; ["out"]; []] ->
            fs after_supplied !! k = fs world0 !! k.
Proof.
  assert (validate_tfexamples_in_tfrecord "/data/in.tfrecord" options_a
            (Some "/out/x/stats") None world0 = (Return summary_a, after_supplied))
    as Hrun by (vm_compute; reflexivity).
  split; [reflexivity|]. split; [exact Hrun|].
  exact (call_frame _ options_a "/out/x/stats" _ _ _ _ _ eq_refl Hrun).
Defined.

Lemma join_round_trip_witness :
  plain_dir "/tmp/tmpabcdefgh"
  /\ Path.has_sep "anomaly_stats.tfrecord" = false
  /\ Path.dirname (Path.join "/tmp/tmpabcdefgh" "anomaly_stats.tfrecord")
     = "/tmp/tmpabcdefgh"
  /\ Path.basename (Path.join "/tmp/tmpabcdefgh" "anomaly_stats.tfrecord")
     = "anomaly_stats.tfrecord".
Proof.
  assert (plain_dir "/tmp/tmpabcdefgh") as Hp by (split; [discriminate|reflexivity]).
  split; [exact Hp|]. split; [reflexivity|].
  exact (join_round_trip "/tmp/tmpabcdefgh" "anomaly_stats.tfrecord" Hp eq_refl).
Defined.
